(** * Farm-advisory services: IoT alerting, agronomy indices, market trends
      and notification fan-out

    A shallow embedding of the server-side services of the farm-advisory
    application and the proofs of their specified properties.

    Conventions of the embedding.
    - A JavaScript [number] is a rational [Q].  Sensor values, thresholds
      and the other numbers that are only compared, negated or passed
      through [Math.abs], [Math.min] and [Math.max] are the rationals the
      doubles are.  Where the source computes with them and the rounding of
      the result matters (the farm health score, the daily aggregates, the
      dew point), every operation rounds to the nearest double with
      [Double.double]: round to nearest, ties to even, 53 bits.  The
      exponent range is not bounded: overflow to an infinity and underflow
      to a subnormal are outside the model.  Elsewhere (the heat index, the
      growing degree days, the price changes) the arithmetic on rationals is
      exact.
    - The dew point needs the special values too: its numbers are
      [F64.num], a finite double, an infinity or NaN.  [Math.log], whose
      rounding the language leaves to the implementation, is a parameter of
      which the theorems assume only what they state.
    - The market and supply figures, which take [Math.sqrt] or divide by a
      value that can be zero, are [jsnum]: a real, an infinity or NaN, with
      the IEEE rules for the special values and exact arithmetic on the
      finite ones.
    - [new Date()] and [Date.now()] are read from an explicit [Clock]
      argument; parsing a stored timestamp with [new Date(string)] is a
      parameter that can fail, as an invalid date does.
    - An object literal used as a lookup table is an association list read
      with [assoc] (own properties only); where a caller-supplied key can
      reach the properties every object inherits, the lookup says so. *)

From Stdlib Require Import QArith Qround Qabs Qminmax Qpower Reals Psatz ZArith Ascii String.
From stdpp Require Import gmap strings list pretty.

Set Default Proof Using "Type".

(** ** Shared JavaScript helpers *)

Module JS.
Local Open Scope Q_scope.

(** [table[key]] on an object literal, restricted to its own properties. *)
Fixpoint assoc {A : Type} (key : string) (table : list (string * A)) : option A :=
  match table with
  | [] => None
  | (k, v) :: rest => if String.eqb k key then Some v else assoc key rest
  end.

(** The property names every object literal inherits from
    [Object.prototype]: [table[key]] finds a function there (an object for
    [__proto__]), which is truthy and has none of the table's fields. *)
Definition inherited : list string :=
  ["constructor"; "toString"; "toLocaleString"; "valueOf"; "hasOwnProperty";
   "isPrototypeOf"; "propertyIsEnumerable"; "__proto__"; "__defineGetter__";
   "__defineSetter__"; "__lookupGetter__"; "__lookupSetter__"].

Definition inherits (key : string) : bool := existsb (String.eqb key) inherited.

(** [Math.round]: the nearest integer, ties towards +infinity. *)
Definition Math_round (x : Q) : Z := Qfloor (x + (1 # 2)).

(** [x < y] on finite numbers. *)
Definition Qltb (x y : Q) : bool := negb (Qle_bool y x).

(** Truthiness of a finite number: everything but zero. *)
Definition truthy (x : Q) : bool := negb (Qeq_bool x 0).

(** [x || null] on an optional number: a missing value and zero both
    give [null]. *)
Definition or_null (x : option Q) : option Q :=
  match x with
  | Some q => if truthy q then Some q else None
  | None => None
  end.

(** [x || dflt] on an optional number: a missing value and zero give the
    default. *)
Definition or_number (x : option Q) (dflt : Q) : Q :=
  match x with
  | Some q => if truthy q then q else dflt
  | None => dflt
  end.

(** [obj[key] = v] on an object kept as its properties in insertion order. *)
Fixpoint obj_set {A : Type} (key : string) (v : A) (obj : list (string * A))
    : list (string * A) :=
  match obj with
  | [] => [(key, v)]
  | (k, w) :: rest =>
      if String.eqb k key then (k, v) :: rest else (k, w) :: obj_set key v rest
  end.

(** How a call ends: with a value, or with an exception that the caller's
    [catch] logs and throws again. *)
Inductive outcome (A : Type) :=
| Returned (a : A)
| Thrown.
Arguments Returned {A} a.
Arguments Thrown {A}.

(** [x || dflt] on an optional string: [undefined] and the empty string
    give the default. *)
Definition or_string (x : option string) (dflt : string) : string :=
  match x with
  | Some s => if String.eqb s "" then dflt else s
  | None => dflt
  end.

(** [s.split(sep)[0]]: the part of [s] before the first [sep], all of [s]
    when there is none. *)
Fixpoint split_head (sep : ascii) (s : string) : string :=
  match s with
  | EmptyString => EmptyString
  | String c rest => if Ascii.eqb c sep then EmptyString else String c (split_head sep rest)
  end.

(** White space skipped by [parseInt] (the ASCII part of it). *)
Definition is_space (c : ascii) : bool :=
  let n := nat_of_ascii c in
  Nat.eqb n 32 || (Nat.leb 9 n && Nat.leb n 13).

Fixpoint skip_spaces (s : string) : string :=
  match s with
  | String c rest => if is_space c then skip_spaces rest else s
  | EmptyString => s
  end.

(** The value of [c] as a digit in the given radix (10 or 16). *)
Definition digit_value (radix : Z) (c : ascii) : option Z :=
  let n := Z.of_nat (nat_of_ascii c) in
  let d :=
    if (48 <=? n)%Z && (n <=? 57)%Z then Some (n - 48)%Z
    else if (97 <=? n)%Z && (n <=? 122)%Z then Some (n - 87)%Z
    else if (65 <=? n)%Z && (n <=? 90)%Z then Some (n - 55)%Z
    else None in
  match d with
  | Some v => if (v <? radix)%Z then Some v else None
  | None => None
  end.

(** The longest prefix of digits; [acc] is [None] until a digit is read. *)
Fixpoint parse_digits (radix : Z) (s : string) (acc : option Z) : option Z :=
  match s with
  | EmptyString => acc
  | String c rest =>
      match digit_value radix c with
      | Some d => parse_digits radix rest (Some (radix * default 0%Z acc + d)%Z)
      | None => acc
      end
  end.

Definition parse_unsigned (s : string) : option Z :=
  match s with
  | String "0" (String "x" rest) | String "0" (String "X" rest) => parse_digits 16 rest None
  | _ => parse_digits 10 s None
  end.

(** [parseInt(s)] without a radix; [None] is NaN. *)
Definition parseInt (s : string) : option Z :=
  match skip_spaces s with
  | String "-" rest => Z.opp <$> parse_unsigned rest
  | String "+" rest => parse_unsigned rest
  | t => parse_unsigned t
  end.

(** [x >= y] and [x <= y] where either side may be NaN: false on NaN. *)
Definition nan_geb (x y : option Z) : bool :=
  match x, y with
  | Some a, Some b => (b <=? a)%Z
  | _, _ => false
  end.

Definition nan_leb (x y : option Z) : bool := nan_geb y x.

End JS.

(** ** Binary64 rounding *)

Module Double.
Local Open Scope Q_scope.

(** [2 ^ z] for an exponent of either sign. *)
Definition pow2 (z : Z) : Q := 2 ^ z.

(** The integer nearest to [y], a tie going to the even one. *)
Definition nearest_even (y : Q) : Z :=
  let f := Qfloor y in
  match Qcompare (y - inject_Z f) (1 # 2) with
  | Lt => f
  | Gt => (f + 1)%Z
  | Eq => if Z.even f then f else (f + 1)%Z
  end.

(** The binary exponent of a positive rational: [2^e <= q < 2^(e+1)]. *)
Definition exponent (q : Q) : Z :=
  let e := (Z.log2 (Qnum q) - Z.log2 (Zpos (Qden q)))%Z in
  if Qle_bool (pow2 e) q then e else (e - 1)%Z.

(** A positive rational rounded to 53 significant bits. *)
Definition round_pos (q : Q) : Q :=
  let e := exponent q in
  Qred (inject_Z (nearest_even (q * pow2 (52 - e))) * pow2 (e - 52)).

(** The double nearest to [q]: round to nearest, ties to even, as every
    arithmetic operation of the language rounds its exact result. *)
Definition double (q : Q) : Q :=
  match Qnum q with
  | Z0 => 0
  | Zpos _ => round_pos q
  | Zneg _ => - round_pos (- q)
  end.

(** The unit roundoff [2^-53]: the largest relative error of a rounding. *)
Definition u : Q := 1 # 9007199254740992.

(** [x + y], [x - y], [x * y] and [x / y] on finite doubles, [y] not zero. *)
Definition add (x y : Q) : Q := double (x + y).
Definition sub (x y : Q) : Q := double (x - y).
Definition mul (x y : Q) : Q := double (x * y).
Definition div (x y : Q) : Q := double (x / y).

End Double.

(** ** IoT ingest and alerting (iot-service.ts) *)

Module IoT.
Import JS.
Local Open Scope Q_scope.

Record Readings := {
  r_value : Q;
  r_unit : string;
  r_quality : option string;
  r_batteryLevel : option Q
}.

(** The payload handed to [processSensorData]. *)
Record RawSensorData := {
  raw_farmId : string;
  raw_sensorId : string;
  raw_sensorType : string;
  raw_location : string;
  raw_timestamp : string;
  raw_readings : Readings
}.

(** The object built by [normalizeSensorData]; [batteryLevel = None] is
    JavaScript's [null]. *)
Record SensorData := {
  farmId : string;
  sensorId : string;
  sensorType : string;
  location : string;
  timestamp : string;
  value : Q;
  unit : string;
  quality : string;
  batteryLevel : option Q;
  processed : string
}.

Record Alert := {
  alert_type : string;
  severity : string;
  message : string;
  action : string;
  alert_timestamp : string
}.

Record Threshold := {
  critical_low : Q;
  warning_low : Q;
  warning_high : Q;
  critical_high : Q
}.

Definition normalizeSensorData (now : string) (sensorData : RawSensorData) : SensorData :=
  {| farmId := raw_farmId sensorData;
     sensorId := raw_sensorId sensorData;
     sensorType := raw_sensorType sensorData;
     location := raw_location sensorData;
     timestamp := raw_timestamp sensorData;
     value := r_value (raw_readings sensorData);
     unit := r_unit (raw_readings sensorData);
     quality := or_string (r_quality (raw_readings sensorData)) "unknown";
     batteryLevel := or_null (r_batteryLevel (raw_readings sensorData));
     processed := now |}.

Definition thresholds : list (string * Threshold) :=
  [ ("soil_moisture",
     {| critical_low := 15; warning_low := 25; warning_high := 75; critical_high := 85 |});
    ("soil_temperature",
     {| critical_low := 10; warning_low := 15; warning_high := 32; critical_high := 40 |});
    ("soil_ph",
     {| critical_low := 5.0; warning_low := 5.5; warning_high := 7.8; critical_high := 8.5 |});
    ("air_temperature",
     {| critical_low := 5; warning_low := 10; warning_high := 38; critical_high := 45 |});
    ("humidity",
     {| critical_low := 25; warning_low := 35; warning_high := 80; critical_high := 90 |});
    ("light_intensity",
     {| critical_low := 5000; warning_low := 15000; warning_high := 70000;
        critical_high := 90000 |}) ].

Definition actions : list (string * list (string * string)) :=
  [ ("soil_moisture",
     [ ("critical_low", "Immediate irrigation required");
       ("warning_low", "Schedule irrigation within 24 hours");
       ("warning_high", "Check drainage, reduce irrigation");
       ("critical_high", "Stop irrigation, improve drainage immediately") ]);
    ("soil_temperature",
     [ ("critical_low", "Protect crops from cold, consider heating");
       ("warning_low", "Monitor for cold stress");
       ("warning_high", "Increase shade, mulching recommended");
       ("critical_high", "Emergency cooling required") ]);
    ("soil_ph",
     [ ("critical_low", "Apply lime to increase pH");
       ("warning_low", "Consider pH adjustment");
       ("warning_high", "Apply sulfur or organic matter");
       ("critical_high", "Immediate pH correction needed") ]);
    ("air_temperature",
     [ ("critical_low", "Frost protection measures needed");
       ("warning_low", "Monitor for cold damage");
       ("warning_high", "Provide shade, increase ventilation");
       ("critical_high", "Emergency cooling and shade required") ]);
    ("humidity",
     [ ("critical_low", "Increase irrigation, misting");
       ("warning_low", "Monitor plant stress");
       ("warning_high", "Improve ventilation");
       ("critical_high", "Prevent fungal diseases, reduce moisture") ]);
    ("light_intensity",
     [ ("critical_low", "Supplement with artificial lighting");
       ("warning_low", "Monitor for reduced photosynthesis");
       ("warning_high", "Provide shade during peak hours");
       ("critical_high", "Immediate shade protection required") ]) ].

(** [actions[sensorType]?.[alertType] || 'Monitor and take appropriate action'] *)
Definition getActionForAlert (sensorType alertType : string) : string :=
  or_string (assoc sensorType actions ≫= assoc alertType)
            "Monitor and take appropriate action".

Section Alerts.
(** [show] renders a number inside a template literal. *)
Variable show : Q → string.
(** [now] is [new Date().toISOString()]. *)
Variable now : string.

Definition value_alert (kind sev phrase alertType sensorType : string)
    (data : SensorData) : Alert :=
  {| alert_type := kind;
     severity := sev;
     message := sensorType +:+ phrase +:+ show (value data) +:+ " " +:+ unit data;
     action := getActionForAlert sensorType alertType;
     alert_timestamp := now |}.

Definition battery_alert (data : SensorData) (level : Q) : Alert :=
  {| alert_type := "maintenance";
     severity := "low";
     message := "Low battery on " +:+ sensorId data +:+ ": " +:+ show level +:+ "%";
     action := "Replace or recharge sensor battery";
     alert_timestamp := now |}.

(** The [if / else if] chain on the value: at most one push. *)
Definition threshold_alerts (threshold : Threshold) (sensorType : string)
    (data : SensorData) : list Alert :=
  if Qle_bool (value data) (critical_low threshold) then
    [ value_alert "critical" "high" " critically low: " "critical_low" sensorType data ]
  else if Qle_bool (value data) (warning_low threshold) then
    [ value_alert "warning" "medium" " below optimal: " "warning_low" sensorType data ]
  else if Qle_bool (critical_high threshold) (value data) then
    [ value_alert "critical" "high" " critically high: " "critical_high" sensorType data ]
  else if Qle_bool (warning_high threshold) (value data) then
    [ value_alert "warning" "medium" " above optimal: " "warning_high" sensorType data ]
  else [].

(** [data.batteryLevel && data.batteryLevel < 20] *)
Definition battery_alerts (data : SensorData) : list Alert :=
  match batteryLevel data with
  | Some level =>
      if truthy level && Qltb level 20 then [ battery_alert data level ] else []
  | None => []
  end.

(** [thresholds[sensorType]] is one of the six tables, an inherited property
    or [undefined].  Only [undefined] takes the early return; on an inherited
    property the four bounds are [undefined], every comparison of the chain is
    false, and the battery check still runs. *)
Definition analyzeForAlerts (farm sensorType : string) (data : SensorData) : list Alert :=
  match assoc sensorType thresholds with
  | Some threshold => threshold_alerts threshold sensorType data ++ battery_alerts data
  | None => if inherits sensorType then battery_alerts data else []
  end.

(** The alerts computed by [processSensorData] for a raw payload. *)
Definition processSensorData_alerts (sensorData : RawSensorData) : list Alert :=
  analyzeForAlerts (raw_farmId sensorData) (raw_sensorType sensorData)
                   (normalizeSensorData now sensorData).
End Alerts.


Definition optimalRanges : list (string * (Q * Q)) :=
  [ ("soil_moisture", (40, 60));
    ("soil_temperature", (20, 30));
    ("soil_ph", (6.0, 7.5));
    ("air_temperature", (20, 35));
    ("humidity", (50, 70));
    ("light_intensity", (30000, 60000)) ].

(** The points a valid reading loses; [None] when the two [if]s leave the
    score alone.  [range[0]] and [range[1]] of an inherited property are
    [undefined] and both comparisons fail, as for a sensor type without a
    range. *)
Definition penalty (sensorType : string) (v : Q) : option Q :=
  match assoc sensorType optimalRanges with
  | Some (lo, hi) =>
      if Qltb v lo || Qltb hi v then
        let deviation :=
          Double.div (Qabs (Double.sub v (Double.div (Double.add lo hi) 2)))
                     (Double.div (Double.sub hi lo) 2) in
        Some (Qmin 20 (Double.mul deviation 10))
      else None
  | None => None
  end.

(** One iteration of the [forEach] callback on the pair (score, validSensors);
    a property holding [null] is [None]. *)
Definition score_step (acc : Q * nat) (entry : string * option SensorData) : Q * nat :=
  match snd entry with
  | None => acc
  | Some data =>
      if truthy (value data)
      then (match penalty (fst entry) (value data) with
            | Some points => Double.sub (fst acc) points
            | None => fst acc
            end,
            S (snd acc))
      else acc
  end.

(** [sensorData] lists the own properties of the object in key order. *)
Definition calculateFarmHealthScore (sensorData : list (string * option SensorData)) : Z :=
  let '(score, validSensors) := fold_left score_step sensorData (100, 0%nat) in
  if (0 <? validSensors)%nat then Z.max 0 (Math_round score) else 0%Z.



(** A reading as [normalizeSensorData] would store it, for running the score
    on concrete values. *)
Definition sample_reading (sensorType : string) (v : Q) : string * option SensorData :=
  (sensorType,
   Some {| farmId := "farm1"; sensorId := "sensor_" +:+ sensorType;
           sensorType := sensorType; location := "field_a";
           timestamp := "2024-03-05T10:00:00.000Z"; value := v; unit := "";
           quality := "good"; batteryLevel := None;
           processed := "2024-03-05T10:00:01.000Z" |}).

End IoT.

(** ** Notification fan-out (notification-service.tsx) *)

Module Notify.
Import JS.
Local Open Scope Q_scope.

(** What [new Date()] and [Date.now()] give during one service call. *)
Record Clock := {
  iso : string;        (* toISOString() *)
  epoch_ms : string;   (* Date.now(), as printed in a template literal *)
  hours : Z;           (* getHours() *)
  weekday : Z          (* getDay(), 0 = Sunday *)
}.

Record QuietHours := { qh_start : string; qh_end : string }.

Record Preferences := {
  frequency : string;
  quietHours : QuietHours;
  language : string;
  timezone : string;
  priceChangeThreshold : option Q
}.

Record Subscription := {
  sub_userId : string;
  sub_farmId : string;
  notificationTypes : list string;
  sub_channels : list string;
  preferences : Preferences;
  isActive : bool;
  subscribedAt : string;
  lastUpdated : string
}.

(** The argument of [subscribe]: every field but the ids may be missing. *)
Record RawPreferences := {
  raw_frequency : option string;
  raw_quietHours : option QuietHours;
  raw_language : option string;
  raw_timezone : option string
}.

Record SubscribeRequest := {
  req_userId : string;
  req_farmId : string;
  req_notificationTypes : option (list string);
  req_channels : option (list string);
  req_preferences : option RawPreferences
}.

Record PriceData := {
  changePercent : Q;
  currentPrice : Q;
  previousPrice : Q;
  trend : string
}.

Record WeatherAlert := {
  wa_type : string;
  wa_message : string;
  wa_severity : string;
  wa_actionRequired : string;
  wa_validUntil : string
}.

(** The argument of [sendSensorAlert]. *)
Record SensorAlert := {
  sa_sensorType : string;
  sa_sensorId : string;
  sa_message : string;
  sa_severity : string;
  sa_value : Q;
  sa_threshold : Q;
  sa_actionRequired : string
}.

(** A field of the [data] object of a scheduled notification: a string or
    an array of strings. *)
Inductive Field :=
| Text (s : string)
| Items (l : list string).

(** The type-specific [data] field of a notification. *)
Inductive Payload :=
| PricePayload (crop : string) (p : PriceData)
| WeatherPayload (w : WeatherAlert)
| CropPayload (top3 : list string) (totalCount : nat)
| ScheduledPayload (summary : list (string * Field))
| SensorPayload (s : SensorAlert)
| NoPayload.

(** [channels = None] is a notification built without a [channels] field. *)
Record Notification := {
  id : string;
  userId : string;
  farmId : option string;
  type : string;
  title : string;
  message : string;
  data : Payload;
  priority : string;
  channels : option (list string);
  timestamp : string;
  status : string;
  read : bool;
  deliveredAt : option string;
  readAt : option string
}.

Record Stats := {
  totalSent : nat;
  byType : gmap string nat;
  byDay : gmap string nat
}.

(** Modelled from the spec: the key-value store (kv_store.ts is not among the
    sources), a mapping from string key to JSON value with get and set.  The
    JSON values are the four shapes this service writes. *)
Inductive value :=
| VSubscription (s : Subscription)
| VUsers (ids : list string)
| VNotifications (ns : list Notification)
| VStats (s : Stats).

Abbreviation store := (gmap string value).

Definition kv_get (key : string) (kv : store) : option value := kv !! key.
Definition kv_set (key : string) (v : value) (kv : store) : store := <[key := v]> kv.

(** [await kv.get(key)] read at the shape the caller expects. *)
Definition get_subscription (key : string) (kv : store) : option Subscription :=
  match kv_get key kv with Some (VSubscription s) => Some s | _ => None end.

(** [await kv.get(key) || []] for a list of user ids. *)
Definition get_users (key : string) (kv : store) : list string :=
  match kv_get key kv with Some (VUsers l) => l | _ => [] end.

(** [await kv.get(key) || []] for a list of notifications. *)
Definition get_notifications (key : string) (kv : store) : list Notification :=
  match kv_get key kv with Some (VNotifications l) => l | _ => [] end.

Definition empty_stats : Stats := {| totalSent := 0; byType := ∅; byDay := ∅ |}.

Definition get_stats (key : string) (kv : store) : Stats :=
  match kv_get key kv with Some (VStats s) => s | _ => empty_stats end.

Definition subscription_key (userId : string) : string :=
  "notifications:subscription:" +:+ userId.
Definition queue_key (type : string) : string := "notifications:queue:" +:+ type.
Definition user_key (userId : string) : string := "notifications:user:" +:+ userId.
Definition stats_key : string := "notifications:system:stats".
Definition farm_users_key (farmId : string) : string := "farm:users:" +:+ farmId.
Definition crop_users_key (crop : string) : string := "crop:users:" +:+ crop.

(** [array.includes(x)] on strings. *)
Definition includes (x : string) (l : list string) : bool := existsb (String.eqb x) l.

(** [value || dflt] on an optional array or object: only a missing value
    takes the default. *)
Definition or_default {A : Type} (x : option A) (dflt : A) : A := default dflt x.

Definition default_quietHours : QuietHours := {| qh_start := "22:00"; qh_end := "06:00" |}.

Definition subscriptionData (now : Clock) (subscription : SubscribeRequest) : Subscription :=
  let prefs := req_preferences subscription in
  {| sub_userId := req_userId subscription;
     sub_farmId := req_farmId subscription;
     notificationTypes :=
       or_default (req_notificationTypes subscription)
                  ["price_alerts"; "weather_warnings"; "crop_recommendations"];
     sub_channels := or_default (req_channels subscription) ["push"];
     preferences :=
       {| frequency := or_string (prefs ≫= raw_frequency) "immediate";
          quietHours := or_default (prefs ≫= raw_quietHours) default_quietHours;
          language := or_string (prefs ≫= raw_language) "en";
          timezone := or_string (prefs ≫= raw_timezone) "Asia/Kolkata";
          priceChangeThreshold := None |};
     isActive := true;
     subscribedAt := iso now;
     lastUpdated := iso now |}.

(** One turn of the loop over [subscriptionData.notificationTypes]. *)
Definition enqueue (userId : string) (kv : store) (type : string) : store :=
  let subscribers := get_users (queue_key type) kv in
  if includes userId subscribers then kv
  else kv_set (queue_key type) (VUsers (subscribers ++ [userId])) kv.

Record SubscribeResult := { sr_status : string; sr_userId : string }.

Definition subscribe (now : Clock) (subscription : SubscribeRequest) (kv : store)
    : store * SubscribeResult :=
  let sd := subscriptionData now subscription in
  let kv1 := kv_set (subscription_key (req_userId subscription)) (VSubscription sd) kv in
  let kv2 := fold_left (enqueue (req_userId subscription)) (notificationTypes sd) kv1 in
  (kv2, {| sr_status := "subscribed"; sr_userId := req_userId subscription |}).

Record ChannelResult := { cr_status : string; cr_channel : string; cr_timestamp : string }.

(** The simulated [sendPushNotification], [sendEmailNotification] and
    [sendSMSNotification]: they log and report success. *)
Definition sent (now : Clock) (channel : string) : ChannelResult :=
  {| cr_status := "sent"; cr_channel := channel; cr_timestamp := iso now |}.

(** One turn of the loop of [deliverToChannels]: the [switch] has no default
    case, an unknown channel leaves [results] as it is. *)
Definition deliver_step (now : Clock) (results : list (string * ChannelResult))
    (channel : string) : list (string * ChannelResult) :=
  if String.eqb channel "push" then obj_set "push" (sent now "push") results
  else if String.eqb channel "email" then obj_set "email" (sent now "email") results
  else if String.eqb channel "sms" then obj_set "sms" (sent now "sms") results
  else results.

Definition deliver (now : Clock) (chans : list string) : list (string * ChannelResult) :=
  fold_left (deliver_step now) chans [].

(** [for (const channel of notification.channels)] throws a TypeError when
    the notification has no [channels]. *)
Definition deliverToChannels (now : Clock) (notification : Notification)
    : outcome (list (string * ChannelResult)) :=
  match channels notification with
  | Some chans => Returned (deliver now chans)
  | None => Thrown
  end.

(** [obj[key] = (obj[key] || 0) + 1] *)
Definition bump (key : string) (counts : gmap string nat) : gmap string nat :=
  <[key := S (default 0%nat (counts !! key))]> counts.

Definition updateSystemStats (now : Clock) (notification : Notification) (kv : store)
    : store :=
  let stats := get_stats stats_key kv in
  let today := split_head "T" (iso now) in
  kv_set stats_key
    (VStats {| totalSent := S (totalSent stats);
               byType := bump (type notification) (byType stats);
               byDay := bump today (byDay stats) |})
    kv.

Record DeliveryReport := {
  stored : bool;
  delivered : list (string * ChannelResult);
  notificationId : string
}.

(** [unshift] followed by [if (length > 100) splice(100)]. *)
Definition prepend_capped (notification : Notification) (l : list Notification)
    : list Notification :=
  let l1 := notification :: l in
  if (100 <? length l1)%nat then take 100 l1 else l1.

Definition storeAndDeliverNotification (now : Clock) (userId : string)
    (notification : Notification) (kv : store) : store * outcome DeliveryReport :=
  let userNotifications := get_notifications (user_key userId) kv in
  let kv1 :=
    kv_set (user_key userId) (VNotifications (prepend_capped notification userNotifications))
           kv in
  match deliverToChannels now notification with
  | Thrown => (kv1, Thrown)
  | Returned deliveryResults =>
      (updateSystemStats now notification kv1,
       Returned {| stored := true; delivered := deliveryResults;
                   notificationId := id notification |})
  end.

(** Storing a sequence of notifications for one user, one call after the
    other, each at its own time. *)
Definition store_all (items : list (Clock * Notification)) (userId : string) (kv : store)
    : store :=
  fold_left (λ kv item, fst (storeAndDeliverNotification (fst item) userId (snd item) kv))
            items kv.

(** The subscribers among [candidates]: active, and subscribed to the type. *)
Definition subscribed_users (notificationType : string) (candidates : list string)
    (kv : store) : list string :=
  List.filter
    (λ userId,
       match get_subscription (subscription_key userId) kv with
       | Some s => isActive s && includes notificationType (notificationTypes s)
       | None => false
       end)
    candidates.

Definition getUsersForFarm (farmId notificationType : string) (kv : store) : list string :=
  subscribed_users notificationType (get_users (farm_users_key farmId) kv) kv.

Definition getUsersForCrop (crop notificationType : string) (kv : store) : list string :=
  subscribed_users notificationType (get_users (crop_users_key crop) kv) kv.

(** The loop shared by the alert senders: [body] is run for every user in
    turn on the current store; it pushes a result, skips the user, or throws,
    which ends the whole call. *)
Fixpoint for_users (body : string → store → store * outcome (option DeliveryReport))
    (users : list string) (kv : store) (results : list (string * DeliveryReport))
    : store * outcome (list (string * DeliveryReport)) :=
  match users with
  | [] => (kv, Returned results)
  | userId :: rest =>
      match body userId kv with
      | (kv1, Thrown) => (kv1, Thrown)
      | (kv1, Returned None) => for_users body rest kv1 results
      | (kv1, Returned (Some r)) => for_users body rest kv1 (results ++ [(userId, r)])
      end
  end.

(** [await this.storeAndDeliverNotification(...)] followed by [results.push]. *)
Definition store_and_push (now : Clock) (userId : string) (notification : Notification)
    (kv : store) : store * outcome (option DeliveryReport) :=
  match storeAndDeliverNotification now userId notification kv with
  | (kv1, Returned r) => (kv1, Returned (Some r))
  | (kv1, Thrown) => (kv1, Thrown)
  end.

Section Senders.
(** [show] renders a number inside a template literal. *)
Variable show : Q → string.

Definition price_notification (now : Clock) (crop : string) (priceData : PriceData)
    (userId : string) (subscription : Subscription) : Notification :=
  {| id := "price_" +:+ epoch_ms now +:+ "_" +:+ userId;
     userId := userId;
     farmId := None;
     type := "price_alerts";
     title := "Price Alert: " +:+ crop;
     message :=
       crop +:+ " price "
       +:+ (if Qltb 0 (changePercent priceData) then "increased" else "decreased")
       +:+ " by " +:+ show (Qabs (changePercent priceData)) +:+ "% to "
       +:+ show (currentPrice priceData);
     data := PricePayload crop priceData;
     priority := if Qltb 10 (Qabs (changePercent priceData)) then "high" else "normal";
     channels := Some (sub_channels subscription);
     timestamp := iso now;
     status := "pending";
     read := false;
     deliveredAt := None;
     readAt := None |}.

(** The body of the loop of [sendPriceAlert]. *)
Definition price_body (now : Clock) (crop : string) (priceData : PriceData)
    (userId : string) (kv : store) : store * outcome (option DeliveryReport) :=
  let subscription := get_subscription (subscription_key userId) kv in
  let threshold := or_number (subscription ≫= (λ s, priceChangeThreshold (preferences s))) 5 in
  if Qle_bool threshold (Qabs (changePercent priceData)) then
    match subscription with
    | Some sub =>
        store_and_push now userId (price_notification now crop priceData userId sub) kv
    | None => (kv, Thrown)
    end
  else (kv, Returned None).

Definition sendPriceAlert (now : Clock) (crop : string) (priceData : PriceData) (kv : store)
    : store * outcome (list (string * DeliveryReport)) :=
  let interestedUsers := getUsersForCrop crop "price_alerts" kv in
  for_users (price_body now crop priceData) interestedUsers kv [].

Definition weather_notification (now : Clock) (farm : string) (weatherAlert : WeatherAlert)
    (userId : string) : Notification :=
  {| id := "weather_" +:+ epoch_ms now +:+ "_" +:+ userId;
     userId := userId;
     farmId := Some farm;
     type := "weather_warnings";
     title := "Weather Alert: " +:+ wa_type weatherAlert;
     message := wa_message weatherAlert;
     data := WeatherPayload weatherAlert;
     priority := if String.eqb (wa_severity weatherAlert) "severe" then "high" else "normal";
     channels := Some ["push"; "sms"];
     timestamp := iso now;
     status := "pending";
     read := false;
     deliveredAt := None;
     readAt := None |}.

Definition sendWeatherAlert (now : Clock) (farm : string) (weatherAlert : WeatherAlert)
    (kv : store) : store * outcome (list (string * DeliveryReport)) :=
  let subscribedUsers := getUsersForFarm farm "weather_warnings" kv in
  for_users (λ userId, store_and_push now userId
                         (weather_notification now farm weatherAlert userId))
            subscribedUsers kv [].

Definition sensor_notification (now : Clock) (farm : string) (sensorAlert : SensorAlert)
    (userId : string) : Notification :=
  {| id := "sensor_" +:+ epoch_ms now +:+ "_" +:+ userId;
     userId := userId;
     farmId := Some farm;
     type := "sensor_alerts";
     title := "Sensor Alert: " +:+ sa_sensorType sensorAlert;
     message := sa_message sensorAlert;
     data := SensorPayload sensorAlert;
     priority := if String.eqb (sa_severity sensorAlert) "critical" then "high" else "normal";
     channels := Some ["push"];
     timestamp := iso now;
     status := "pending";
     read := false;
     deliveredAt := None;
     readAt := None |}.

Definition sendSensorAlert (now : Clock) (farm : string) (sensorAlert : SensorAlert)
    (kv : store) : store * outcome (list (string * DeliveryReport)) :=
  let subscribedUsers := getUsersForFarm farm "sensor_alerts" kv in
  for_users (λ userId, store_and_push now userId
                         (sensor_notification now farm sensorAlert userId))
            subscribedUsers kv [].

Definition crop_notification (now : Clock) (userId : string) (recommendations : list string)
    (subscription : Subscription) : Notification :=
  {| id := "crop_rec_" +:+ epoch_ms now;
     userId := userId;
     farmId := None;
     type := "crop_recommendations";
     title := "New Crop Recommendations Available";
     message :=
       "We have " +:+ show (inject_Z (Z.of_nat (length recommendations)))
       +:+ " new crop recommendations based on your farm data";
     data := CropPayload (take 3 recommendations) (length recommendations);
     priority := "normal";
     channels := Some (sub_channels subscription);
     timestamp := iso now;
     status := "pending";
     read := false;
     deliveredAt := None;
     readAt := None |}.

Record SendResult := { send_status : string; send_notificationId : option string }.

(** Next to the object the source returns, the result carries the report of
    the inner [storeAndDeliverNotification] call, which the source awaits and
    drops. *)
Definition sendCropRecommendations (now : Clock) (userId : string)
    (recommendations : list string) (kv : store)
    : store * outcome (SendResult * option DeliveryReport) :=
  match get_subscription (subscription_key userId) kv with
  | Some subscription =>
      if isActive subscription
         && includes "crop_recommendations" (notificationTypes subscription)
      then
        let notification := crop_notification now userId recommendations subscription in
        match storeAndDeliverNotification now userId notification kv with
        | (kv1, Returned r) =>
            (kv1, Returned ({| send_status := "sent";
                               send_notificationId := Some (id notification) |}, Some r))
        | (kv1, Thrown) => (kv1, Thrown)
        end
      else (kv, Returned ({| send_status := "not_subscribed";
                             send_notificationId := None |}, None))
  | None => (kv, Returned ({| send_status := "not_subscribed";
                              send_notificationId := None |}, None))
  end.

End Senders.

(** The object found by [notifications.find(n => n.id === notificationId)]
    is updated in place. *)
Definition set_read (now : Clock) (notification : Notification) : Notification :=
  {| id := id notification;
     userId := userId notification;
     farmId := farmId notification;
     type := type notification;
     title := title notification;
     message := message notification;
     data := data notification;
     priority := priority notification;
     channels := channels notification;
     timestamp := timestamp notification;
     status := status notification;
     read := true;
     deliveredAt := deliveredAt notification;
     readAt := Some (iso now) |}.

Record MarkResult := { mark_status : string; mark_notificationId : option string }.

Definition markAsRead (now : Clock) (user notificationId : string) (kv : store)
    : store * MarkResult :=
  let notifications := get_notifications (user_key user) kv in
  match list_find (λ n, id n = notificationId) notifications with
  | Some (i, notification) =>
      (kv_set (user_key user)
              (VNotifications (<[i := set_read now notification]> notifications)) kv,
       {| mark_status := "marked_as_read"; mark_notificationId := Some notificationId |})
  | None =>
      (kv, {| mark_status := "notification_not_found"; mark_notificationId := None |})
  end.

Definition shouldSendScheduledNotification (now : Clock) (subscription : Subscription)
    (type : string) : bool :=
  let currentHour := Some (hours now) in
  let quietStart :=
    parseInt (split_head ":" (qh_start (quietHours (preferences subscription)))) in
  let quietEnd :=
    parseInt (split_head ":" (qh_end (quietHours (preferences subscription)))) in
  if nan_geb currentHour quietStart || nan_leb currentHour quietEnd then false
  else
    let frequency := frequency (preferences subscription) in
    if String.eqb frequency "never" then false
    else if String.eqb frequency "weekly" && negb (weekday now =? 1)%Z then false
    else true.

(** The quiet-hours window in the words of the specification: the hours of
    [quietStart, quietEnd), taken on one day when [quietStart <= quietEnd] and
    wrapping past midnight otherwise. *)
Definition in_quiet_window_spec (quietStart quietEnd hour : Z) : bool :=
  if (quietStart <=? quietEnd)%Z
  then (quietStart <=? hour)%Z && (hour <? quietEnd)%Z
  else (quietStart <=? hour)%Z || (hour <? quietEnd)%Z.

(** Suppression in the words of the specification, for quiet hours given as
    whole hours and Monday as the fixed weekday. *)
Definition suppressed_spec (quietStart quietEnd : Z) (now : Clock) (frequency : string)
    : bool :=
  in_quiet_window_spec quietStart quietEnd (hours now)
  || String.eqb frequency "never"
  || (String.eqb frequency "weekly" && negb (weekday now =? 1)%Z).

Record Content := {
  content_title : string;
  content_message : string;
  content_data : list (string * Field)
}.

Definition generateScheduledContent (type : string) : Content :=
  let contentGenerators :=
    [ ("weather_updates",
       {| content_title := "Daily Weather Update";
          content_message := "Check today's weather forecast and agricultural advice";
          content_data := [("weatherSummary", Text "Partly cloudy, good for field work")] |});
      ("market_updates",
       {| content_title := "Market Price Update";
          content_message := "Latest crop prices and market trends available";
          content_data := [("marketSummary", Text "Tomato prices trending upward")] |});
      ("crop_reminders",
       {| content_title := "Crop Care Reminder";
          content_message := "Time for scheduled farm activities";
          content_data := [("activities", Items ["Irrigation check"; "Pest monitoring"])] |}) ]
  in
  default {| content_title := "Farm Update";
             content_message := "New update available";
             content_data := [] |}
          (assoc type contentGenerators).

Definition scheduled_notification (now : Clock) (type userId : string) (content : Content)
    (subscription : Subscription) : Notification :=
  {| id := "scheduled_" +:+ type +:+ "_" +:+ epoch_ms now +:+ "_" +:+ userId;
     userId := userId;
     farmId := None;
     type := type;
     title := content_title content;
     message := content_message content;
     data := ScheduledPayload (content_data content);
     priority := "normal";
     channels := Some (sub_channels subscription);
     timestamp := iso now;
     status := "pending";
     read := false;
     deliveredAt := None;
     readAt := None |}.

Definition processScheduledNotificationType (now : Clock) (type : string) (kv : store)
    : store * outcome (list (string * DeliveryReport)) :=
  let content := generateScheduledContent type in
  let subscribers := get_users (queue_key type) kv in
  for_users
    (λ userId kv,
       match get_subscription (subscription_key userId) kv with
       | Some subscription =>
           if isActive subscription && shouldSendScheduledNotification now subscription type
           then store_and_push now userId
                  (scheduled_notification now type userId content subscription) kv
           else (kv, Returned None)
       | None => (kv, Returned None)
       end)
    subscribers kv [].

(** A pushed result whose channels were those of the user's subscription. *)
Definition by_subscription (now : Clock) (kv : store) (entry : string * DeliveryReport)
    : Prop :=
  ∃ sub, get_subscription (subscription_key (fst entry)) kv = Some sub
         ∧ delivered (snd entry) = deliver now (sub_channels sub).

(** What a loop body has to respect for its results to follow the
    subscriptions: it leaves them alone, and what it pushes was delivered to
    the subscription's channels. *)
Definition follows_subscriptions (now : Clock)
    (body : string → store → store * outcome (option DeliveryReport)) : Prop :=
  ∀ user kv,
    (∀ v, get_subscription (subscription_key v) (fst (body user kv))
          = get_subscription (subscription_key v) kv)
    ∧ (∀ r, snd (body user kv) = Returned (Some r) → by_subscription now kv (user, r)).

(** Sample values used to run the service on concrete inputs. *)
Definition sample_clock : Clock :=
  {| iso := "2024-03-05T10:15:00.000Z"; epoch_ms := "1709633700000";
     hours := 10; weekday := 2 |}.

Definition sample_notification (i : nat) : Notification :=
  {| id := "sensor_" +:+ pretty i +:+ "_u1";
     userId := "u1";
     farmId := Some "farm1";
     type := "sensor_alerts";
     title := "Sensor Alert: soil_moisture";
     message := "soil_moisture critically low";
     data := NoPayload;
     priority := "high";
     channels := Some ["push"];
     timestamp := "2024-03-05T10:15:00.000Z";
     status := "pending";
     read := false;
     deliveredAt := None;
     readAt := None |}.

(** A subscription as [subscribe] stores it when only the ids are given:
    push channel, immediate delivery, quiet hours 22:00 to 06:00. *)
Definition sample_subscription : Subscription :=
  subscriptionData sample_clock
    {| req_userId := "u1"; req_farmId := "farm1"; req_notificationTypes := None;
       req_channels := None; req_preferences := None |}.

(** A store in which user u1 belongs to farm1 and grows tomatoes. *)
Definition sample_store : store :=
  <[ farm_users_key "farm1" := VUsers ["u1"] ]>
    {[ crop_users_key "tomatoes" := VUsers ["u1"] ]}.

(** Two requests of user u1: first for push, then for email. *)
Definition sample_first_request : SubscribeRequest :=
  {| req_userId := "u1"; req_farmId := "farm1"; req_notificationTypes := None;
     req_channels := Some ["push"]; req_preferences := None |}.

Definition sample_second_request : SubscribeRequest :=
  {| req_userId := "u1"; req_farmId := "farm1"; req_notificationTypes := None;
     req_channels := Some ["email"]; req_preferences := None |}.

Definition sample_resubscribed : store :=
  fst (subscribe sample_clock sample_second_request
         (fst (subscribe sample_clock sample_first_request sample_store))).

Definition sample_price : PriceData :=
  {| changePercent := 12; currentPrice := 56; previousPrice := 50; trend := "bullish" |}.

Definition sample_weather : WeatherAlert :=
  {| wa_type := "heavy_rain"; wa_message := "Heavy rain expected tomorrow";
     wa_severity := "severe"; wa_actionRequired := "Postpone spraying";
     wa_validUntil := "2024-03-06T18:00:00.000Z" |}.

Definition sample_items : list (Clock * Notification) :=
  map (λ i, (sample_clock, sample_notification i)) (seq 0 105).

(** Two subscribers of the weather updates: u1 has set the frequency to
    'never', u2 keeps the default preferences. *)
Definition sample_switched_off_request : SubscribeRequest :=
  {| req_userId := "u1"; req_farmId := "farm1";
     req_notificationTypes := Some ["weather_updates"]; req_channels := None;
     req_preferences :=
       Some {| raw_frequency := Some "never"; raw_quietHours := None;
               raw_language := None; raw_timezone := None |} |}.

Definition sample_default_request : SubscribeRequest :=
  {| req_userId := "u2"; req_farmId := "farm1";
     req_notificationTypes := Some ["weather_updates"]; req_channels := None;
     req_preferences := None |}.

Definition sample_scheduled_store : store :=
  fst (subscribe sample_clock sample_default_request
         (fst (subscribe sample_clock sample_switched_off_request ∅))).

End Notify.

(** ** Numbers with the IEEE special values *)

Module Num.
Local Open Scope R_scope.

(** A double read as the real it stands for, or one of the special values.
    Signed zeros are not told apart: every zero behaves as [+0]. *)
Inductive jsnum :=
| Fin (r : R)
| PInf
| NInf
| NaN.

(** The infinity whose sign is the sign of [r]; NaN for zero
    (the product of an infinity and zero). *)
Definition inf_of_sign (r : R) : jsnum :=
  if Rlt_dec 0 r then PInf else if Rlt_dec r 0 then NInf else NaN.

Definition jmul (x y : jsnum) : jsnum :=
  match x, y with
  | NaN, _ | _, NaN => NaN
  | Fin a, Fin b => Fin (a * b)
  | PInf, Fin r | Fin r, PInf => inf_of_sign r
  | NInf, Fin r | Fin r, NInf => inf_of_sign (- r)
  | PInf, PInf | NInf, NInf => PInf
  | PInf, NInf | NInf, PInf => NInf
  end.

Definition jdiv (x y : jsnum) : jsnum :=
  match x, y with
  | NaN, _ | _, NaN => NaN
  | Fin a, Fin b => if Req_dec_T b 0 then inf_of_sign a else Fin (a / b)
  | Fin _, PInf | Fin _, NInf => Fin 0
  | PInf, Fin b => if Rlt_dec b 0 then NInf else PInf
  | NInf, Fin b => if Rlt_dec b 0 then PInf else NInf
  | _, _ => NaN
  end.

(** [Math.sqrt] *)
Definition jsqrt (x : jsnum) : jsnum :=
  match x with
  | Fin r => if Rlt_dec r 0 then NaN else Fin (sqrt r)
  | PInf => PInf
  | NInf | NaN => NaN
  end.

(** [Math.round]: [floor (x + 1/2)]. *)
Definition jround (x : jsnum) : jsnum :=
  match x with
  | Fin r => Fin (IZR (Int_part (r + / 2)))
  | other => other
  end.

(** [x < y]: false as soon as one side is NaN. *)
Definition jltb (x y : jsnum) : bool :=
  match x, y with
  | NaN, _ | _, NaN => false
  | Fin a, Fin b => if Rlt_dec a b then true else false
  | NInf, NInf | PInf, _ => false
  | NInf, _ => true
  | Fin _, PInf => true
  | Fin _, NInf => false
  end.

Definition jgtb (x y : jsnum) : bool := jltb y x.

End Num.

(** ** Doubles with the IEEE special values *)

Module F64.
Import JS.
Local Open Scope Q_scope.

(** A finite double as the rational it is, or one of the special values.
    Signed zeros are not told apart.  The finite result of an operation is
    rounded by [Double.double]; [ln] in [log] is [Math.log] on the positive
    finite doubles, which the language leaves to the implementation. *)
Inductive num :=
| Fin (q : Q)
| PInf
| NInf
| NaN.

Definition neg (x : num) : num :=
  match x with
  | Fin q => Fin (- q)
  | PInf => NInf
  | NInf => PInf
  | NaN => NaN
  end.

Definition add (x y : num) : num :=
  match x, y with
  | NaN, _ | _, NaN => NaN
  | Fin a, Fin b => Fin (Double.add a b)
  | PInf, NInf | NInf, PInf => NaN
  | PInf, _ | _, PInf => PInf
  | NInf, _ | _, NInf => NInf
  end.

Definition sub (x y : num) : num := add x (neg y).

(** The infinity whose sign is the sign of [q]; NaN for zero. *)
Definition inf_of_sign (q : Q) : num :=
  if Qltb 0 q then PInf else if Qltb q 0 then NInf else NaN.

Definition mul (x y : num) : num :=
  match x, y with
  | NaN, _ | _, NaN => NaN
  | Fin a, Fin b => Fin (Double.mul a b)
  | PInf, Fin q | Fin q, PInf => inf_of_sign q
  | NInf, Fin q | Fin q, NInf => inf_of_sign (- q)
  | PInf, PInf | NInf, NInf => PInf
  | PInf, NInf | NInf, PInf => NInf
  end.

Definition div (x y : num) : num :=
  match x, y with
  | NaN, _ | _, NaN => NaN
  | Fin a, Fin b => if Qeq_bool b 0 then inf_of_sign a else Fin (Double.div a b)
  | Fin _, PInf | Fin _, NInf => Fin 0
  | PInf, Fin b => if Qltb b 0 then NInf else PInf
  | NInf, Fin b => if Qltb b 0 then PInf else NInf
  | _, _ => NaN
  end.

(** [Math.log] *)
Definition log (ln : Q → Q) (x : num) : num :=
  match x with
  | Fin q => if Qltb 0 q then Fin (ln q) else if Qltb q 0 then NaN else NInf
  | PInf => PInf
  | NInf | NaN => NaN
  end.

(** [x <= y] as a proposition: false as soon as one side is NaN. *)
Definition le (x y : num) : Prop :=
  match x, y with
  | NaN, _ | _, NaN => False
  | Fin a, Fin b => a <= b
  | NInf, _ | _, PInf => True
  | PInf, _ | _, NInf => False
  end.
End F64.

(** ** Weather and agronomy indices (class WeatherService) *)

Module Weather.
Import JS Num.

Local Open Scope Q_scope.

(** Dew point by the Magnus formula, in doubles: the two constants are the
    doubles nearest to 17.27 and 237.7, every operation rounds, and [ln] is
    [Math.log] on the positive finite doubles. *)
Definition calculateDewPoint (ln : Q → Q) (temp humidity : Q) : F64.num :=
  let a := F64.Fin (Double.double 17.27) in
  let b := F64.Fin (Double.double 237.7) in
  let alpha :=
    F64.add (F64.div (F64.mul a (F64.Fin temp)) (F64.add b (F64.Fin temp)))
            (F64.log ln (F64.div (F64.Fin humidity) (F64.Fin 100))) in
  F64.div (F64.mul b alpha) (F64.sub a alpha).

(** A stand-in for [Math.log] where a concrete function is needed: the
    rounded [x - 1], which has the sign of the logarithm and its value
    at 1. *)
Definition sample_log (x : Q) : Q := Double.double (x - 1).

(** The regression polynomial of the heat index. *)
Definition heat_polynomial (temp humidity : Q) : Q :=
  let c1 := -8.78469475556 in
  let c2 := 1.61139411 in
  let c3 := 2.33854883889 in
  let c4 := -0.14611605 in
  let c5 := -0.012308094 in
  let c6 := -0.0164248277778 in
  let c7 := 0.002211732 in
  let c8 := 0.00072546 in
  let c9 := -0.000003582 in
  c1 + (c2 * temp) + (c3 * humidity) + (c4 * temp * humidity) +
  (c5 * temp * temp) + (c6 * humidity * humidity) +
  (c7 * temp * temp * humidity) + (c8 * temp * humidity * humidity) +
  (c9 * temp * temp * humidity * humidity).

Definition calculateHeatIndex (temp humidity : Q) : Q :=
  if Qltb temp 27 then temp
  else inject_Z (Math_round (heat_polynomial temp humidity)).

End Weather.

(** ** Market trend analysis *)

Module Market.
Import Num.
Local Open Scope R_scope.

Record PricePoint := {
  date : string;
  price : R;
  volume : R
}.

Record TrendAnalysis := {
  currentPrice : option R;
  previousPrice : option R;
  priceChange : jsnum;
  trend : string;
  volatility : jsnum;
  mean : option jsnum;
  support : option R;
  resistance : option R
}.

Definition insufficient_data : TrendAnalysis :=
  {| currentPrice := None; previousPrice := None; priceChange := Fin 0;
     trend := "insufficient_data"; volatility := Fin 0;
     mean := None; support := None; resistance := None |}.

(** [prices.reduce((sum, price) => sum + f(price), 0)] *)
Definition sum_by (f : R → R) (prices : list R) : R :=
  fold_left (λ sum p, sum + f p) prices 0.

(** [((currentPrice - previousPrice) / previousPrice) * 100] *)
Definition percent_change (currentPrice previousPrice : R) : jsnum :=
  jmul (jdiv (Fin (currentPrice - previousPrice)) (Fin previousPrice)) (Fin 100).

(** [Math.round(x * 10) / 10] *)
Definition round1 (x : jsnum) : jsnum := jdiv (jround (jmul x (Fin 10))) (Fin 10).

(** [prices.reduce(...) / prices.length] *)
Definition mean_of (prices : list R) : R :=
  sum_by (λ p, p) prices / INR (length prices).

(** The mean of [Math.pow(price - mean, 2)]. *)
Definition variance_of (prices : list R) : R :=
  sum_by (λ p, (p - mean_of prices) ^ 2) prices / INR (length prices).

(** [Math.sqrt(variance) / mean * 100], the coefficient of variation. *)
Definition volatility_of (prices : list R) : jsnum :=
  jmul (jdiv (jsqrt (Fin (variance_of prices))) (Fin (mean_of prices))) (Fin 100).

(** The market service with the volatility analysis (the 918-line source):
    the coefficient of variation decides between 'volatile' and 'stable'.
    [Math.min(...prices)] and [Math.max(...prices)] are folds that start at the
    last price, an element of the list. *)
Definition analyzePriceTrends (historicalData : list PricePoint) : TrendAnalysis :=
  if (length historicalData <? 2)%nat then insufficient_data
  else
    let prices := map price historicalData in
    let currentPrice := List.last prices 0 in
    let previousPrice := List.hd 0 prices in
    let priceChange := percent_change currentPrice previousPrice in
    let volatility := volatility_of prices in
    let trend :=
      if jgtb priceChange (Fin 5) then "bullish"
      else if jltb priceChange (Fin (-5)) then "bearish"
      else if jgtb volatility (Fin 15) then "volatile"
      else "stable" in
    {| currentPrice := Some currentPrice;
       previousPrice := Some previousPrice;
       priceChange := round1 priceChange;
       trend := trend;
       volatility := round1 volatility;
       mean := Some (jround (Fin (mean_of prices)));
       support := Some (fold_right Rmin currentPrice prices);
       resistance := Some (fold_right Rmax currentPrice prices) |}.

(** The shorter market service (market-service.ts): the reported volatility
    is [Math.round(Math.random() * 20)] and plays no part in the trend;
    [random] is the value drawn. *)
Definition analyzePriceTrends_simple (random : R) (historicalData : list PricePoint)
    : TrendAnalysis :=
  if (length historicalData <? 2)%nat then insufficient_data
  else
    let prices := map price historicalData in
    let currentPrice := List.last prices 0 in
    let previousPrice := List.hd 0 prices in
    let priceChange := percent_change currentPrice previousPrice in
    let trend :=
      if jgtb priceChange (Fin 5) then "bullish"
      else if jltb priceChange (Fin (-5)) then "bearish"
      else "stable" in
    {| currentPrice := Some currentPrice;
       previousPrice := Some previousPrice;
       priceChange := round1 priceChange;
       trend := trend;
       volatility := jround (Fin (random * 20));
       mean := None; support := None; resistance := None |}.

(** A week of tomato prices that ends where it started. *)
Definition sample_week : list PricePoint :=
  [ {| date := "2024-03-01"; price := 45; volume := 48000 |};
    {| date := "2024-03-02"; price := 63; volume := 52000 |};
    {| date := "2024-03-03"; price := 36; volume := 41000 |};
    {| date := "2024-03-04"; price := 45; volume := 50000 |} ].

(** A week of tomato prices that rises by a third. *)
Definition sample_rising : list PricePoint :=
  [ {| date := "2024-03-01"; price := 45; volume := 48000 |};
    {| date := "2024-03-02"; price := 50; volume := 52000 |};
    {| date := "2024-03-03"; price := 60; volume := 41000 |} ].

End Market.


(** ** Notification service: reading, statistics *)

Module Inbox.
Import JS Notify.

(** [notification.status = 'delivered'] with [deliveredAt], for a pending
    notification; any other notification stays as it is. *)
Definition mark_delivered (now : Clock) (notification : Notification) : Notification :=
  if String.eqb (status notification) "pending" then
    {| id := id notification;
       userId := userId notification;
       farmId := farmId notification;
       type := type notification;
       title := title notification;
       message := message notification;
       data := data notification;
       priority := priority notification;
       channels := channels notification;
       timestamp := timestamp notification;
       status := "delivered";
       read := read notification;
       deliveredAt := Some (iso now);
       readAt := readAt notification |}
  else notification.

(** [notifications.filter(n => !n.read).length] *)
Definition unread_count (notifications : list Notification) : nat :=
  length (List.filter (λ n, negb (read n)) notifications).

Record UserNotifications := {
  un_userId : string;
  un_notifications : list Notification;
  un_unreadCount : nat;
  un_lastUpdated : string
}.

Section Sorted.
(** [sort] stands for [notifications.sort(...)] by timestamp, newest first;
    the result of reading the dates is not modelled. *)
Variable sort : list Notification → list Notification.

Definition getUserNotifications (now : Clock) (user : string) (kv : store)
    : store * UserNotifications :=
  let notifications :=
    map (mark_delivered now) (sort (get_notifications (user_key user) kv)) in
  (kv_set (user_key user) (VNotifications notifications) kv,
   {| un_userId := user;
      un_notifications := notifications;
      un_unreadCount := unread_count notifications;
      un_lastUpdated := iso now |}).
End Sorted.

(** [notifications.reduce((acc, n) => { acc[n.type] = (acc[n.type] || 0) + 1 }, {})] *)
Definition groupNotificationsByType (notifications : list Notification) : gmap string nat :=
  fold_left (λ acc notification, bump (type notification) acc) notifications ∅.

Record UserStats := {
  us_userId : string;
  totalNotifications : nat;
  us_unreadCount : nat;
  us_byType : gmap string nat;
  recentActivity : list Notification;
  lastNotification : option string
}.

(** [getNotificationStats(userId?)]: the statistics of one user, or, without a
    user id (missing or empty), the stored system statistics. *)
Definition getNotificationStats (user : option string) (kv : store) : UserStats + Stats :=
  match user with
  | Some u =>
      if String.eqb u "" then inr (get_stats stats_key kv)
      else
        let notifications := get_notifications (user_key u) kv in
        inl {| us_userId := u;
               totalNotifications := length notifications;
               us_unreadCount := unread_count notifications;
               us_byType := groupNotificationsByType notifications;
               recentActivity := take 5 notifications;
               lastNotification := timestamp <$> head notifications |}
  | None => inr (get_stats stats_key kv)
  end.

(** The channels [deliverToChannels] knows, in the words of its [switch]. *)
Definition known_channel (channel : string) : bool :=
  String.eqb channel "push" || String.eqb channel "email" || String.eqb channel "sms".

(** What the loop of [deliverToChannels] keeps true of [results]. *)
Definition delivery_invariant (now : Clock) (seen : list string)
    (results : list (string * ChannelResult)) : Prop :=
  NoDup (map fst results)
  ∧ (∀ c, c ∈ map fst results ↔ c ∈ seen ∧ known_channel c = true)
  ∧ (∀ c r, (c, r) ∈ results → r = sent now c).

(** The notifications of a sequence that have channels. *)
Definition deliverable (items : list (Clock * Notification)) : list (Clock * Notification) :=
  List.filter (λ item, match channels (snd item) with Some _ => true | None => false end)
              items.

End Inbox.

(** ** IoT service: derived metrics, recommendations, storage *)

Module Telemetry.
Import JS IoT.
Local Open Scope Q_scope.

Definition calculateWaterStress (moistureLevel : Q) : string :=
  if Qltb moistureLevel 20 then "severe"
  else if Qltb moistureLevel 30 then "moderate"
  else if Qltb moistureLevel 40 then "mild"
  else "none".

Definition calculateIrrigationNeed (moistureLevel : Q) : string :=
  if Qltb moistureLevel 25 then "immediate"
  else if Qltb moistureLevel 35 then "within_24h"
  else if Qltb moistureLevel 45 then "within_48h"
  else "not_needed".

Definition assessRootZoneCondition (temperature : Q) : string :=
  if Qltb temperature 15 then "cold_stress"
  else if Qltb 30 temperature then "heat_stress"
  else "optimal".

Definition assessNutrientAvailability (ph : Q) : string :=
  if Qltb ph 5.5 || Qltb 8.0 ph then "poor"
  else if Qltb ph 6.0 || Qltb 7.5 ph then "moderate"
  else "good".

Definition calculateHeatStress (temperature : Q) : string :=
  if Qltb 40 temperature then "severe"
  else if Qltb 35 temperature then "moderate"
  else if Qltb 30 temperature then "mild"
  else "none".

Definition assessDiseaseRisk (humidity : Q) : string :=
  if Qltb 85 humidity then "high"
  else if Qltb 75 humidity then "moderate"
  else "low".

Definition calculatePhotosynthesisEfficiency (lightIntensity : Q) : string :=
  if Qltb lightIntensity 20000 then "low"
  else if Qltb 70000 lightIntensity then "excessive"
  else "optimal".

(** The [metrics] object, as its properties in the order they are set. *)
Definition calculateDerivedMetrics (data : SensorData) (sensorType : string)
    : list (string * string) :=
  if String.eqb sensorType "soil_moisture" then
    [ ("waterStress", calculateWaterStress (value data));
      ("irrigationNeed", calculateIrrigationNeed (value data)) ]
  else if String.eqb sensorType "soil_temperature" then
    [ ("rootZoneCondition", assessRootZoneCondition (value data)) ]
  else if String.eqb sensorType "soil_ph" then
    [ ("nutrientAvailability", assessNutrientAvailability (value data)) ]
  else if String.eqb sensorType "air_temperature" then
    [ ("heatStress", calculateHeatStress (value data)) ]
  else if String.eqb sensorType "humidity" then
    [ ("diseaseRisk", assessDiseaseRisk (value data)) ]
  else if String.eqb sensorType "light_intensity" then
    [ ("photosynthesisEfficiency", calculatePhotosynthesisEfficiency (value data)) ]
  else [].

(** [if (alert.action) recommendations.push(alert.action)] over the alerts,
    or, without alerts, the general advice of the [switch]. *)
Definition generateRecommendations (sensorType : string) (data : SensorData)
    (alerts : list Alert) : list string :=
  if (0 <? length alerts)%nat then
    List.filter (λ a, negb (String.eqb a "")) (map action alerts)
  else if String.eqb sensorType "soil_moisture" then
    if Qltb 60 (value data)
    then ["Soil moisture is adequate - maintain current irrigation schedule"]
    else []
  else if String.eqb sensorType "soil_ph" then
    if Qle_bool 6.0 (value data) && Qle_bool (value data) 7.5
    then ["Soil pH is optimal for most crops"]
    else []
  else [].

(** The daily aggregate; [average] and [lastUpdated] are missing from the
    object literal a first reading starts from. *)
Record Aggregate := {
  agg_date : string;
  agg_farmId : string;
  agg_sensorType : string;
  count : nat;
  sum : Q;
  min : Q;
  max : Q;
  values : list (string * Q);
  average : option Q;
  lastUpdated : option string
}.

(** Modelled from the spec: the key-value store (kv_store.ts is not among the
    sources), a mapping from string key to JSON value with get and set.  The
    JSON values are the two shapes this service writes; the time-to-live
    passed to [set] is not modelled, no key expires. *)
Inductive stored :=
| Reading (d : SensorData)
| Daily (a : Aggregate).

Abbreviation iot_store := (gmap string stored).

Definition data_key (farm sensor time : string) : string :=
  "iot:" +:+ farm +:+ ":" +:+ sensor +:+ ":" +:+ time.
Definition latest_key (farm sensorType : string) : string :=
  "iot:latest:" +:+ farm +:+ ":" +:+ sensorType.
Definition daily_key (farm sensorType today : string) : string :=
  "iot:daily:" +:+ farm +:+ ":" +:+ sensorType +:+ ":" +:+ today.

(** The object literal a day's first reading starts from. *)
Definition fresh_aggregate (today farm sensorType : string) (data : SensorData)
    : Aggregate :=
  {| agg_date := today; agg_farmId := farm; agg_sensorType := sensorType;
     count := 0; sum := 0; min := value data; max := value data; values := [];
     average := None; lastUpdated := None |}.

(** The seven assignments of [updateDailyAggregates]; the sum and the
    quotient are rounded as doubles, the counter is an exact integer. *)
Definition accumulate (now : string) (data : SensorData) (aggregate : Aggregate)
    : Aggregate :=
  let count' := S (count aggregate) in
  let sum' := Double.add (sum aggregate) (value data) in
  {| agg_date := agg_date aggregate;
     agg_farmId := agg_farmId aggregate;
     agg_sensorType := agg_sensorType aggregate;
     count := count';
     sum := sum';
     min := Qmin (min aggregate) (value data);
     max := Qmax (max aggregate) (value data);
     values := values aggregate ++ [(timestamp data, value data)];
     average := Some (Double.div sum' (inject_Z (Z.of_nat count')));
     lastUpdated := Some now |}.

(** When the key holds a reading instead of an aggregate, the object has no
    [values] array and [aggregate.values.push] throws before anything is
    stored. *)
Definition updateDailyAggregates (now : string) (farm sensorType : string)
    (data : SensorData) (kv : iot_store) : iot_store * outcome Datatypes.unit :=
  let today := split_head "T" now in
  let aggregateKey := daily_key farm sensorType today in
  match kv !! aggregateKey with
  | Some (Reading _) => (kv, Thrown)
  | Some (Daily aggregate) =>
      (<[aggregateKey := Daily (accumulate now data aggregate)]> kv, Returned tt)
  | None =>
      (<[aggregateKey :=
           Daily (accumulate now data (fresh_aggregate today farm sensorType data))]> kv,
       Returned tt)
  end.

Record Processed := {
  pr_status : string;
  pr_dataKey : string;
  pr_alerts : list Alert;
  pr_metrics : list (string * string);
  pr_recommendations : list string
}.

Section Ingest.
(** [show] renders a number inside a template literal. *)
Variable show : Q → string.

Definition processSensorData (now : string) (sensorData : RawSensorData) (kv : iot_store)
    : iot_store * outcome Processed :=
  let farm := raw_farmId sensorData in
  let sensorType := raw_sensorType sensorData in
  let normalizedData := normalizeSensorData now sensorData in
  let dataKey := data_key farm (raw_sensorId sensorData) (raw_timestamp sensorData) in
  let kv1 := <[dataKey := Reading normalizedData]> kv in
  let kv2 := <[latest_key farm sensorType := Reading normalizedData]> kv1 in
  let alerts := analyzeForAlerts show now farm sensorType normalizedData in
  let metrics := calculateDerivedMetrics normalizedData sensorType in
  match updateDailyAggregates now farm sensorType normalizedData kv2 with
  | (kv3, Thrown) => (kv3, Thrown)
  | (kv3, Returned _) =>
      (kv3,
       Returned {| pr_status := "processed";
                   pr_dataKey := dataKey;
                   pr_alerts := alerts;
                   pr_metrics := metrics;
                   pr_recommendations :=
                     generateRecommendations sensorType normalizedData alerts |})
  end.
End Ingest.

Definition sensorTypes : list string :=
  [ "soil_moisture"; "soil_temperature"; "soil_ph"; "air_temperature"; "humidity";
    "light_intensity" ].

(** An aggregate has no [value] field: the health score and the insights
    pass over it as they pass over [null]. *)
Definition as_reading (s : stored) : option SensorData :=
  match s with
  | Reading d => Some d
  | Daily _ => None
  end.

(** [sensorData.<type> && sensorData.<type>.value <cmp> ...] *)
Definition reading_test (latestData : list (string * stored)) (sensorType : string)
    (test : Q → bool) : bool :=
  match assoc sensorType latestData ≫= as_reading with
  | Some d => test (value d)
  | None => false
  end.

Definition generateFarmInsights (latestData : list (string * stored)) : list string :=
  let insights :=
    (if reading_test latestData "soil_moisture" (λ v, Qltb v 30)
     then ["Soil moisture is low - consider irrigation within 24 hours"] else [])
    ++ (if reading_test latestData "soil_ph" (λ v, Qltb v 6.0 || Qltb 7.5 v)
        then ["Soil pH is outside optimal range - consider soil amendment"] else [])
    ++ (if reading_test latestData "air_temperature" (λ v, Qltb 35 v)
        then ["High air temperature detected - provide shade and increase ventilation"]
        else [])
    ++ (if reading_test latestData "humidity" (λ v, Qltb 80 v)
        then ["High humidity increases disease risk - improve air circulation"]
        else []) in
  if (length insights =? 0)%nat
  then ["All sensor readings are within optimal ranges"]
  else insights.

(** [new Date(timestamp)] at the time of the call: the hours that have
    passed since and the ISO rendering of the date. *)
Record DateRead := { hoursAgo : Q; isoString : string }.

Record SensorStatus := {
  ss_status : string;
  lastSeen : option string;
  ss_batteryLevel : option Q
}.

Record LatestSensorData := {
  ls_farmId : string;
  sensors : list (string * stored);
  healthScore : Z;
  insights : list string;
  ls_lastUpdated : string;
  sensorStatus : list (string * SensorStatus)
}.

Section Status.
(** [read_date timestamp] is [None] when [new Date(timestamp)] is an invalid
    date. *)
Variable read_date : string → option DateRead.

(** The date read off an entry of the latest data; an aggregate has no
    [timestamp] field and [new Date(undefined)] is invalid. *)
Definition last_update (s : stored) : option DateRead :=
  match s with
  | Reading d => read_date (timestamp d)
  | Daily _ => None
  end.

(** The status of one sensor type.  On an invalid date the comparisons with
    NaN fail and [lastUpdate.toISOString()] throws a RangeError. *)
Definition sensor_status (entry : option stored) : outcome SensorStatus :=
  match entry with
  | Some s =>
      match last_update s with
      | Some date =>
          Returned {| ss_status :=
                        if Qltb (hoursAgo date) 2 then "online"
                        else if Qltb (hoursAgo date) 24 then "delayed"
                        else "offline";
                      lastSeen := Some (isoString date);
                      ss_batteryLevel := as_reading s ≫= batteryLevel |}
      | None => Thrown
      end
  | None =>
      Returned {| ss_status := "no_data"; lastSeen := None; ss_batteryLevel := None |}
  end.

(** The [forEach] of [checkSensorStatus] over the sensor types still to do. *)
Fixpoint status_loop (latestData : list (string * stored)) (types : list string)
    (status : list (string * SensorStatus)) : outcome (list (string * SensorStatus)) :=
  match types with
  | [] => Returned status
  | type :: rest =>
      match sensor_status (assoc type latestData) with
      | Returned st => status_loop latestData rest (obj_set type st status)
      | Thrown => Thrown
      end
  end.

Definition checkSensorStatus (latestData : list (string * stored))
    : outcome (list (string * SensorStatus)) :=
  status_loop latestData sensorTypes [].

Definition getLatestSensorData (now : string) (farm : string) (kv : iot_store)
    : outcome LatestSensorData :=
  let latestData :=
    omap (λ sensorType, pair sensorType <$> kv !! latest_key farm sensorType) sensorTypes in
  let healthScore :=
    calculateFarmHealthScore (map (λ entry, (fst entry, as_reading (snd entry))) latestData) in
  let insights := generateFarmInsights latestData in
  match checkSensorStatus latestData with
  | Returned status =>
      Returned {| ls_farmId := farm;
                  sensors := latestData;
                  healthScore := healthScore;
                  insights := insights;
                  ls_lastUpdated := now;
                  sensorStatus := status |}
  | Thrown => Thrown
  end.

End Status.

(** The sum as the updates build it: the samples added one by one, each
    addition rounded. *)
Definition running_sum (samples : list (string * Q)) : Q :=
  fold_left (λ total sample, Double.add total (snd sample)) samples 0.

(** What [updateDailyAggregates] keeps true of a stored aggregate. *)
Definition aggregate_ok (a : Aggregate) : Prop :=
  (1 ≤ count a)%nat
  ∧ count a = length (values a)
  ∧ sum a == running_sum (values a)
  ∧ Forall (λ sample, min a <= snd sample ∧ snd sample <= max a) (values a)
  ∧ Exists (λ sample, snd sample == min a) (values a)
  ∧ Exists (λ sample, snd sample == max a) (values a)
  ∧ ∃ avg, average a = Some avg
           ∧ avg == Double.div (sum a) (inject_Z (Z.of_nat (count a))).

(** A soil pH reading of [v], for running the aggregate on concrete values. *)
Definition sample_ph (v : Q) : SensorData :=
  {| farmId := "farm1"; sensorId := "sensor_soil_ph_001"; sensorType := "soil_ph";
     location := "field_a"; timestamp := "2024-03-05T10:00:00.000Z"; value := v;
     unit := "pH"; quality := "good"; batteryLevel := None;
     processed := "2024-03-05T10:00:01.000Z" |}.

End Telemetry.

(** ** Agricultural indices over a forecast (class WeatherService) *)

Module Agronomy.
Import JS.
Local Open Scope Q_scope.

(** One day of the forecast list. *)
Record ForecastDay := {
  fd_date : string;
  tempMin : Q;
  tempMax : Q;
  avgHumidity : Q;
  avgWindSpeed : Q;
  precipitation : Q;
  description : string;
  icon : string
}.

(** [forecasts.reduce((sum, day) => sum + f(day), 0)] *)
Definition sum_over (f : ForecastDay → Q) (forecasts : list ForecastDay) : Q :=
  fold_left (λ sum day, sum + f day) forecasts 0.

(** [forecasts.length] as a number. *)
Definition size (forecasts : list ForecastDay) : Q :=
  inject_Z (Z.of_nat (length forecasts)).

(** [sum / forecasts.length]: 0 / 0 is NaN on an empty forecast, [None]. *)
Definition mean_over (f : ForecastDay → Q) (forecasts : list ForecastDay) : option Q :=
  match forecasts with
  | [] => None
  | _ => Some (sum_over f forecasts / size forecasts)
  end.

(** [x > c] and [x < c] where [x] may be NaN. *)
Definition above (x : option Q) (c : Q) : bool :=
  match x with Some q => Qltb c q | None => false end.
Definition below (x : option Q) (c : Q) : bool :=
  match x with Some q => Qltb q c | None => false end.

Definition day_mean (day : ForecastDay) : Q := (tempMax day + tempMin day) / 2.

(** [forecasts.filter(test).length] as a number. *)
Definition days_where (test : ForecastDay → bool) (forecasts : list ForecastDay) : Q :=
  inject_Z (Z.of_nat (length (List.filter test forecasts))).

(** [baseTemp] defaults to 10 when the argument is left out. *)
Definition calculateGDD (forecasts : list ForecastDay) (baseTemp : option Q) : Q :=
  let base := default 10 baseTemp in
  fold_left (λ gdd day, gdd + Qmax 0 (day_mean day - base)) forecasts 0.

Definition calculateChillHours (forecasts : list ForecastDay) : Z :=
  fold_left (λ hours day,
               if Qle_bool 0 (tempMin day) && Qle_bool (tempMin day) 7
               then (hours + 8)%Z else hours)
            forecasts 0%Z.

(** [current.evapotranspiration || 3] *)
Definition calculateWaterRequirement (evapotranspiration : option Q)
    (forecasts : list ForecastDay) : Q :=
  let et0 := or_number evapotranspiration 3 in
  let rainfall := sum_over precipitation forecasts in
  let grossWaterNeed := et0 * size forecasts * 1.2 in
  Qmax 0 (grossWaterNeed - rainfall).

Definition assessPestRisk (forecasts : list ForecastDay) : string :=
  let avgTemp := mean_over day_mean forecasts in
  let avgHumidity := mean_over avgHumidity forecasts in
  if above avgTemp 25 && below avgTemp 35 && above avgHumidity 60 then "High"
  else if above avgTemp 20 && above avgHumidity 50 then "Medium"
  else "Low".

Definition assessDiseaseRisk (forecasts : list ForecastDay) : string :=
  let avgHumidity := mean_over avgHumidity forecasts in
  let wetDays := days_where (λ day, Qltb 1 (precipitation day)) forecasts in
  if above avgHumidity 80 || Qltb (size forecasts / 2) wetDays then "High"
  else if above avgHumidity 65 || Qltb (size forecasts / 4) wetDays then "Medium"
  else "Low".

Definition determineOptimalPlanting (forecasts : list ForecastDay) : string :=
  let suitableDays :=
    days_where (λ day, Qltb 5 (tempMin day) && Qltb (tempMax day) 40
                       && Qltb (precipitation day) 10) forecasts in
  if Qltb (size forecasts * 0.8) suitableDays then "Excellent"
  else if Qltb (size forecasts * 0.6) suitableDays then "Good"
  else if Qltb (size forecasts * 0.4) suitableDays then "Fair"
  else "Poor".

Definition assessHarvestConditions (forecasts : list ForecastDay) : string :=
  let dryDays := days_where (λ day, Qltb (precipitation day) 1) forecasts in
  let avgHumidity := mean_over avgHumidity forecasts in
  if Qltb (size forecasts * 0.8) dryDays && below avgHumidity 70 then "Excellent"
  else if Qltb (size forecasts * 0.6) dryDays then "Good"
  else "Poor".

Definition generateAgriculturalAdvice (forecasts : list ForecastDay) : list string :=
  let totalRain := sum_over precipitation forecasts in
  let avgTemp := mean_over day_mean forecasts in
  let avgHumidity := mean_over avgHumidity forecasts in
  (if Qltb totalRain 5
   then ["Consider irrigation planning as low rainfall is expected"]
   else if Qltb 50 totalRain
   then ["Ensure proper drainage systems are in place due to heavy rainfall forecast"]
   else [])
  ++ (if above avgTemp 35
      then ["High temperatures expected - provide shade for livestock and increase watering frequency"]
      else if below avgTemp 10
      then ["Cold temperatures may affect crop growth - consider protective measures"]
      else [])
  ++ (if above avgHumidity 80
      then ["High humidity increases disease risk - monitor crops closely and improve ventilation"]
      else []).

Record AgriculturalIndices := {
  growingDegreeDays : Q;
  chillHours : Z;
  waterRequirement : Q;
  pestRisk : string;
  diseaseRisk : string;
  optimalPlantingWindow : string;
  harvestReadiness : string
}.

(** The record built by [getAgriculturalIndices] from the current
    evapotranspiration and the forecast. *)
Definition agriculturalIndices (evapotranspiration : option Q)
    (forecasts : list ForecastDay) : AgriculturalIndices :=
  {| growingDegreeDays := calculateGDD forecasts None;
     chillHours := calculateChillHours forecasts;
     waterRequirement := calculateWaterRequirement evapotranspiration forecasts;
     pestRisk := assessPestRisk forecasts;
     diseaseRisk := assessDiseaseRisk forecasts;
     optimalPlantingWindow := determineOptimalPlanting forecasts;
     harvestReadiness := assessHarvestConditions forecasts |}.

(** A mild, dry week. *)
Definition sample_day : ForecastDay :=
  {| fd_date := "Tue Mar 05 2024"; tempMin := 18; tempMax := 30; avgHumidity := 55;
     avgWindSpeed := 4.2; precipitation := 0; description := "sunny"; icon := "01d" |}.

End Agronomy.

(** ** Supply and demand (the market service with the full analysis) *)

Module Supply.
Import JS Num.
Local Open Scope R_scope.

(** The property names every object literal inherits: looking one of them up
    in a table of the service finds an inherited function, not [undefined],
    so the [|| default] of the getters below does not apply to them. *)
Definition inherited : list string :=
  ["constructor"; "toString"; "toLocaleString"; "valueOf"; "hasOwnProperty";
   "isPrototypeOf"; "propertyIsEnumerable"; "__proto__"; "__defineGetter__";
   "__defineSetter__"; "__lookupGetter__"; "__lookupSetter__"].

(** [productions[crop] || 500000], for a [crop] outside [inherited]; no entry
    of the table is zero. *)
Definition getCurrentProduction (crop : string) : R :=
  default 500000 (assoc crop [("tomatoes", 1200000); ("cotton", 350000);
                              ("sugarcane", 4000000)]).

Definition getDomesticDemand (crop : string) : R :=
  default 450000 (assoc crop [("tomatoes", 1100000); ("cotton", 320000);
                              ("sugarcane", 3800000)]).

Definition getIndustrialDemand (crop : string) : R :=
  default 100000 (assoc crop [("tomatoes", 200000); ("cotton", 280000);
                              ("sugarcane", 3600000)]).

(** The [total] of [getDemandData]. *)
Definition total_demand (crop : string) : R :=
  getDomesticDemand crop + getIndustrialDemand crop.

Record Balance := {
  supplyRatio : jsnum;
  status : string;
  surplus : R;
  deficit : R;
  demandLevel : string;
  supplyLevel : string
}.

(** [x > y] on finite numbers. *)
Definition Rgtb (x y : R) : bool := if Rlt_dec y x then true else false.

(** [production] is [production.current], [demand] is [demand.total]. *)
Definition calculateSupplyDemandBalance (production demand : R) : Balance :=
  let ratio := jdiv (Fin production) (Fin demand) in
  {| supplyRatio := jdiv (jround (jmul ratio (Fin 100))) (Fin 100);
     status :=
       if jgtb ratio (Fin 1.1) then "surplus"
       else if jltb ratio (Fin 0.9) then "deficit"
       else "balanced";
     surplus := Rmax 0 (production - demand);
     deficit := Rmax 0 (demand - production);
     demandLevel :=
       if Rgtb demand (production * 1.1) then "high"
       else if Rgtb (production * 0.9) demand then "low"
       else "moderate";
     supplyLevel :=
       if Rgtb production (demand * 1.1) then "high"
       else if Rgtb (demand * 0.9) production then "low"
       else "adequate" |}.

Definition assessPriceImpact (balance : Balance) : string :=
  if String.eqb (status balance) "surplus" then "downward_pressure"
  else if String.eqb (status balance) "deficit" then "upward_pressure"
  else "neutral".

(** The [balance] computed by [getDemandSupplyAnalysis] for a crop. *)
Definition crop_balance (crop : string) : Balance :=
  calculateSupplyDemandBalance (getCurrentProduction crop) (total_demand crop).

End Supply.

(** * Properties *)

(** ** Arithmetic helpers *)

Section QFacts.
Import JS.
Local Open Scope Q_scope.

Lemma Qltb_true (x y : Q) : Qltb x y = true ↔ x < y.
Proof.
  unfold Qltb. rewrite negb_true_iff, <- not_true_iff_false, Qle_bool_iff.
  split; [apply Qnot_le_lt | apply Qlt_not_le].
Qed.

Lemma Qltb_false (x y : Q) : Qltb x y = false ↔ y <= x.
Proof.
  unfold Qltb. rewrite negb_false_iff. apply Qle_bool_iff.
Qed.

Lemma Qle_bool_false (x y : Q) : Qle_bool x y = false ↔ y < x.
Proof.
  rewrite <- not_true_iff_false, Qle_bool_iff.
  split; [apply Qnot_le_lt | apply Qlt_not_le].
Qed.


Lemma truthy_false (x : Q) : truthy x = false ↔ x == 0.
Proof.
  unfold truthy. rewrite negb_false_iff. apply Qeq_bool_iff.
Qed.



End QFacts.

(** ** Binary64 rounding *)

Section DoubleFacts.
Import Double.
Local Open Scope Q_scope.

Lemma pow2_pos (z : Z) : 0 < pow2 z.
Proof. apply Qpower_0_lt. reflexivity. Qed.

Lemma pow2_add (a b : Z) : pow2 (a + b) == pow2 a * pow2 b.
Proof. apply Qpower_plus. intros H. discriminate H. Qed.

Lemma pow2_le (a b : Z) : (a <= b)%Z → pow2 a <= pow2 b.
Proof. intros H. apply Qpower_le_compat_l; [exact H | discriminate]. Qed.

Lemma pow2_lt (a b : Z) : (a < b)%Z → pow2 a < pow2 b.
Proof. intros H. apply Qpower_lt_compat_l; [exact H | reflexivity]. Qed.

Lemma pow2_lt_inv (a b : Z) : pow2 a < pow2 b → (a < b)%Z.
Proof. intros H. apply (Qpower_lt_compat_l_inv 2); [exact H | reflexivity]. Qed.

Lemma pow2_Z (z : Z) : (0 <= z)%Z → pow2 z == inject_Z (2 ^ z).
Proof. intros H. symmetry. apply (Zpower_Qpower 2 z H). Qed.

Lemma pow2_shift (a b : Z) : pow2 a * pow2 (b - a) == pow2 b.
Proof. rewrite <- pow2_add. replace (a + (b - a))%Z with b by lia. reflexivity. Qed.

(** *** Rounding to the nearest integer *)

Lemma nearest_even_floor (y : Q) :
  (Qfloor y <= nearest_even y <= Qfloor y + 1)%Z.
Proof.
  unfold nearest_even.
  destruct (Qcompare _ _); [destruct (Z.even _)|..]; lia.
Qed.

Lemma nearest_even_bounds (y : Q) :
  y - (1 # 2) <= inject_Z (nearest_even y) ∧ inject_Z (nearest_even y) <= y + (1 # 2).
Proof.
  unfold nearest_even.
  pose proof (Qfloor_le y) as Hlo. pose proof (Qlt_floor y) as Hhi.
  rewrite inject_Z_plus in Hhi. change (inject_Z 1) with 1 in Hhi.
  destruct (Qcompare_spec (y - inject_Z (Qfloor y)) (1 # 2)) as [E|E|E];
    [destruct (Z.even _)|..];
    rewrite ?inject_Z_plus; change (inject_Z 1) with 1; split; lra.
Qed.

Lemma nearest_even_comp (x y : Q) : x == y → nearest_even x = nearest_even y.
Proof.
  intros E. unfold nearest_even. rewrite (Qfloor_comp x y E).
  rewrite (Qcompare_comp (x - inject_Z (Qfloor y)) (y - inject_Z (Qfloor y))
             ltac:(rewrite E; reflexivity) (1 # 2) (1 # 2) ltac:(reflexivity)).
  reflexivity.
Qed.

Lemma nearest_even_Z (z : Z) : nearest_even (inject_Z z) = z.
Proof.
  unfold nearest_even. rewrite Qfloor_Z.
  destruct (Qcompare_spec (inject_Z z - inject_Z z) (1 # 2)) as [E|E|E];
    [exfalso; lra | reflexivity | exfalso; lra].
Qed.

Lemma nearest_even_mono (x y : Q) : x <= y → (nearest_even x <= nearest_even y)%Z.
Proof.
  intros Hxy. pose proof (Qfloor_resp_le x y Hxy) as Hf.
  destruct (Z.eq_dec (Qfloor x) (Qfloor y)) as [E|Hne].
  - unfold nearest_even. rewrite E.
    destruct (Qcompare_spec (x - inject_Z (Qfloor y)) (1 # 2)) as [Ex|Ex|Ex];
      destruct (Qcompare_spec (y - inject_Z (Qfloor y)) (1 # 2)) as [Ey|Ey|Ey];
      try (exfalso; lra); try destruct (Z.even _); lia.
  - pose proof (nearest_even_floor x). pose proof (nearest_even_floor y). lia.
Qed.

(** *** The binary exponent *)

Lemma fraction_lt (a b c d : Z) :
  (0 < b)%Z → (0 < d)%Z → (a * d < c * b)%Z →
  inject_Z a / inject_Z b < inject_Z c / inject_Z d.
Proof.
  intros Hb Hd H.
  assert (Hb' : 0 < inject_Z b)
    by (change 0 with (inject_Z 0); rewrite <- Zlt_Qlt; exact Hb).
  assert (Hd' : 0 < inject_Z d)
    by (change 0 with (inject_Z 0); rewrite <- Zlt_Qlt; exact Hd).
  apply Qlt_shift_div_r; [exact Hb'|].
  setoid_replace (inject_Z c / inject_Z d * inject_Z b)
    with (inject_Z c * inject_Z b / inject_Z d) using relation Qeq by (field; lra).
  apply Qlt_shift_div_l; [exact Hd'|].
  rewrite <- !inject_Z_mult, <- Zlt_Qlt. exact H.
Qed.

Lemma exponent_spec (q : Q) :
  0 < q → pow2 (exponent q) <= q ∧ q < pow2 (exponent q + 1).
Proof.
  intros Hq. destruct q as [n d].
  assert (Hn : (0 < n)%Z) by (unfold Qlt in Hq; simpl in Hq; lia).
  unfold exponent. cbn [Qnum Qden].
  set (ln := Z.log2 n). set (ld := Z.log2 (Z.pos d)).
  destruct (Z.log2_spec n Hn) as [Hn1 Hn2].
  destruct (Z.log2_spec (Z.pos d) eq_refl) as [Hd1 Hd2].
  fold ln in Hn1, Hn2. fold ld in Hd1, Hd2.
  assert (Hln : (0 <= ln)%Z) by apply Z.log2_nonneg.
  assert (Hld : (0 <= ld)%Z) by apply Z.log2_nonneg.
  assert (Hp : ∀ k, (0 < 2 ^ k)%Z ∨ (k < 0)%Z).
  { intros k. destruct (Z.le_gt_cases 0 k); [left; apply Z.pow_pos_nonneg; lia | right; lia]. }
  assert (Hlow : pow2 (ln - (ld + 1)) < n # d).
  { unfold pow2. rewrite Qpower_minus by (intros H; discriminate H).
    fold (pow2 ln). fold (pow2 (ld + 1)).
    rewrite (pow2_Z ln), (pow2_Z (ld + 1)), (Qmake_Qdiv n d) by lia.
    apply fraction_lt; [apply Z.pow_pos_nonneg; lia | lia | nia]. }
  assert (Hhigh : n # d < pow2 (ln + 1 - ld)).
  { unfold pow2. rewrite Qpower_minus by (intros H; discriminate H).
    fold (pow2 (ln + 1)). fold (pow2 ld).
    rewrite (pow2_Z (ln + 1)), (pow2_Z ld), (Qmake_Qdiv n d) by lia.
    apply fraction_lt; [lia | apply Z.pow_pos_nonneg; lia | nia]. }
  destruct (Qle_bool (pow2 (ln - ld)) (n # d)) eqn:E.
  - apply Qle_bool_iff in E. split; [exact E|].
    replace (ln - ld + 1)%Z with (ln + 1 - ld)%Z by lia. exact Hhigh.
  - assert (E' : n # d < pow2 (ln - ld)).
    { apply Qnot_le_lt. intros H. apply Qle_bool_iff in H. congruence. }
    split.
    + replace (ln - ld - 1)%Z with (ln - (ld + 1))%Z by lia. apply Qlt_le_weak, Hlow.
    + replace (ln - ld - 1 + 1)%Z with (ln - ld)%Z by lia. exact E'.
Qed.

Lemma exponent_unique (q : Q) (e : Z) :
  0 < q → pow2 e <= q → q < pow2 (e + 1) → exponent q = e.
Proof.
  intros Hq Hlo Hhi. destruct (exponent_spec q Hq) as [Hlo' Hhi'].
  assert (exponent q < e + 1)%Z by (apply pow2_lt_inv; lra).
  assert (e < exponent q + 1)%Z by (apply pow2_lt_inv; lra).
  lia.
Qed.

Lemma exponent_comp (x y : Q) : 0 < x → x == y → exponent x = exponent y.
Proof.
  intros Hx E. destruct (exponent_spec x Hx) as [Hlo Hhi].
  symmetry. apply exponent_unique; rewrite <- E; assumption.
Qed.

(** *** Rounding a positive rational *)

Lemma scaled_bounds (q : Q) :
  0 < q →
  pow2 52 <= q * pow2 (52 - exponent q) ∧ q * pow2 (52 - exponent q) < pow2 53.
Proof.
  intros Hq. destruct (exponent_spec q Hq) as [Hlo Hhi].
  pose proof (pow2_pos (52 - exponent q)) as Hs.
  rewrite <- (pow2_shift (exponent q) 52), <- (pow2_shift (exponent q + 1) 53).
  replace (53 - (exponent q + 1))%Z with (52 - exponent q)%Z by lia.
  split.
  - apply Qmult_le_compat_r; [exact Hlo | lra].
  - apply Qmult_lt_compat_r; assumption.
Qed.

Lemma mantissa_bounds (q : Q) :
  0 < q → (2 ^ 52 <= nearest_even (q * pow2 (52 - exponent q)) <= 2 ^ 53)%Z.
Proof.
  intros Hq. destruct (scaled_bounds q Hq) as [Hlo Hhi].
  rewrite (pow2_Z 52) in Hlo by lia. rewrite (pow2_Z 53) in Hhi by lia.
  apply nearest_even_mono in Hlo. apply Qlt_le_weak, nearest_even_mono in Hhi.
  rewrite nearest_even_Z in Hlo, Hhi. split; assumption.
Qed.

Lemma round_pos_eq (q : Q) :
  round_pos q
  == inject_Z (nearest_even (q * pow2 (52 - exponent q))) * pow2 (exponent q - 52).
Proof. unfold round_pos. apply Qred_correct. Qed.

Lemma unscale (q : Q) (e : Z) : q * pow2 (52 - e) * pow2 (e - 52) == q.
Proof.
  rewrite <- Qmult_assoc, <- pow2_add.
  replace (52 - e + (e - 52))%Z with 0%Z by lia. change (pow2 0) with 1. ring.
Qed.

Lemma round_pos_comp (x y : Q) : 0 < x → x == y → round_pos x = round_pos y.
Proof.
  intros Hx E. unfold round_pos. rewrite (exponent_comp x y Hx E).
  apply Qred_complete.
  rewrite (nearest_even_comp (x * pow2 (52 - exponent y)) (y * pow2 (52 - exponent y)))
    by (rewrite E; reflexivity).
  reflexivity.
Qed.

Lemma round_pos_bounds (q : Q) :
  0 < q → pow2 (exponent q) <= round_pos q ∧ round_pos q <= pow2 (exponent q + 1).
Proof.
  intros Hq. destruct (mantissa_bounds q Hq) as [Hlo Hhi].
  rewrite round_pos_eq.
  pose proof (pow2_pos (exponent q - 52)) as Hs.
  rewrite Zle_Qle in Hlo, Hhi.
  rewrite <- (pow2_Z 52) in Hlo by lia. rewrite <- (pow2_Z 53) in Hhi by lia.
  rewrite <- (pow2_shift 52 (exponent q)) at 1.
  rewrite <- (pow2_shift 53 (exponent q + 1)).
  replace (exponent q + 1 - 53)%Z with (exponent q - 52)%Z by lia.
  split; apply Qmult_le_compat_r; (assumption || lra).
Qed.

Lemma round_pos_pos (q : Q) : 0 < q → 0 < round_pos q.
Proof.
  intros Hq. destruct (round_pos_bounds q Hq) as [Hlo _].
  pose proof (pow2_pos (exponent q)). lra.
Qed.

Lemma round_pos_near (q : Q) :
  0 < q →
  q - pow2 (exponent q - 53) <= round_pos q ∧ round_pos q <= q + pow2 (exponent q - 53).
Proof.
  intros Hq. set (e := exponent q). set (y := q * pow2 (52 - e)).
  pose proof (nearest_even_bounds y) as [H1 H2].
  pose proof (pow2_pos (e - 52)) as Hs.
  assert (Hhalf : pow2 (e - 53) == (1 # 2) * pow2 (e - 52)).
  { replace (e - 53)%Z with (-1 + (e - 52))%Z by lia. rewrite pow2_add. reflexivity. }
  assert (Hq' : q == y * pow2 (e - 52)) by (unfold y; rewrite unscale; reflexivity).
  rewrite round_pos_eq. fold e. fold y. rewrite Hhalf.
  set (m := inject_Z (nearest_even y)) in *. set (s := pow2 (e - 52)) in *.
  split; rewrite Hq' at 1; nra.
Qed.

Lemma round_pos_relative (q : Q) :
  0 < q →
  q * (1 - pow2 (-53)) <= round_pos q ∧ round_pos q <= q * (1 + pow2 (-53)).
Proof.
  intros Hq. destruct (round_pos_near q Hq) as [H1 H2].
  destruct (exponent_spec q Hq) as [Hlo _].
  assert (Hu : pow2 (exponent q - 53) == pow2 (exponent q) * pow2 (-53)).
  { rewrite <- pow2_add. replace (exponent q + -53)%Z with (exponent q - 53)%Z by lia.
    reflexivity. }
  rewrite Hu in H1, H2. pose proof (pow2_pos (-53)) as Hp.
  set (u := pow2 (-53)) in *. set (p := pow2 (exponent q)) in *.
  split; nra.
Qed.

Lemma round_pos_mono (x y : Q) : 0 < x → x <= y → round_pos x <= round_pos y.
Proof.
  intros Hx Hxy. assert (Hy : 0 < y) by lra.
  destruct (exponent_spec x Hx) as [Hxl Hxh].
  destruct (exponent_spec y Hy) as [Hyl Hyh].
  assert (He : (exponent x < exponent y + 1)%Z) by (apply pow2_lt_inv; lra).
  destruct (Z.eq_dec (exponent x) (exponent y)) as [E|Hne].
  - rewrite !round_pos_eq, E.
    pose proof (pow2_pos (exponent y - 52)) as Hs.
    pose proof (pow2_pos (52 - exponent y)) as Hs'.
    apply Qmult_le_compat_r; [|lra].
    rewrite <- Zle_Qle. apply nearest_even_mono.
    apply Qmult_le_compat_r; [exact Hxy | lra].
  - destruct (round_pos_bounds x Hx) as [_ Hxb].
    destruct (round_pos_bounds y Hy) as [Hyb _].
    pose proof (pow2_le (exponent x + 1) (exponent y) ltac:(lia)). lra.
Qed.

(** A rational whose scaled mantissa is an integer is a double. *)
Lemma round_pos_exact (q : Q) (z : Z) :
  0 < q → q * pow2 (52 - exponent q) == inject_Z z → round_pos q == q.
Proof.
  intros Hq Hz. rewrite round_pos_eq.
  rewrite (nearest_even_comp _ _ Hz), nearest_even_Z, <- Hz. apply unscale.
Qed.

Lemma round_pos_idem (q : Q) : 0 < q → round_pos (round_pos q) == round_pos q.
Proof.
  intros Hq. pose proof (round_pos_pos q Hq) as Hr.
  destruct (mantissa_bounds q Hq) as [Hlo Hhi].
  set (e := exponent q) in *. set (m := nearest_even (q * pow2 (52 - e))) in *.
  assert (Hr' : round_pos q == inject_Z m * pow2 (e - 52)) by apply round_pos_eq.
  rewrite Zle_Qle in Hlo, Hhi.
  rewrite <- (pow2_Z 52) in Hlo by lia. rewrite <- (pow2_Z 53) in Hhi by lia.
  pose proof (pow2_pos (e - 52)) as Hs.
  destruct (Qlt_le_dec (inject_Z m) (pow2 53)) as [Hlt|Hge].
  - assert (He : exponent (round_pos q) = e).
    { apply exponent_unique; [exact Hr | |]; rewrite Hr'.
      - rewrite <- (pow2_shift 52 e). apply Qmult_le_compat_r; [exact Hlo | lra].
      - rewrite <- (pow2_shift 53 (e + 1)).
        replace (e + 1 - 53)%Z with (e - 52)%Z by lia.
        apply Qmult_lt_compat_r; assumption. }
    apply (round_pos_exact _ m Hr). rewrite He, Hr'.
    rewrite <- Qmult_assoc, <- pow2_add.
    replace (e - 52 + (52 - e))%Z with 0%Z by lia. change (pow2 0) with 1. ring.
  - assert (Hm : inject_Z m == pow2 53) by lra.
    assert (Hp : round_pos q == pow2 (e + 1)).
    { rewrite Hr', Hm, <- pow2_add. replace (53 + (e - 52))%Z with (e + 1)%Z by lia.
      reflexivity. }
    assert (He : exponent (round_pos q) = (e + 1)%Z).
    { apply exponent_unique; [exact Hr | rewrite Hp; lra |].
      rewrite Hp. apply pow2_lt. lia. }
    apply (round_pos_exact _ (2 ^ 52) Hr). rewrite He, Hp, <- pow2_add.
    replace (e + 1 + (52 - (e + 1)))%Z with 52%Z by lia. apply pow2_Z. lia.
Qed.


(** *** Rounding any rational *)

Lemma Qnum_pos (q : Q) : 0 < q ↔ (0 < Qnum q)%Z.
Proof. unfold Qlt. simpl. rewrite Z.mul_1_r. reflexivity. Qed.

Lemma Qnum_neg (q : Q) : q < 0 ↔ (Qnum q < 0)%Z.
Proof. unfold Qlt. simpl. rewrite Z.mul_1_r. reflexivity. Qed.

Lemma double_pos (q : Q) : 0 < q → double q = round_pos q.
Proof.
  intros Hq. apply Qnum_pos in Hq. unfold double.
  destruct (Qnum q); [lia | reflexivity | lia].
Qed.

Lemma double_neg (q : Q) : q < 0 → double q = - round_pos (- q).
Proof.
  intros Hq. apply Qnum_neg in Hq. unfold double.
  destruct (Qnum q); [lia | lia | reflexivity].
Qed.

Lemma double_zero (q : Q) : q == 0 → double q = 0.
Proof.
  intros Hq. unfold double. unfold Qeq in Hq. simpl in Hq.
  rewrite Z.mul_1_r in Hq. rewrite Hq. reflexivity.
Qed.

Lemma double_comp (x y : Q) : x == y → double x = double y.
Proof.
  intros E. destruct (Q_dec x 0) as [[Hx|Hx]|Hx].
  - rewrite (double_neg x Hx), (double_neg y) by lra.
    f_equal. apply round_pos_comp; [lra | rewrite E; reflexivity].
  - rewrite (double_pos x Hx), (double_pos y) by lra. apply round_pos_comp; assumption.
  - rewrite (double_zero x Hx), (double_zero y) by lra. reflexivity.
Qed.

Lemma double_opp (q : Q) : double (- q) == - double q.
Proof.
  destruct (Q_dec q 0) as [[Hq|Hq]|Hq].
  - rewrite (double_neg q Hq), (double_pos (- q)) by lra. ring.
  - rewrite (double_pos q Hq), (double_neg (- q)) by lra.
    rewrite (round_pos_comp (- - q) q) by (lra || ring). reflexivity.
  - rewrite (double_zero q Hq), (double_zero (- q)) by lra. reflexivity.
Qed.

Lemma double_mono (x y : Q) : x <= y → double x <= double y.
Proof.
  intros Hxy.
  destruct (Q_dec x 0) as [[Hx|Hx]|Hx]; destruct (Q_dec y 0) as [[Hy|Hy]|Hy];
    try (exfalso; lra).
  - rewrite (double_neg x Hx), (double_neg y Hy).
    pose proof (round_pos_mono (- y) (- x) ltac:(lra) ltac:(lra)). lra.
  - rewrite (double_neg x Hx), (double_pos y Hy).
    pose proof (round_pos_pos (- x) ltac:(lra)). pose proof (round_pos_pos y Hy). lra.
  - rewrite (double_neg x Hx), (double_zero y Hy).
    pose proof (round_pos_pos (- x) ltac:(lra)). lra.
  - rewrite (double_pos x Hx), (double_pos y Hy). apply round_pos_mono; assumption.
  - rewrite (double_zero x Hx), (double_pos y Hy).
    pose proof (round_pos_pos y Hy). lra.
  - rewrite (double_zero x Hx), (double_zero y Hy). lra.
Qed.

Lemma double_idem (q : Q) : double (double q) == double q.
Proof.
  destruct (Q_dec q 0) as [[Hq|Hq]|Hq].
  - rewrite (double_neg q Hq).
    pose proof (round_pos_pos (- q) ltac:(lra)) as Hr.
    rewrite double_opp, (double_pos _ Hr), round_pos_idem by lra. reflexivity.
  - rewrite (double_pos q Hq).
    pose proof (round_pos_pos q Hq) as Hr.
    rewrite (double_pos _ Hr). apply round_pos_idem, Hq.
  - rewrite (double_zero q Hq). reflexivity.
Qed.


(** The relative error of a rounding is at most 2^-53. *)
Lemma double_relative (q : Q) : Qabs (double q - q) <= pow2 (-53) * Qabs q.
Proof.
  pose proof (pow2_pos (-53)) as Hu.
  destruct (Q_dec q 0) as [[Hq|Hq]|Hq].
  - rewrite (double_neg q Hq).
    destruct (round_pos_relative (- q) ltac:(lra)) as [H1 H2].
    rewrite (Qabs_neg q) by lra. apply Qabs_Qle_condition.
    set (u := pow2 (-53)) in *. set (r := round_pos (- q)) in *. split; nra.
  - rewrite (double_pos q Hq).
    destruct (round_pos_relative q Hq) as [H1 H2].
    rewrite (Qabs_pos q) by lra. apply Qabs_Qle_condition.
    set (u := pow2 (-53)) in *. set (r := round_pos q) in *. split; nra.
  - rewrite (double_zero q Hq), Hq. change (Qabs (0 - 0)) with 0.
    change (Qabs 0) with 0. lra.
Qed.

Lemma double_nonneg (q : Q) : 0 <= q → 0 <= double q.
Proof. intros H. apply (double_mono 0 q H). Qed.

Lemma double_nonpos (q : Q) : q <= 0 → double q <= 0.
Proof. intros H. apply (double_mono q 0 H). Qed.

End DoubleFacts.

(** ** IoT alerting *)

Section IoTAlerts.
Import JS IoT.
Local Open Scope Q_scope.

Variable show : Q → string.
Variable now : string.




End IoTAlerts.





(** A reading whose sensor type is the inherited name 'constructor' passes the
    early return: with 10 % battery it raises the maintenance alert alone. *)
Lemma low_battery_inherited_name_alert :
  let raw :=
    {| IoT.raw_farmId := "farm1"; IoT.raw_sensorId := "sensor_x";
       IoT.raw_sensorType := "constructor"; IoT.raw_location := "field_a";
       IoT.raw_timestamp := "2024-01-01T00:00:00.000Z";
       IoT.raw_readings :=
         {| IoT.r_value := 12%Q; IoT.r_unit := "%"; IoT.r_quality := Some "good";
            IoT.r_batteryLevel := Some 10%Q |} |} in
  map IoT.alert_type (IoT.processSensorData_alerts (λ _, "n") "t" raw) = ["maintenance"].
Proof.
  intros raw. reflexivity.
Qed.


(** A battery level of exactly 0 is turned into [null] by the normalisation
    and raises no maintenance alert either. *)
Lemma zero_battery_no_alert :
  let raw :=
    {| IoT.raw_farmId := "farm1"; IoT.raw_sensorId := "sensor_soil_moisture_001";
       IoT.raw_sensorType := "soil_moisture"; IoT.raw_location := "field_a";
       IoT.raw_timestamp := "2024-01-01T00:00:00.000Z";
       IoT.raw_readings :=
         {| IoT.r_value := 50%Q; IoT.r_unit := "%"; IoT.r_quality := Some "good";
            IoT.r_batteryLevel := Some 0%Q |} |} in
  IoT.batteryLevel (IoT.normalizeSensorData "t" raw) = None
  ∧ IoT.processSensorData_alerts (λ _, "n") "t" raw = [].
Proof.
  intros raw. split; reflexivity.
Qed.

(** ** Farm health score *)

Section HealthScore.
Import JS IoT Double.
Local Open Scope Q_scope.














End HealthScore.



(** The score as the doubles compute it: with a soil moisture of 30.1 % and
    a soil temperature of 15.2 degrees the two penalties are 19.9 and
    19.6 up to rounding, the running score ends just under 60.5 and rounds to
    60, where exact arithmetic reaches 60.5 and would round to 61. *)
Lemma farm_health_score_in_doubles :
  IoT.calculateFarmHealthScore
    [ IoT.sample_reading "soil_moisture" (Double.double 30.1%Q);
      IoT.sample_reading "soil_temperature" (Double.double 15.2%Q) ] = 60%Z
  ∧ JS.Math_round (100 - (Qabs (30.1 - 50) / 10 * 10) - (Qabs (15.2 - 25) / 5 * 10))%Q
    = 61%Z.
Proof.
  split; vm_compute; reflexivity.
Qed.

(** ** Notification storage *)

Section NotificationStore.
Import JS Notify.

(** The key prefixes keep the kinds of record apart. *)
Lemma user_key_not_stats (userId : string) : user_key userId ≠ stats_key.
Proof. unfold user_key, stats_key. cbn. discriminate. Qed.

Lemma subscription_key_not_stats (userId : string) : subscription_key userId ≠ stats_key.
Proof. unfold subscription_key, stats_key. cbn. discriminate. Qed.

Lemma subscription_key_not_user (u v : string) : subscription_key u ≠ user_key v.
Proof. unfold subscription_key, user_key. cbn. discriminate. Qed.

Lemma subscription_key_not_queue (u type : string) : subscription_key u ≠ queue_key type.
Proof. unfold subscription_key, queue_key. cbn. discriminate. Qed.

Lemma subscription_key_inj (u v : string) : subscription_key u = subscription_key v → u = v.
Proof. unfold subscription_key. cbn. intros H. injection H as H. exact H. Qed.

Lemma prepend_capped_take (n : Notification) (l : list Notification) :
  prepend_capped n l = take 100 (n :: l).
Proof.
  unfold prepend_capped.
  destruct (100 <? length (n :: l))%nat eqn:E; [reflexivity|].
  apply Nat.ltb_ge in E. symmetry. apply take_ge. exact E.
Qed.

Lemma stored_after_deliver (now : Clock) (user : string) (n : Notification) (kv : store) :
  get_notifications (user_key user) (fst (storeAndDeliverNotification now user n kv))
  = prepend_capped n (get_notifications (user_key user) kv).
Proof.
  unfold storeAndDeliverNotification.
  destruct (deliverToChannels now n) as [results|]; simpl.
  - unfold updateSystemStats, get_notifications at 1, kv_get, kv_set.
    rewrite lookup_insert_ne by (apply not_eq_sym, user_key_not_stats).
    rewrite lookup_insert_eq. reflexivity.
  - unfold get_notifications at 1, kv_get, kv_set. rewrite lookup_insert_eq. reflexivity.
Qed.

Lemma rev_reverse {A : Type} (l : list A) : rev l = reverse l.
Proof. unfold reverse. apply rev_alt. Qed.

Lemma take_app_take {A : Type} (k : nat) (a b : list A) :
  take k (a ++ take k b) = take k (a ++ b).
Proof.
  rewrite !take_app, take_take. f_equal. f_equal. lia.
Qed.

Lemma store_all_stored (items : list (Clock * Notification)) (user : string) (kv : store) :
  length (get_notifications (user_key user) kv) ≤ 100 →
  get_notifications (user_key user) (store_all items user kv)
  = take 100 (rev (map snd items) ++ get_notifications (user_key user) kv).
Proof.
  revert kv. induction items as [|[now n] rest IH]; intros kv Hlen.
  - simpl. symmetry. apply take_ge. exact Hlen.
  - change (store_all ((now, n) :: rest) user kv)
      with (store_all rest user (fst (storeAndDeliverNotification now user n kv))).
    cbn [map rev snd]. rewrite IH.
    + rewrite stored_after_deliver, prepend_capped_take, take_app_take.
      rewrite <- app_assoc. reflexivity.
    + rewrite stored_after_deliver, prepend_capped_take, length_take. lia.
Qed.

End NotificationStore.

(** C2. Storing prepends the new notification to the user's list and cuts the
    list to its first 100 entries.  Starting from an empty list, 105
    notifications stored one at a time leave exactly 100: the last 100 that
    were stored, newest first; the five stored first are gone. *)
Theorem notification_storage_capped
    (items : list (Notify.Clock * Notify.Notification)) (user : string)
    (kv : gmap string Notify.value) :
  Notify.get_notifications (Notify.user_key user) kv = [] →
  length items = 105 →
  let stored :=
    Notify.get_notifications (Notify.user_key user) (Notify.store_all items user kv) in
  (∀ now n kv',
     Notify.get_notifications (Notify.user_key user)
       (fst (Notify.storeAndDeliverNotification now user n kv'))
     = take 100 (n :: Notify.get_notifications (Notify.user_key user) kv'))
  ∧ length stored = 100
  ∧ stored = rev (map snd (drop 5 items))
  ∧ (∀ i, i < 100 → stored !! i = snd <$> items !! (104 - i)).
Proof.
  intros Hempty Hlen stored.
  assert (Hstored : stored = rev (map snd (drop 5 items))).
  { subst stored. rewrite store_all_stored by (rewrite Hempty; simpl; lia).
    rewrite Hempty, app_nil_r.
    rewrite <- (take_drop 5 items) at 1.
    rewrite map_app, rev_app_distr, take_app_length'; [reflexivity|].
    rewrite length_rev, length_map, length_drop. lia. }
  split.
  { intros now n kv'. rewrite stored_after_deliver. apply prepend_capped_take. }
  split.
  { rewrite Hstored, length_rev, length_map, length_drop. lia. }
  split; [exact Hstored|].
  intros i Hi. rewrite Hstored.
  rewrite rev_reverse, reverse_lookup
    by (rewrite length_map, length_drop; lia).
  rewrite length_map, length_drop, Hlen, list_lookup_fmap, lookup_drop.
  f_equal. f_equal. lia.
Qed.

(** The storage theorem at 105 sensor alerts stored for user u1 in an empty
    store. *)
Lemma notification_storage_capped_witness :
  length (Notify.get_notifications (Notify.user_key "u1")
            (Notify.store_all Notify.sample_items "u1" ∅)) = 100.
Proof.
  destruct (notification_storage_capped Notify.sample_items "u1" ∅) as (_ & H & _).
  - reflexivity.
  - reflexivity.
  - exact H.
Defined.

(** ** Marking a notification as read *)



(** ** Scheduled notifications: quiet hours and frequency *)

Section QuietHours.
Import JS Notify.

Lemma nan_geb_Some (a b : Z) : nan_geb (Some a) (Some b) = true ↔ (b <= a)%Z.
Proof. simpl. apply Z.leb_le. Qed.

(** The gate, for quiet hours that parse to whole hours: the notification is
    held back exactly when the hour is at or after the start hour, or at or
    before the end hour, or the frequency forbids it. *)
Lemma should_send_false_iff (now : Clock) (subscription : Subscription) (type : string)
    (quietStart quietEnd : Z) :
  parseInt (split_head ":" (qh_start (quietHours (preferences subscription))))
  = Some quietStart →
  parseInt (split_head ":" (qh_end (quietHours (preferences subscription))))
  = Some quietEnd →
  shouldSendScheduledNotification now subscription type = false
  ↔ ((quietStart <= hours now)%Z ∨ (hours now <= quietEnd)%Z)
    ∨ frequency (preferences subscription) = "never"
    ∨ (frequency (preferences subscription) = "weekly" ∧ weekday now ≠ 1%Z).
Proof.
  intros Hs He. unfold shouldSendScheduledNotification. rewrite Hs, He.
  unfold nan_leb. cbn [nan_geb].
  destruct (quietStart <=? hours now)%Z eqn:E1;
    [apply Z.leb_le in E1 | apply Z.leb_gt in E1]; cbn [orb].
  { split; [intros _; left; left; exact E1 | reflexivity]. }
  destruct (hours now <=? quietEnd)%Z eqn:E2;
    [apply Z.leb_le in E2 | apply Z.leb_gt in E2].
  { split; [intros _; left; right; exact E2 | reflexivity]. }
  destruct (String.eqb_spec (frequency (preferences subscription)) "never") as [Hn|Hn].
  { split; [intros _; right; left; exact Hn | reflexivity]. }
  destruct (String.eqb_spec (frequency (preferences subscription)) "weekly") as [Hw|Hw];
    cbn [andb].
  - destruct (weekday now =? 1)%Z eqn:E3;
      [apply Z.eqb_eq in E3 | apply Z.eqb_neq in E3]; cbn [negb].
    + split; [discriminate|]. intros [[H|H]|[H|[_ H]]]; try lia; contradiction.
    + split; [intros _; right; right; split; assumption | reflexivity].
  - split; [discriminate|]. intros [[H|H]|[H|[H _]]]; try lia; contradiction.
Qed.

End QuietHours.

(** What the gate computes for quiet hours that span midnight (the start hour
    after the end hour, as in the default 22:00 to 06:00): a scheduled
    notification is held back exactly when the current hour is at or after the
    start hour or at or before the end hour, or the frequency is 'never', or
    the frequency is 'weekly' and the day is not Monday; otherwise it is
    sent. *)
Theorem scheduled_gate_overnight
    (now : Notify.Clock) (subscription : Notify.Subscription) (type : string)
    (quietStart quietEnd : Z) :
  JS.parseInt (JS.split_head ":"
    (Notify.qh_start (Notify.quietHours (Notify.preferences subscription))))
  = Some quietStart →
  JS.parseInt (JS.split_head ":"
    (Notify.qh_end (Notify.quietHours (Notify.preferences subscription))))
  = Some quietEnd →
  (quietEnd < quietStart)%Z →
  let frequency := Notify.frequency (Notify.preferences subscription) in
  let held_back :=
    ((quietStart <= Notify.hours now)%Z ∨ (Notify.hours now <= quietEnd)%Z)
    ∨ frequency = "never"
    ∨ (frequency = "weekly" ∧ Notify.weekday now ≠ 1%Z) in
  (Notify.shouldSendScheduledNotification now subscription type = false ↔ held_back)
  ∧ (Notify.shouldSendScheduledNotification now subscription type = true ↔ ¬ held_back).
Proof.
  intros Hs He _ frequency held_back.
  pose proof (should_send_false_iff now subscription type quietStart quietEnd Hs He) as H.
  fold frequency in H. fold held_back in H.
  split; [exact H|].
  rewrite <- H. destruct (Notify.shouldSendScheduledNotification now subscription type).
  - split; [discriminate | reflexivity].
  - split; [discriminate | intros Hn; exfalso; apply Hn; reflexivity].
Qed.

(** The gate theorem at the default quiet hours, at 10 o'clock on a Tuesday:
    the notification is sent. *)
Lemma scheduled_gate_overnight_witness :
  Notify.shouldSendScheduledNotification Notify.sample_clock Notify.sample_subscription
    "weather_updates" = true.
Proof.
  destruct (scheduled_gate_overnight Notify.sample_clock Notify.sample_subscription
              "weather_updates" 22 6 eq_refl eq_refl) as [_ Hsent].
  - reflexivity.
  - apply Hsent. cbn. intros [[H|H]|[H|[H _]]]; try discriminate H; lia.
Defined.

(** C4.  The claim's quiet window is half open, [quietStart, quietEnd); the
    code compares [currentHour <= quietEnd] and so is one hour off at the end
    of the window.  With the default quiet hours 22:00 to 06:00 and immediate
    delivery, at 06:30 the window of the claim is over and the notification is
    due, yet the code holds it back. *)
Lemma quiet_end_hour_suppressed :
  let now :=
    {| Notify.iso := "2024-03-05T06:30:00.000Z"; Notify.epoch_ms := "1709620200000";
       Notify.hours := 6; Notify.weekday := 2 |} in
  JS.parseInt (JS.split_head ":"
    (Notify.qh_start (Notify.quietHours (Notify.preferences Notify.sample_subscription))))
  = Some 22%Z
  ∧ JS.parseInt (JS.split_head ":"
      (Notify.qh_end (Notify.quietHours (Notify.preferences Notify.sample_subscription))))
    = Some 6%Z
  ∧ Notify.suppressed_spec 22 6 now
      (Notify.frequency (Notify.preferences Notify.sample_subscription)) = false
  ∧ Notify.shouldSendScheduledNotification now Notify.sample_subscription "weather_updates"
    = false.
Proof.
  intros now. repeat split.
Qed.

(** The same comparison of hours, on a window inside one day: with quiet
    hours 13:00 to 15:00 every hour of the day is held back. *)
Lemma same_day_window_suppresses_all (hour : Z) :
  let subscription :=
    Notify.subscriptionData Notify.sample_clock
      {| Notify.req_userId := "u1"; Notify.req_farmId := "farm1";
         Notify.req_notificationTypes := None; Notify.req_channels := None;
         Notify.req_preferences :=
           Some {| Notify.raw_frequency := None;
                   Notify.raw_quietHours :=
                     Some {| Notify.qh_start := "13:00"; Notify.qh_end := "15:00" |};
                   Notify.raw_language := None; Notify.raw_timezone := None |} |} in
  let now :=
    {| Notify.iso := "2024-03-05T20:30:00.000Z"; Notify.epoch_ms := "1709670600000";
       Notify.hours := hour; Notify.weekday := 2 |} in
  Notify.shouldSendScheduledNotification now subscription "weather_updates" = false.
Proof.
  intros subscription now.
  apply (should_send_false_iff now subscription "weather_updates" 13 15 eq_refl eq_refl).
  left. cbn. lia.
Qed.

(** ** Re-subscription and the channels of later deliveries *)

Section Resubscribe.
Import JS Notify.

Variable show : Q → string.

Lemma enqueue_other_key (user type key : string) (kv : store) :
  key ≠ queue_key type → enqueue user kv type !! key = kv !! key.
Proof.
  intros Hne. unfold enqueue.
  destruct (includes user (get_users (queue_key type) kv)); [reflexivity|].
  unfold kv_set. apply lookup_insert_ne. congruence.
Qed.

Lemma enqueue_all_subscription (user : string) (types : list string) (kv : store)
    (v : string) :
  fold_left (enqueue user) types kv !! subscription_key v = kv !! subscription_key v.
Proof.
  revert kv. induction types as [|t rest IH]; intros kv; [reflexivity|].
  simpl. rewrite IH. apply enqueue_other_key, subscription_key_not_queue.
Qed.

(** [subscribe] leaves the record it builds under the user's key, whatever
    was there before. *)
Lemma subscribe_stores (now : Clock) (request : SubscribeRequest) (kv : store) :
  get_subscription (subscription_key (req_userId request)) (fst (subscribe now request kv))
  = Some (subscriptionData now request).
Proof.
  unfold subscribe, get_subscription, kv_get. cbn [fst].
  rewrite enqueue_all_subscription. unfold kv_set. rewrite lookup_insert_eq. reflexivity.
Qed.

Lemma deliver_keeps_subscriptions (now : Clock) (user : string) (n : Notification)
    (kv : store) (v : string) :
  get_subscription (subscription_key v) (fst (storeAndDeliverNotification now user n kv))
  = get_subscription (subscription_key v) kv.
Proof.
  unfold storeAndDeliverNotification, get_subscription, kv_get.
  destruct (deliverToChannels now n); cbn [fst]; unfold updateSystemStats, kv_set.
  - rewrite lookup_insert_ne by (apply not_eq_sym, subscription_key_not_stats).
    rewrite lookup_insert_ne by (apply not_eq_sym, subscription_key_not_user).
    reflexivity.
  - rewrite lookup_insert_ne by (apply not_eq_sym, subscription_key_not_user).
    reflexivity.
Qed.

Lemma by_subscription_transport (now : Clock) (kv kv' : store)
    (entry : string * DeliveryReport) :
  (∀ v, get_subscription (subscription_key v) kv' = get_subscription (subscription_key v) kv) →
  by_subscription now kv entry → by_subscription now kv' entry.
Proof.
  intros Hsame (sub & Hsub & Hd). exists sub. rewrite Hsame. split; assumption.
Qed.

Lemma for_users_by_subscription (now : Clock)
    (body : string → store → store * outcome (option DeliveryReport))
    (users : list string) :
  follows_subscriptions now body →
  ∀ kv results kv' out,
    Forall (by_subscription now kv) results →
    for_users body users kv results = (kv', Returned out) →
    Forall (by_subscription now kv) out.
Proof.
  intros Hbody. induction users as [|u rest IH]; intros kv results kv' out Hres Hrun.
  - simpl in Hrun. injection Hrun as _ <-. exact Hres.
  - simpl in Hrun. destruct (Hbody u kv) as [Hkeep Hpush].
    destruct (body u kv) as [kv1 [[r|]|]] eqn:Hb; cbn [fst snd] in *.
    + assert (Hback : ∀ v, get_subscription (subscription_key v) kv
                           = get_subscription (subscription_key v) kv1)
        by (intros v; symmetry; apply Hkeep).
      eapply Forall_impl;
        [|intros e; apply (by_subscription_transport now kv1 kv e Hback)].
      eapply IH; [|exact Hrun].
      apply Forall_app. split.
      * eapply Forall_impl; [exact Hres|].
        intros e. apply by_subscription_transport. exact Hkeep.
      * apply Forall_cons. split; [|apply Forall_nil; exact I].
        apply (by_subscription_transport now kv kv1); [exact Hkeep|].
        apply Hpush. reflexivity.
    + assert (Hback : ∀ v, get_subscription (subscription_key v) kv
                           = get_subscription (subscription_key v) kv1)
        by (intros v; symmetry; apply Hkeep).
      eapply Forall_impl;
        [|intros e; apply (by_subscription_transport now kv1 kv e Hback)].
      eapply IH; [|exact Hrun].
      eapply Forall_impl; [exact Hres|].
      intros e. apply by_subscription_transport. exact Hkeep.
    + discriminate Hrun.
Qed.

Lemma store_and_push_follows (now : Clock) (user : string) (n : Notification) (kv : store)
    (sub : Subscription) :
  get_subscription (subscription_key user) kv = Some sub →
  channels n = Some (sub_channels sub) →
  (∀ v, get_subscription (subscription_key v) (fst (store_and_push now user n kv))
        = get_subscription (subscription_key v) kv)
  ∧ (∀ r, snd (store_and_push now user n kv) = Returned (Some r) →
          by_subscription now kv (user, r)).
Proof.
  intros Hsub Hch. unfold store_and_push.
  pose proof (deliver_keeps_subscriptions now user n kv) as Hkeep.
  unfold storeAndDeliverNotification in *. unfold deliverToChannels in *.
  rewrite Hch in *. cbn [fst snd] in *.
  split; [exact Hkeep|].
  intros r Hr. injection Hr as <-. exists sub. split; [exact Hsub | reflexivity].
Qed.

(** What every pushed result of a loop satisfies, the loop's results
    satisfy. *)
Lemma for_users_results (P : string * DeliveryReport → Prop)
    (body : string → store → store * outcome (option DeliveryReport))
    (users : list string) :
  (∀ u kv r, snd (body u kv) = Returned (Some r) → P (u, r)) →
  ∀ kv results kv' out,
    Forall P results →
    for_users body users kv results = (kv', Returned out) →
    Forall P out.
Proof.
  intros Hbody. induction users as [|u rest IH]; intros kv results kv' out Hres Hrun.
  - simpl in Hrun. injection Hrun as _ <-. exact Hres.
  - simpl in Hrun. pose proof (Hbody u kv) as Hpush.
    destruct (body u kv) as [kv1 [[r|]|]]; cbn [snd] in Hpush.
    + eapply IH; [|exact Hrun]. apply Forall_app. split; [exact Hres|].
      apply Forall_cons. split; [apply Hpush; reflexivity | apply Forall_nil; exact I].
    + eapply IH; [exact Hres | exact Hrun].
    + discriminate Hrun.
Qed.

(** A notification built with a fixed list of channels is delivered to that
    list. *)
Lemma store_and_push_fixed (now : Clock) (user : string) (n : Notification) (kv : store)
    (chans : list string) (r : DeliveryReport) :
  channels n = Some chans →
  snd (store_and_push now user n kv) = Returned (Some r) →
  delivered r = deliver now chans.
Proof.
  intros Hch. unfold store_and_push, storeAndDeliverNotification, deliverToChannels.
  rewrite Hch. cbn [fst snd]. intros Hr. injection Hr as <-. reflexivity.
Qed.

Lemma price_body_follows (now : Clock) (crop : string) (priceData : PriceData) :
  follows_subscriptions now (price_body show now crop priceData).
Proof.
  intros user kv. unfold price_body.
  destruct (Qle_bool _ _); [|split; [reflexivity | discriminate]].
  destruct (get_subscription (subscription_key user) kv) as [sub|] eqn:Hsub;
    [|split; [reflexivity | discriminate]].
  apply (store_and_push_follows now user _ kv sub Hsub). reflexivity.
Qed.

Lemma scheduled_body_follows (now : Clock) (type : string) (content : Content) :
  follows_subscriptions now
    (λ userId kv,
       match get_subscription (subscription_key userId) kv with
       | Some subscription =>
           if isActive subscription && shouldSendScheduledNotification now subscription type
           then store_and_push now userId
                  (scheduled_notification now type userId content subscription) kv
           else (kv, Returned None)
       | None => (kv, Returned None)
       end).
Proof.
  intros user kv.
  destruct (get_subscription (subscription_key user) kv) as [sub|] eqn:Hsub;
    [|split; [reflexivity | discriminate]].
  destruct (isActive sub && shouldSendScheduledNotification now sub type);
    [|split; [reflexivity | discriminate]].
  apply (store_and_push_follows now user _ kv sub Hsub). reflexivity.
Qed.

End Resubscribe.

(** C9, as the code has it.  A second [subscribe] for the same user replaces
    the stored subscription by the record built from the second request
    alone, channels included ([push] when the request names none).  From then
    on, as long as that record stays stored, every price alert, crop
    recommendation and scheduled notification delivered to the user goes to
    the channels of the second subscription.  Weather alerts and sensor
    alerts do not read the subscription: whoever receives one, whatever the
    store holds, it goes to push and sms, respectively to push. *)
Theorem resubscribe_replaces_channels
    (show : Q → string) (now1 now2 : Notify.Clock)
    (first second : Notify.SubscribeRequest) (kv : gmap string Notify.value) :
  Notify.req_userId first = Notify.req_userId second →
  let user := Notify.req_userId second in
  let kv2 := fst (Notify.subscribe now2 second (fst (Notify.subscribe now1 first kv))) in
  let later_channels := default ["push"] (Notify.req_channels second) in
  Notify.get_subscription (Notify.subscription_key user) kv2
  = Some (Notify.subscriptionData now2 second)
  ∧ Notify.sub_channels (Notify.subscriptionData now2 second) = later_channels
  ∧ ∀ kv3 : gmap string Notify.value,
      Notify.get_subscription (Notify.subscription_key user) kv3
      = Notify.get_subscription (Notify.subscription_key user) kv2 →
      (∀ now crop priceData kv' out r,
         Notify.sendPriceAlert show now crop priceData kv3 = (kv', JS.Returned out) →
         (user, r) ∈ out →
         Notify.delivered r = Notify.deliver now later_channels)
      ∧ (∀ now recommendations kv' result r,
           Notify.sendCropRecommendations show now user recommendations kv3
           = (kv', JS.Returned (result, Some r)) →
           Notify.delivered r = Notify.deliver now later_channels)
      ∧ (∀ now type kv' out r,
           Notify.processScheduledNotificationType now type kv3 = (kv', JS.Returned out) →
           (user, r) ∈ out →
           Notify.delivered r = Notify.deliver now later_channels)
      ∧ (∀ now farm weatherAlert kv' out u r,
           Notify.sendWeatherAlert now farm weatherAlert kv3 = (kv', JS.Returned out) →
           (u, r) ∈ out →
           Notify.delivered r = Notify.deliver now ["push"; "sms"])
      ∧ (∀ now farm sensorAlert kv' out u r,
           Notify.sendSensorAlert now farm sensorAlert kv3 = (kv', JS.Returned out) →
           (u, r) ∈ out →
           Notify.delivered r = Notify.deliver now ["push"]).
Proof.
  intros _ user kv2 later_channels.
  assert (Hstored : Notify.get_subscription (Notify.subscription_key user) kv2
                    = Some (Notify.subscriptionData now2 second))
    by apply subscribe_stores.
  split; [exact Hstored|]. split; [reflexivity|].
  intros kv3 Hsame. rewrite Hstored in Hsame.
  assert (Hentry : ∀ now out r,
            Forall (Notify.by_subscription now kv3) out → (user, r) ∈ out →
            Notify.delivered r = Notify.deliver now later_channels).
  { intros now out r Hall Hin. rewrite Forall_forall in Hall.
    destruct (Hall _ Hin) as (sub & Hsub & Hd). cbn [fst snd] in *.
    rewrite Hsame in Hsub. injection Hsub as <-. exact Hd. }
  split; [|split; [|split; [|split]]].
  - intros now crop priceData kv' out r Hrun Hin.
    apply (Hentry now out r); [|exact Hin].
    eapply for_users_by_subscription;
      [apply (price_body_follows show) | apply Forall_nil; exact I | exact Hrun].
  - intros now recommendations kv' result r Hrun.
    unfold Notify.sendCropRecommendations in Hrun. rewrite Hsame in Hrun.
    destruct (_ && _) in Hrun; [|discriminate Hrun].
    unfold Notify.storeAndDeliverNotification, Notify.deliverToChannels in Hrun.
    cbn in Hrun. injection Hrun as _ _ <-. reflexivity.
  - intros now type kv' out r Hrun Hin.
    apply (Hentry now out r); [|exact Hin].
    eapply for_users_by_subscription;
      [apply scheduled_body_follows | apply Forall_nil; exact I | exact Hrun].
  - intros now farm weatherAlert kv' out u r Hrun Hin.
    unfold Notify.sendWeatherAlert in Hrun.
    eapply (for_users_results
              (λ e, Notify.delivered (snd e) = Notify.deliver now ["push"; "sms"])) in Hrun.
    + rewrite Forall_forall in Hrun. exact (Hrun _ Hin).
    + intros v kv0 r0. cbn [snd]. apply store_and_push_fixed. reflexivity.
    + apply Forall_nil. exact I.
  - intros now farm sensorAlert kv' out u r Hrun Hin.
    unfold Notify.sendSensorAlert in Hrun.
    eapply (for_users_results
              (λ e, Notify.delivered (snd e) = Notify.deliver now ["push"])) in Hrun.
    + rewrite Forall_forall in Hrun. exact (Hrun _ Hin).
    + intros v kv0 r0. cbn [snd]. apply store_and_push_fixed. reflexivity.
    + apply Forall_nil. exact I.
Qed.

(** The re-subscription theorem at user u1, who subscribes for push and then
    for email: the price alert that follows is delivered by email only. *)
Lemma resubscribe_replaces_channels_witness :
  let report :=
    {| Notify.stored := true;
       Notify.delivered := [("email", Notify.sent Notify.sample_clock "email")];
       Notify.notificationId := "price_1709633700000_u1" |} in
  snd (Notify.sendPriceAlert (λ _, "n") Notify.sample_clock "tomatoes"
         Notify.sample_price Notify.sample_resubscribed)
  = JS.Returned [("u1", report)]
  ∧ Notify.delivered report = Notify.deliver Notify.sample_clock ["email"].
Proof.
  intros report.
  assert (Hrun : snd (Notify.sendPriceAlert (λ _, "n") Notify.sample_clock "tomatoes"
                        Notify.sample_price Notify.sample_resubscribed)
                 = JS.Returned [("u1", report)])
    by (vm_compute; reflexivity).
  split; [exact Hrun|].
  destruct (resubscribe_replaces_channels (λ _, "n") Notify.sample_clock Notify.sample_clock
              Notify.sample_first_request Notify.sample_second_request
              Notify.sample_store eq_refl) as (_ & _ & Hlater).
  destruct (Hlater Notify.sample_resubscribed eq_refl) as (Hprice & _).
  apply (Hprice Notify.sample_clock "tomatoes" Notify.sample_price
           (fst (Notify.sendPriceAlert (λ _, "n") Notify.sample_clock "tomatoes"
                   Notify.sample_price Notify.sample_resubscribed))
           [("u1", report)] report).
  - rewrite <- Hrun. apply surjective_pairing.
  - apply list_elem_of_In. left. reflexivity.
Defined.

(** C9 as stated fails: after u1 subscribes for push and then for email, a
    weather alert for the farm is still delivered by push and sms, the fixed
    channels of weather alerts, not by the email of the later subscription. *)
Lemma weather_alert_ignores_subscription_channels :
  (Notify.sub_channels
     <$> Notify.get_subscription (Notify.subscription_key "u1") Notify.sample_resubscribed)
  = Some ["email"]
  ∧ ∃ r, snd (Notify.sendWeatherAlert Notify.sample_clock "farm1" Notify.sample_weather
                Notify.sample_resubscribed)
         = JS.Returned [("u1", r)]
         ∧ map fst (Notify.delivered r) = ["push"; "sms"]
         ∧ Notify.delivered r ≠ Notify.deliver Notify.sample_clock ["email"].
Proof.
  split; [vm_compute; reflexivity|].
  eexists. split; [vm_compute; reflexivity|].
  split; [reflexivity|]. vm_compute. discriminate.
Qed.

(** ** Heat index *)

Section HeatIndex.
Import JS Weather.
Local Open Scope Q_scope.

Lemma square_shift_nonneg (t c : Q) : 0 <= (t - c) * (t - c).
Proof.
  destruct (Qlt_le_dec t c); [|apply Qmult_le_0_compat; lra].
  assert (E : (t - c) * (t - c) == (c - t) * (c - t)) by ring.
  rewrite E. apply Qmult_le_0_compat; lra.
Qed.

(** From 50 % humidity upwards the polynomial stays above the temperature. *)
Lemma heat_polynomial_above (temp humidity : Q) :
  27 <= temp → 50 <= humidity → humidity <= 100 →
  temp + 0.4 <= heat_polynomial temp humidity.
Proof.
  intros HT H1 H2. unfold heat_polynomial.
  pose (t := temp - 27).
  assert (Ht : 0 <= t) by (unfold t; lra).
  assert (HA : 0.089 <= -0.012308094 + 0.002211732 * humidity
                        + -0.000003582 * humidity * humidity) by nra.
  assert (HD : -0.058 <= 54 * (-0.012308094 + 0.002211732 * humidity
                               + -0.000003582 * humidity * humidity)
                         + (1.61139411 + -0.14611605 * humidity
                            + 0.00072546 * humidity * humidity) - 1) by nra.
  assert (HE : 0.417 <= (-0.012308094 + 0.002211732 * humidity
                         + -0.000003582 * humidity * humidity) * 729
                        + (1.61139411 + -0.14611605 * humidity
                           + 0.00072546 * humidity * humidity) * 27
                        + (-8.78469475556 + 2.33854883889 * humidity
                           + -0.0164248277778 * humidity * humidity) - 27) by nra.
  assert (HT2 : 0 <= t * t) by nra.
  assert (P1 : 0 <= ((-0.012308094 + 0.002211732 * humidity
                      + -0.000003582 * humidity * humidity) - 0.089) * (t * t))
    by (apply Qmult_le_0_compat; lra).
  assert (P2 : 0 <= (54 * (-0.012308094 + 0.002211732 * humidity
                           + -0.000003582 * humidity * humidity)
                     + (1.61139411 + -0.14611605 * humidity
                        + 0.00072546 * humidity * humidity) - 1 + 0.058) * t)
    by (apply Qmult_le_0_compat; lra).
  pose proof (square_shift_nonneg t (1 # 3)) as SQ.
  assert (P3 : 0 <= 0.089 * (t * t) - 0.058 * t + 0.017) by nra.
  unfold t in *. clear t. lra.
Qed.

Lemma Math_round_near (x : Q) :
  x - (1 # 2) < inject_Z (Math_round x) ∧ inject_Z (Math_round x) <= x + (1 # 2).
Proof.
  unfold Math_round.
  pose proof (Qfloor_le (x + (1 # 2))) as Hle.
  pose proof (Qlt_floor (x + (1 # 2))) as Hlt.
  rewrite inject_Z_plus in Hlt. change (inject_Z 1) with 1 in Hlt.
  split; lra.
Qed.

End HeatIndex.

(** C3, as the code has it.  Below 27 the heat index is the temperature
    itself.  From 27 upwards it is the regression polynomial rounded to the
    nearest integer, a finite whole number within 1/2 of the polynomial.  For
    humidity between 50 and 100 that number is above the temperature less
    1/10, hence at least the temperature when the temperature is a whole
    number; the polynomial gives no such bound at lower humidity. *)
Theorem heat_index_spec (temp humidity : Q) :
  ((temp < 27)%Q → Weather.calculateHeatIndex temp humidity = temp)
  ∧ ((27 <= temp)%Q →
     ∃ n : Z,
       Weather.calculateHeatIndex temp humidity = inject_Z n
       ∧ (Weather.heat_polynomial temp humidity - (1 # 2) < inject_Z n)%Q
       ∧ (inject_Z n <= Weather.heat_polynomial temp humidity + (1 # 2))%Q
       ∧ ((50 <= humidity)%Q → (humidity <= 100)%Q →
          (temp - (1 # 10) < inject_Z n)%Q
          ∧ ∀ z : Z, (temp == inject_Z z)%Q → (temp <= inject_Z n)%Q)).
Proof.
  unfold Weather.calculateHeatIndex. split.
  - intros Hlt. apply Qltb_true in Hlt. rewrite Hlt. reflexivity.
  - intros Hge. apply Qltb_false in Hge. rewrite Hge.
    exists (JS.Math_round (Weather.heat_polynomial temp humidity)).
    pose proof (Math_round_near (Weather.heat_polynomial temp humidity)) as [Hlo Hhi].
    split; [reflexivity|]. split; [exact Hlo|]. split; [exact Hhi|].
    intros H1 H2.
    pose proof (heat_polynomial_above temp humidity
                  ltac:(apply Qltb_false; exact Hge) H1 H2) as Habove.
    split; [lra|].
    intros z Hz.
    set (n := JS.Math_round (Weather.heat_polynomial temp humidity)) in *.
    assert (Hz1 : (inject_Z (z + -1) < inject_Z n)%Q).
    { rewrite inject_Z_plus. change (inject_Z (-1)) with (-1)%Q. lra. }
    rewrite <- Zlt_Qlt in Hz1.
    assert (Hz2 : (inject_Z z <= inject_Z n)%Q) by (rewrite <- Zle_Qle; lia).
    lra.
Qed.

(** The heat-index theorem at 30 degrees and 60 % humidity. *)
Lemma heat_index_spec_witness :
  (30 <= Weather.calculateHeatIndex 30 60)%Q.
Proof.
  destruct (heat_index_spec 30 60) as [_ Hhot].
  assert (H27 : (27 <= 30)%Q) by lra.
  assert (H50 : (50 <= 60)%Q) by lra.
  assert (H100 : (60 <= 100)%Q) by lra.
  destruct (Hhot H27) as (n & Hn & _ & _ & Hhumid).
  rewrite Hn.
  destruct (Hhumid H50 H100) as [_ Hwhole].
  apply (Hwhole 30%Z). apply Qeq_refl.
Defined.

(** C3 as stated fails: at 30 degrees and 30 % humidity the polynomial is
    about 28.75 and the heat index is 29, below the temperature. *)
Lemma heat_index_below_temperature :
  (27 <= 30)%Q ∧ (0 <= 30)%Q ∧ (30 <= 100)%Q
  ∧ Weather.calculateHeatIndex 30 30 = 29%Q
  ∧ ¬ (30 <= Weather.calculateHeatIndex 30 30)%Q.
Proof.
  assert (H : Weather.calculateHeatIndex 30 30 = 29%Q) by (vm_compute; reflexivity).
  rewrite H.
  split; [lra|]. split; [lra|]. split; [lra|]. split; [reflexivity|lra].
Qed.

(** ** Dew point *)

Section Specials.
Import Num.
Local Open Scope R_scope.

Lemma jdiv_fin (x y : R) : y ≠ 0 → jdiv (Fin x) (Fin y) = Fin (x / y).
Proof.
  intros Hy. unfold jdiv. destruct (Req_dec_T y 0) as [E|_]; [contradiction|reflexivity].
Qed.

End Specials.

Section DewPoint.
Import JS Double F64 Weather.
Local Open Scope Q_scope.

Lemma pow2_m53 : pow2 (-53) == u.
Proof. reflexivity. Qed.

(** Rounding within [u * B] of a number bounded by [B]. *)
Lemma double_within (x B : Q) :
  - B <= x → x <= B → x - u * B <= double x ∧ double x <= x + u * B.
Proof.
  intros Hlo Hhi. pose proof (double_relative x) as H. rewrite pow2_m53 in H.
  assert (Ha : Qabs x <= B) by (apply Qabs_Qle_condition; split; assumption).
  apply Qabs_Qle_condition in H.
  assert (Hu : 0 < u) by reflexivity.
  assert (H0 : 0 <= Qabs x) by apply Qabs_nonneg.
  set (A := Qabs x) in *. split; nra.
Qed.

Lemma double_scale_pos (x : Q) : 0 <= x → x * (1 - u) <= double x ∧ double x <= x * (1 + u).
Proof.
  intros Hx. pose proof (double_relative x) as H. rewrite pow2_m53 in H.
  rewrite (Qabs_pos x) in H by exact Hx.
  apply Qabs_Qle_condition in H. split; lra.
Qed.

Lemma double_scale_neg (x : Q) : x <= 0 → x * (1 + u) <= double x ∧ double x <= x * (1 - u).
Proof.
  intros Hx. pose proof (double_relative x) as H. rewrite pow2_m53 in H.
  rewrite (Qabs_neg x) in H by exact Hx.
  apply Qabs_Qle_condition in H. split; lra.
Qed.

Lemma double_positive (x : Q) : 0 < x → 0 < double x.
Proof. intros Hx. rewrite (double_pos x Hx). apply round_pos_pos, Hx. Qed.

Lemma double_fixed (x : Q) : double (double x) == double x.
Proof. apply double_idem. Qed.

(** The first quotient of the formula, rounded, against its exact value. *)
Lemma magnus_ratio_upper (c1 c2 T g : Q) :
  17.26 <= c1 → c1 <= 17.28 → 237.6 <= c2 → c2 <= 237.8 → -100 <= T → T <= 100 →
  g * (c2 + T) == c1 * T →
  0 < double (c2 + T)
  ∧ double (double (c1 * T) / double (c2 + T)) <= g + 100 * u.
Proof.
  intros Hc1 Hc1' Hc2 Hc2' HT HT' Hg.
  assert (Hu : 0 < u) by reflexivity.
  assert (Hu' : u <= 1 # 1000000000000000) by (unfold u; unfold Qle; simpl; lia).
  set (S := c2 + T) in *. set (P := c1 * T) in *.
  assert (HS : 137.6 <= S ∧ S <= 337.8) by (unfold S; split; lra).
  assert (HP : -1728 <= P ∧ P <= 1728) by (unfold P; split; nra).
  destruct (double_within S 338) as [Hs1 Hs2]; [lra | lra |].
  destruct (double_within P 1728) as [Hp1 Hp2]; [lra | lra |].
  set (s := double S) in *. set (p := double P) in *.
  assert (Hs : 137.5 <= s) by lra.
  split; [lra|].
  set (gq := p / s).
  assert (Hgq : gq * s == p) by (unfold gq; field; lra).
  assert (Hgq13 : -13 <= gq ∧ gq <= 13).
  { split.
    - apply Qle_shift_div_l; [lra | nra].
    - apply Qle_shift_div_r; [lra | nra]. }
  destruct (double_within gq 13) as [_ Hd]; [lra | lra |].
  assert (Hdiff : gq <= g + 62 * u).
  { assert (Hprod : 0 <= (g + 62 * u - gq) * (s * S)).
    { setoid_replace ((g + 62 * u - gq) * (s * S))
        with (P * s + 62 * u * (s * S) - p * S) using relation Qeq
        by (rewrite <- Hg, <- Hgq; ring).
      assert (HsS : 18900 <= s * S) by nra.
      assert (H1 : - (1728 * u * 338) <= P * s - P * S) by nra.
      assert (H2 : - (1728 * u * 338) <= P * S - p * S) by nra.
      nra. }
    assert (HsS : 0 < s * S) by nra.
    destruct (Qlt_le_dec (g + 62 * u) gq) as [Hlt|Hle]; [|exact Hle].
    exfalso. assert (0 < (gq - (g + 62 * u)) * (s * S)) by (apply Qmult_lt_0_compat; lra).
    lra. }
  lra.
Qed.
(** The last quotient of the formula: from [X <= B * Y] on the exact
    numerator and denominator to the rounded quotient. *)
Lemma rounded_quotient_upper (X Y B : Q) :
  12 <= Y → -101 <= B → B <= 101 → X <= B * Y →
  0 < double Y ∧ double (double X / double Y) <= B + 1000 * u.
Proof.
  intros HY HB HB' HX.
  assert (Hu : 0 < u) by reflexivity.
  assert (Hu' : u <= 1 # 1000000000000000) by (unfold u; unfold Qle; simpl; lia).
  destruct (double_scale_pos Y ltac:(lra)) as [Hm1 Hm2].
  set (m := double Y) in *.
  assert (Hm : 0 < m) by nra.
  split; [exact Hm|].
  set (q := double X / m).
  assert (Hq : q * m == double X) by (unfold q; field; lra).
  assert (Huu : 0 <= u * u) by nra.
  assert (Huu' : u * u <= u) by nra.
  destruct (Qlt_le_dec X 0) as [Hneg|Hpos].
  - destruct (double_scale_neg X ltac:(lra)) as [_ Hn].
    set (n := double X) in *.
    assert (Hn0 : n <= 0) by nra.
    assert (Hq0 : q <= 0) by (apply Qle_shift_div_r; [exact Hm | lra]).
    destruct (double_scale_neg q Hq0) as [_ Hd].
    destruct (Qlt_le_dec B 0) as [HBneg|HBpos].
    + assert (Hqb : q <= B * (1 - 3 * u)).
      { apply Qle_shift_div_r; [exact Hm|].
        set (w := B * Y) in *.
        assert (Hw : w <= 0) by (unfold w; nra).
        assert (H1 : n <= w * (1 - u)) by nra.
        assert (H2 : w * (1 + u) <= B * m) by (unfold w; nra).
        assert (H3 : w * (1 - u) <= (1 - 3 * u) * (w * (1 + u))).
        { setoid_replace ((1 - 3 * u) * (w * (1 + u))) with (w * (1 - u) + (- w) * (u + 3 * (u * u)))
            using relation Qeq by ring.
          assert (0 <= (- w) * (u + 3 * (u * u))) by (apply Qmult_le_0_compat; lra).
          lra. }
        assert (H4 : (1 - 3 * u) * (w * (1 + u)) <= (1 - 3 * u) * (B * m)) by nra.
        setoid_replace (B * (1 - 3 * u) * m) with ((1 - 3 * u) * (B * m))
          using relation Qeq by ring.
        lra. }
      assert (Hqu : q * (1 - u) <= B * (1 - 3 * u) * (1 - u))
        by (apply Qmult_le_compat_r; lra).
      assert (Hfin : B * (1 - 3 * u) * (1 - u) <= B + 1000 * u).
      { setoid_replace (B * (1 - 3 * u) * (1 - u)) with (B + (- B) * (4 * u - 3 * (u * u)))
          using relation Qeq by ring.
        assert ((- B) * (4 * u - 3 * (u * u)) <= 101 * (4 * u)); [|lra].
        apply Qmult_le_compat_nonneg; split; lra. }
      lra.
    + assert (q * (1 - u) <= 0 * (1 - u)) by (apply Qmult_le_compat_r; lra). lra.
  - destruct (double_scale_pos X Hpos) as [_ Hn].
    set (n := double X) in *.
    assert (HB0 : 0 <= B).
    { destruct (Qlt_le_dec B 0) as [Hlt|Hle]; [|exact Hle].
      exfalso. assert (B * Y < 0) by nra. lra. }
    assert (Hn0 : 0 <= n) by (apply double_nonneg, Hpos).
    assert (Hq0 : 0 <= q) by (apply Qle_shift_div_l; [exact Hm | lra]).
    destruct (double_scale_pos q Hq0) as [_ Hd].
    assert (Hqb : q <= B * (1 + 3 * u)).
    { apply Qle_shift_div_r; [exact Hm|].
      set (w := B * Y) in *.
      assert (Hw : 0 <= w) by (unfold w; nra).
      assert (H1 : n <= w * (1 + u)) by nra.
      assert (H2 : w * (1 - u) <= B * m) by (unfold w; nra).
      assert (H3 : w * (1 + u) <= (1 + 3 * u) * (w * (1 - u))).
      { setoid_replace ((1 + 3 * u) * (w * (1 - u))) with (w * (1 + u) + w * (u - 3 * (u * u)))
          using relation Qeq by ring.
        assert (0 <= w * (u - 3 * (u * u))) by (apply Qmult_le_0_compat; nra).
        lra. }
      assert (H4 : (1 + 3 * u) * (w * (1 - u)) <= (1 + 3 * u) * (B * m)) by nra.
      setoid_replace (B * (1 + 3 * u) * m) with ((1 + 3 * u) * (B * m))
        using relation Qeq by ring.
      lra. }
    assert (Hqu : q * (1 + u) <= B * (1 + 3 * u) * (1 + u))
      by (apply Qmult_le_compat_r; lra).
    assert (Hfin : B * (1 + 3 * u) * (1 + u) <= B + 1000 * u).
    { setoid_replace (B * (1 + 3 * u) * (1 + u)) with (B + B * (4 * u + 3 * (u * u)))
        using relation Qeq by ring.
      assert (B * (4 * u + 3 * (u * u)) <= 101 * (5 * u)); [|lra].
      apply Qmult_le_compat_nonneg; split; nra. }
    lra.
Qed.

(** The dew point of the formula, on finite numbers, is at most the
    temperature up to a billionth of a degree, whatever non-positive value
    the logarithm contributes. *)
Lemma magnus_upper (c1 c2 T L : Q) :
  17.26 <= c1 → c1 <= 17.28 → 237.6 <= c2 → c2 <= 237.8 → -100 <= T → T <= 100 →
  L <= 0 →
  let alpha := double (double (double (c1 * T) / double (c2 + T)) + L) in
  0 < double (c2 + T)
  ∧ 0 < double (c1 - alpha)
  ∧ double (double (c2 * alpha) / double (c1 - alpha)) <= T + (1 # 1000000000).
Proof.
  intros Hc1 Hc1' Hc2 Hc2' HT HT' HL alpha.
  assert (Hu : 0 < u) by reflexivity.
  assert (Hu' : u <= 1 # 1000000000000000) by (unfold u; unfold Qle; simpl; lia).
  set (g := c1 * T / (c2 + T)).
  assert (Hg : g * (c2 + T) == c1 * T) by (unfold g; field; lra).
  destruct (magnus_ratio_upper c1 c2 T g) as [Hs Hg']; try assumption.
  split; [exact Hs|].
  set (g' := double (double (c1 * T) / double (c2 + T))) in *.
  assert (Ha : alpha <= g').
  { unfold alpha. apply (Qle_trans _ (double g')); [apply double_mono; lra|].
    unfold g'. rewrite double_fixed. lra. }
  (* c1 - g = c1 c2 / (c2 + T) >= 12.1 *)
  assert (Hgap : 12.1 <= c1 - g).
  { assert (Hprod : (c1 - g) * (c2 + T) == c1 * c2).
    { setoid_replace ((c1 - g) * (c2 + T)) with (c1 * (c2 + T) - g * (c2 + T))
        using relation Qeq by ring.
      rewrite Hg. ring. }
    destruct (Qlt_le_dec (c1 - g) 12.1) as [Hlt|Hle]; [|exact Hle].
    exfalso. assert (4100 <= c1 * c2) by nra.
    assert ((c1 - g) * (c2 + T) <= 12.1 * 337.8).
    { destruct (Qlt_le_dec (c1 - g) 0); nra. }
    lra. }
  assert (HK : c2 * alpha <= (T + (1 # 100000000000)) * (c1 - alpha)).
  { set (t0 := 1 # 100000000000).
    assert (Hexact : T * (c1 - g) == c2 * g).
    { assert (E : (T * (c1 - g) - c2 * g) * (c2 + T) == 0).
      { setoid_replace ((T * (c1 - g) - c2 * g) * (c2 + T))
          with (T * c1 * (c2 + T) - (T + c2) * (g * (c2 + T))) using relation Qeq by ring.
        rewrite Hg. ring. }
      apply Qmult_integral in E. destruct E as [E|E]; lra. }
    assert (HG : c2 * (g + 100 * u) <= (T + t0) * (c1 - (g + 100 * u))).
    { unfold t0, u in *. lra. }
    assert (Hmono : (T + t0 + c2) * alpha <= (T + t0 + c2) * (g + 100 * u)).
    { apply Qmult_le_l; [unfold t0; lra | lra]. }
    lra. }
  destruct (rounded_quotient_upper (c2 * alpha) (c1 - alpha) (T + (1 # 100000000000)))
    as [Hm Hd]; [lra | lra | lra | exact HK |].
  split; [exact Hm|]. lra.
Qed.
(** The same three steps from below. *)
Lemma magnus_ratio_lower (c1 c2 T g : Q) :
  17.26 <= c1 → c1 <= 17.28 → 237.6 <= c2 → c2 <= 237.8 → -100 <= T → T <= 100 →
  g * (c2 + T) == c1 * T →
  g - 100 * u <= double (double (c1 * T) / double (c2 + T)).
Proof.
  intros Hc1 Hc1' Hc2 Hc2' HT HT' Hg.
  assert (Hu : 0 < u) by reflexivity.
  assert (Hu' : u <= 1 # 1000000000000000) by (unfold u; unfold Qle; simpl; lia).
  set (S := c2 + T) in *. set (P := c1 * T) in *.
  assert (HS : 137.6 <= S ∧ S <= 337.8) by (unfold S; split; lra).
  assert (HP : -1728 <= P ∧ P <= 1728) by (unfold P; split; nra).
  destruct (double_within S 338) as [Hs1 Hs2]; [lra | lra |].
  destruct (double_within P 1728) as [Hp1 Hp2]; [lra | lra |].
  set (s := double S) in *. set (p := double P) in *.
  assert (Hs : 137.5 <= s) by lra.
  set (gq := p / s).
  assert (Hgq : gq * s == p) by (unfold gq; field; lra).
  assert (Hgq13 : -13 <= gq ∧ gq <= 13).
  { split.
    - apply Qle_shift_div_l; [lra | nra].
    - apply Qle_shift_div_r; [lra | nra]. }
  destruct (double_within gq 13) as [Hd _]; [lra | lra |].
  assert (Hdiff : g - 62 * u <= gq).
  { assert (Hprod : 0 <= (gq - (g - 62 * u)) * (s * S)).
    { setoid_replace ((gq - (g - 62 * u)) * (s * S))
        with (p * S + 62 * u * (s * S) - P * s) using relation Qeq
        by (rewrite <- Hg, <- Hgq; ring).
      assert (HsS : 18900 <= s * S) by nra.
      assert (H1 : - (1728 * u * 338) <= P * S - P * s) by nra.
      assert (H2 : - (1728 * u * 338) <= p * S - P * S) by nra.
      nra. }
    assert (HsS : 0 < s * S) by nra.
    destruct (Qlt_le_dec gq (g - 62 * u)) as [Hlt|Hle]; [|exact Hle].
    exfalso. assert (0 < (g - 62 * u - gq) * (s * S)) by (apply Qmult_lt_0_compat; lra).
    lra. }
  lra.
Qed.

Lemma rounded_quotient_lower (X Y B : Q) :
  12 <= Y → -101 <= B → B <= 101 → B * Y <= X →
  B - 1000 * u <= double (double X / double Y).
Proof.
  intros HY HB HB' HX.
  assert (Hopp : - double (double X / double Y) == double (double (- X) / double Y)).
  { rewrite <- double_opp.
    rewrite (double_comp (- (double X / double Y)) (double (- X) / double Y)); [reflexivity|].
    rewrite double_opp. field.
    destruct (double_scale_pos Y ltac:(lra)) as [Hm1 _].
    assert (Hu : 0 < u) by reflexivity.
    assert (Hu' : u <= 1 # 1000000000000000) by (unfold u; unfold Qle; simpl; lia).
    nra. }
  destruct (rounded_quotient_upper (- X) Y (- B)) as [_ H]; [lra | lra | lra | lra |].
  rewrite <- Hopp in H. lra.
Qed.

(** At saturation the logarithm contributes nothing and the dew point of the
    formula is the temperature to within a billionth of a degree. *)
Lemma magnus_saturated (c1 c2 T : Q) :
  17.26 <= c1 → c1 <= 17.28 → 237.6 <= c2 → c2 <= 237.8 → -100 <= T → T <= 100 →
  let alpha := double (double (double (c1 * T) / double (c2 + T)) + 0) in
  T - (1 # 1000000000) <= double (double (c2 * alpha) / double (c1 - alpha)).
Proof.
  intros Hc1 Hc1' Hc2 Hc2' HT HT' alpha.
  assert (Hu : 0 < u) by reflexivity.
  assert (Hu' : u <= 1 # 1000000000000000) by (unfold u; unfold Qle; simpl; lia).
  set (g := c1 * T / (c2 + T)).
  assert (Hg : g * (c2 + T) == c1 * T) by (unfold g; field; lra).
  pose proof (magnus_ratio_lower c1 c2 T g Hc1 Hc1' Hc2 Hc2' HT HT' Hg) as Hlo.
  destruct (magnus_ratio_upper c1 c2 T g) as [Hs Hhi]; try assumption.
  set (g' := double (double (c1 * T) / double (c2 + T))) in *.
  assert (Ha : alpha == g').
  { unfold alpha. rewrite (double_comp (g' + 0) g') by ring.
    unfold g'. apply double_fixed. }
  assert (Hprod : (c1 - g) * (c2 + T) == c1 * c2).
  { setoid_replace ((c1 - g) * (c2 + T)) with (c1 * (c2 + T) - g * (c2 + T))
      using relation Qeq by ring.
    rewrite Hg. ring. }
  assert (Hgap : 12.1 <= c1 - g).
  { destruct (Qlt_le_dec (c1 - g) 12.1) as [Hlt|Hle]; [|exact Hle].
    exfalso. assert (4100 <= c1 * c2) by nra.
    assert ((c1 - g) * (c2 + T) <= 12.1 * 337.8).
    { destruct (Qlt_le_dec (c1 - g) 0); nra. }
    lra. }
  assert (HK : (T - (1 # 100000000000)) * (c1 - alpha) <= c2 * alpha).
  { set (t0 := 1 # 100000000000).
    assert (Hexact : T * (c1 - g) == c2 * g).
    { assert (E : (T * (c1 - g) - c2 * g) * (c2 + T) == 0).
      { setoid_replace ((T * (c1 - g) - c2 * g) * (c2 + T))
          with (T * c1 * (c2 + T) - (T + c2) * (g * (c2 + T))) using relation Qeq by ring.
        rewrite Hg. ring. }
      apply Qmult_integral in E. destruct E as [E|E]; lra. }
    assert (HG : (T - t0) * (c1 - (g - 100 * u)) <= c2 * (g - 100 * u)).
    { unfold t0, u in *. lra. }
    assert (Hmono : (T - t0 + c2) * (g - 100 * u) <= (T - t0 + c2) * alpha).
    { apply Qmult_le_l; [unfold t0; lra | lra]. }
    lra. }
  pose proof (rounded_quotient_lower (c2 * alpha) (c1 - alpha) (T - (1 # 100000000000))
                ltac:(lra) ltac:(lra) ltac:(lra) HK) as Hd.
  lra.
Qed.

Lemma div_fin (a b : Q) : 0 < b → div (Fin a) (Fin b) = Fin (Double.div a b).
Proof.
  intros Hb. unfold div.
  destruct (Qeq_bool b 0) eqn:E; [|reflexivity].
  apply Qeq_bool_iff in E. lra.
Qed.

Lemma log_fin (ln : Q → Q) (q : Q) : 0 < q → log ln (Fin q) = Fin (ln q).
Proof.
  intros Hq. unfold log. apply Qltb_true in Hq. rewrite Hq. reflexivity.
Qed.

Lemma magnus_constants :
  17.26 <= double 17.27 ∧ double 17.27 <= 17.28
  ∧ 237.6 <= double 237.7 ∧ double 237.7 <= 237.8.
Proof. repeat split; vm_compute; discriminate. Qed.

(** The dew point on finite numbers, once the three divisors are known to be
    positive. *)
Lemma dew_point_finite (ln : Q → Q) (temp humidity : Q) :
  let alpha :=
    double (double (double (double 17.27 * temp) / double (double 237.7 + temp))
            + ln (double (humidity / 100))) in
  0 < double (double 237.7 + temp) →
  0 < double (humidity / 100) →
  0 < double (double 17.27 - alpha) →
  calculateDewPoint ln temp humidity
  = Fin (double (double (double 237.7 * alpha) / double (double 17.27 - alpha))).
Proof.
  intros alpha Hs Hr Hm. unfold calculateDewPoint.
  assert (E : add (div (mul (Fin (double 17.27)) (Fin temp))
                       (add (Fin (double 237.7)) (Fin temp)))
                  (log ln (div (Fin humidity) (Fin 100)))
              = Fin alpha).
  { cbn [mul add]. unfold Double.mul, Double.add at 1.
    rewrite (div_fin _ _ Hs), (div_fin humidity 100) by reflexivity.
    unfold Double.div. rewrite (log_fin ln _ Hr). reflexivity. }
  cbv zeta. rewrite E. cbn [mul sub neg add]. unfold Double.mul, Double.add.
  change (double 17.27 + - alpha) with (double 17.27 - alpha).
  rewrite (div_fin _ _ Hm). reflexivity.
Qed.

End DewPoint.

(** C7, as the code has it.  For a temperature between -100 and 100 degrees
    and a humidity with 0 < humidity <= 100, the dew point computed by the
    Magnus formula in doubles is a finite number that exceeds the temperature
    by less than a billionth of a degree, whatever [Math.log] returns as long
    as it is not positive on (0, 1]. *)
Theorem dew_point_at_most_temperature (ln : Q → Q) (temp humidity : Q) :
  (∀ x, 0 < x → x <= 1 → ln x <= 0)%Q →
  (-100 <= temp)%Q → (temp <= 100)%Q → (0 < humidity)%Q → (humidity <= 100)%Q →
  ∃ d, Weather.calculateDewPoint ln temp humidity = F64.Fin d
       ∧ (d <= temp + (1 # 1000000000))%Q.
Proof.
  intros Hln Ht Ht' Hh Hh'.
  destruct magnus_constants as (Hc1 & Hc1' & Hc2 & Hc2').
  assert (Hr : (0 < Double.double (humidity / 100))%Q).
  { apply double_positive. apply Qlt_shift_div_l; lra. }
  assert (Hr1 : (Double.double (humidity / 100) <= 1)%Q).
  { apply (Qle_trans _ (Double.double 1)); [|vm_compute; discriminate].
    apply double_mono. apply Qle_shift_div_r; lra. }
  pose proof (Hln _ Hr Hr1) as HL.
  destruct (magnus_upper (Double.double 17.27) (Double.double 237.7) temp
              (ln (Double.double (humidity / 100))) Hc1 Hc1' Hc2 Hc2' Ht Ht' HL)
    as (Hs & Hm & Hd).
  eexists. split; [apply dew_point_finite; assumption | exact Hd].
Qed.

(** The dew-point theorem at 25 degrees and 60 % humidity. *)
Lemma dew_point_at_most_temperature_witness :
  ∃ d, Weather.calculateDewPoint Weather.sample_log 25 60 = F64.Fin d
       ∧ (d <= 25 + (1 # 1000000000))%Q.
Proof.
  apply (dew_point_at_most_temperature Weather.sample_log 25 60).
  - intros x Hx Hx1. unfold Weather.sample_log.
    apply (Qle_trans _ (Double.double 0)); [apply double_mono; lra | vm_compute; discriminate].
  - vm_compute; discriminate.
  - vm_compute; discriminate.
  - reflexivity.
  - vm_compute; discriminate.
Defined.

(** C7 as stated fails: at 0 % humidity [Math.log(0)] is -Infinity, the
    quotient is -Infinity / Infinity, and the dew point is NaN, which is not
    less than or equal to any temperature. *)
Lemma dew_point_nan_at_zero_humidity :
  (0 <= 0 <= 100)%Q
  ∧ (∀ ln, Weather.calculateDewPoint ln 20 0 = F64.NaN)
  ∧ (∀ ln, ¬ F64.le (Weather.calculateDewPoint ln 20 0) (F64.Fin 20)).
Proof.
  assert (H : ∀ ln, Weather.calculateDewPoint ln 20 0 = F64.NaN)
    by (intros ln; vm_compute; reflexivity).
  split; [split; discriminate|]. split; [exact H|].
  intros ln. rewrite H. intros F. exact F.
Qed.

(** C7 as stated also fails at the other end of the humidity range, by
    rounding: at 21 degrees and 100 % humidity the logarithm is 0 and the
    doubles give 21.000000000000004, above the temperature. *)
Lemma dew_point_above_temperature_at_saturation (ln : Q → Q) :
  ln 1%Q = 0%Q →
  Weather.calculateDewPoint ln 21 100 = F64.Fin (5910974510923777 # 281474976710656)
  ∧ (21 < 5910974510923777 # 281474976710656)%Q.
Proof.
  intros Hln. split; [|reflexivity].
  unfold Weather.calculateDewPoint.
  change (F64.div (F64.Fin 100) (F64.Fin 100)) with (F64.Fin 1).
  cbn [F64.log]. change (JS.Qltb 0 1) with true. cbv iota. rewrite Hln.
  vm_compute. reflexivity.
Qed.

(** At the double nearest to -237.7 degrees the first quotient divides by
    zero and the dew point is NaN for every humidity above zero. *)
Lemma dew_point_nan_at_pole (ln : Q → Q) (humidity : Q) :
  (0 < humidity)%Q →
  Weather.calculateDewPoint ln (Double.double (-237.7)) humidity = F64.NaN.
Proof.
  intros Hh.
  assert (Hr : (0 < Double.double (humidity / 100))%Q).
  { apply double_positive. apply Qlt_shift_div_l; lra. }
  unfold Weather.calculateDewPoint. cbv zeta.
  rewrite (div_fin humidity 100) by reflexivity. unfold Double.div.
  rewrite (log_fin ln _ Hr).
  change (F64.div (F64.mul (F64.Fin (Double.double 17.27))
                           (F64.Fin (Double.double (-237.7))))
                  (F64.add (F64.Fin (Double.double 237.7))
                           (F64.Fin (Double.double (-237.7)))))
    with F64.NInf.
  reflexivity.
Qed.

(** Far above every air temperature the formula breaks down as well: at
    1e20 degrees and 100 % humidity the first quotient rounds to the first
    constant, the last division is by zero and the dew point is Infinity. *)
Lemma dew_point_infinite_at_huge_temperature (ln : Q → Q) :
  ln 1%Q = 0%Q →
  Weather.calculateDewPoint ln 100000000000000000000 100 = F64.PInf.
Proof.
  intros Hln.
  unfold Weather.calculateDewPoint.
  change (F64.div (F64.Fin 100) (F64.Fin 100)) with (F64.Fin 1).
  cbn [F64.log]. change (JS.Qltb 0 1) with true. cbv iota. rewrite Hln.
  vm_compute. reflexivity.
Qed.

(** ** Market trend classification *)

Section MarketTrend.
Import Num Market.
Local Open Scope R_scope.

Lemma jltb_fin_true (a b : R) : jltb (Fin a) (Fin b) = true ↔ a < b.
Proof.
  unfold jltb. destruct (Rlt_dec a b); split; intros; (assumption || reflexivity || discriminate || contradiction).
Qed.

Lemma jltb_fin_false (a b : R) : jltb (Fin a) (Fin b) = false ↔ b <= a.
Proof.
  unfold jltb. destruct (Rlt_dec a b); split; intros; try reflexivity; try discriminate; lra.
Qed.

Lemma percent_change_fin (last first : R) :
  first ≠ 0 → percent_change last first = Fin ((last - first) / first * 100).
Proof.
  intros Hf. unfold percent_change. rewrite jdiv_fin by exact Hf. reflexivity.
Qed.

(** With a positive first price, percentages are ratios. *)
Lemma percent_as_ratio (last first : R) :
  0 < first →
  ((last - first) / first * 100 > 5 ↔ last > 1.05 * first)
  ∧ ((last - first) / first * 100 < -5 ↔ last < 0.95 * first).
Proof.
  intros Hf.
  assert (E : (last - first) / first * 100 = (last / first - 1) * 100)
    by (field; lra).
  rewrite E.
  assert (Hq : last = last / first * first) by (field; lra).
  split; split; intros H.
  - rewrite Hq. apply Rlt_gt. apply Rmult_lt_compat_r; lra.
  - assert (1.05 < last / first); [|lra].
    apply (Rmult_lt_reg_r first); [exact Hf|]. rewrite <- Hq. lra.
  - rewrite Hq at 1. apply Rmult_lt_compat_r; lra.
  - assert (last / first < 0.95); [|lra].
    apply (Rmult_lt_reg_r first); [exact Hf|]. rewrite <- Hq. lra.
Qed.

Lemma long_enough (data : list PricePoint) :
  (2 ≤ length data)%nat → (length data <? 2)%nat = false.
Proof. intros H. apply Nat.ltb_ge. exact H. Qed.

(** The trend of the two services as a function of the net change. *)
Lemma trend_full_cases (historicalData : list PricePoint) :
  (2 ≤ length historicalData)%nat →
  let prices := map price historicalData in
  let first := List.hd 0 prices in
  let last := List.last prices 0 in
  first ≠ 0 →
  trend (analyzePriceTrends historicalData)
  = if Rlt_dec 5 ((last - first) / first * 100) then "bullish"
    else if Rlt_dec ((last - first) / first * 100) (-5) then "bearish"
    else if jgtb (volatility_of prices) (Fin 15) then "volatile"
    else "stable".
Proof.
  intros Hlen prices first last Hfirst.
  unfold analyzePriceTrends. rewrite (long_enough historicalData Hlen).
  cbn [trend]. fold prices. fold first. fold last.
  rewrite (percent_change_fin last first Hfirst).
  unfold jgtb at 1. unfold jltb at 1 2.
  destruct (Rlt_dec 5 _); [reflexivity|].
  destruct (Rlt_dec _ (-5)); reflexivity.
Qed.

Lemma trend_simple_cases (random : R) (historicalData : list PricePoint) :
  (2 ≤ length historicalData)%nat →
  let prices := map price historicalData in
  let first := List.hd 0 prices in
  let last := List.last prices 0 in
  first ≠ 0 →
  trend (analyzePriceTrends_simple random historicalData)
  = if Rlt_dec 5 ((last - first) / first * 100) then "bullish"
    else if Rlt_dec ((last - first) / first * 100) (-5) then "bearish"
    else "stable".
Proof.
  intros Hlen prices first last Hfirst.
  unfold analyzePriceTrends_simple. rewrite (long_enough historicalData Hlen).
  cbn [trend]. fold prices. fold first. fold last.
  rewrite (percent_change_fin last first Hfirst).
  unfold jgtb at 1. unfold jltb at 1 2.
  destruct (Rlt_dec 5 _); [reflexivity|].
  destruct (Rlt_dec _ (-5)); reflexivity.
Qed.

End MarketTrend.

(** C5, as the code has it.  For a series of at least two samples with a
    positive first price, both market services answer 'bullish' exactly when
    the net change from the first to the last price exceeds +5 % (the last
    price is above 1.05 times the first) and 'bearish' exactly when it is
    below -5 %, whatever the prices in between.  Otherwise the shorter
    service answers 'stable'; the service with the volatility analysis
    answers 'volatile' when the coefficient of variation of the series
    exceeds 15 %, and 'stable' when it does not. *)
Theorem trend_classification (random : R) (historicalData : list Market.PricePoint) :
  (2 ≤ length historicalData)%nat →
  let prices := map Market.price historicalData in
  let first := List.hd 0%R prices in
  let last := List.last prices 0%R in
  (0 < first)%R →
  let change := ((last - first) / first * 100)%R in
  let simple := Market.trend (Market.analyzePriceTrends_simple random historicalData) in
  let full := Market.trend (Market.analyzePriceTrends historicalData) in
  ((change > 5)%R ↔ (last > 1.05 * first)%R)
  ∧ ((change < -5)%R ↔ (last < 0.95 * first)%R)
  ∧ (simple = "bullish" ↔ (change > 5)%R)
  ∧ (simple = "bearish" ↔ (change < -5)%R)
  ∧ (simple = "stable" ↔ (-5 <= change <= 5)%R)
  ∧ (full = "bullish" ↔ (change > 5)%R)
  ∧ (full = "bearish" ↔ (change < -5)%R)
  ∧ ((-5 <= change <= 5)%R →
     full = if Num.jgtb (Market.volatility_of prices) (Num.Fin 15)
            then "volatile" else "stable").
Proof.
  intros Hlen prices first last Hfirst change simple full.
  destruct (percent_as_ratio last first Hfirst) as [Hup Hdown].
  split; [exact Hup|]. split; [exact Hdown|].
  assert (Hne : first ≠ 0%R) by lra.
  subst simple full.
  rewrite (trend_simple_cases random historicalData Hlen Hne).
  rewrite (trend_full_cases historicalData Hlen Hne).
  fold prices. fold first. fold last. fold change.
  destruct (Rlt_dec 5 change) as [H5|H5].
  { repeat split; intros; try discriminate; try reflexivity; lra. }
  destruct (Rlt_dec change (-5)) as [H6|H6].
  { repeat split; intros; try discriminate; try reflexivity; lra. }
  repeat split; intros; try discriminate; try reflexivity; try lra;
    destruct (Num.jgtb _ _); discriminate.
Qed.

(** The classification theorem at a series rising from 45 to 60. *)
Lemma trend_classification_witness :
  Market.trend (Market.analyzePriceTrends Market.sample_rising) = "bullish"
  ∧ Market.trend (Market.analyzePriceTrends_simple 0 Market.sample_rising) = "bullish".
Proof.
  destruct (trend_classification 0 Market.sample_rising) as
    (Hratio & _ & Hsimple & _ & _ & Hfull & _).
  - simpl. lia.
  - simpl. lra.
  - cbn [Market.sample_rising map List.hd List.last Market.price] in *.
    split; [apply Hfull | apply Hsimple]; apply Hratio; lra.
Defined.

(** C5 as stated fails for the service with the volatility analysis: the
    series 45, 63, 36, 45 has a net change of 0 %, yet its coefficient of
    variation is above 15 % and the trend is 'volatile', not 'stable'. *)
Lemma flat_but_volatile_series :
  let prices := map Market.price Market.sample_week in
  ((List.last prices 0 - List.hd 0 prices) / List.hd 0 prices * 100 = 0)%R
  ∧ Market.trend (Market.analyzePriceTrends Market.sample_week) = "volatile"
  ∧ Market.trend (Market.analyzePriceTrends Market.sample_week) ≠ "stable".
Proof.
  intros prices.
  assert (Hchange : ((List.last prices 0 - List.hd 0 prices) / List.hd 0 prices * 100 = 0)%R).
  { subst prices. cbn [Market.sample_week map List.hd List.last Market.price]. lra. }
  assert (Hmean : Market.mean_of prices = 47.25%R).
  { subst prices. unfold Market.mean_of, Market.sum_by.
    cbn [Market.sample_week map fold_left Market.price length]. simpl INR. lra. }
  assert (Hvar : Market.variance_of prices = 96.1875%R).
  { unfold Market.variance_of. rewrite Hmean. subst prices. unfold Market.sum_by.
    cbn [Market.sample_week map fold_left Market.price length]. simpl INR. simpl pow. lra. }
  assert (Hsqrt : (7.1 < sqrt 96.1875)%R).
  { rewrite <- (sqrt_square 7.1) by lra. apply sqrt_lt_1_alt. lra. }
  assert (Hvol : Num.jgtb (Market.volatility_of prices) (Num.Fin 15) = true).
  { unfold Market.volatility_of, Num.jgtb. rewrite Hvar, Hmean.
    unfold Num.jsqrt. destruct (Rlt_dec 96.1875 0) as [H|_]; [lra|].
    rewrite jdiv_fin by lra. cbn [Num.jmul]. apply jltb_fin_true. lra. }
  assert (Htrend : Market.trend (Market.analyzePriceTrends Market.sample_week) = "volatile").
  { rewrite trend_full_cases;
      [| simpl; lia | cbn [Market.sample_week map List.hd Market.price]; lra].
    fold prices. rewrite Hchange, Hvol.
    destruct (Rlt_dec 5 0) as [H|_]; [lra|].
    destruct (Rlt_dec 0 (-5)) as [H|_]; [lra|]. reflexivity. }
  split; [exact Hchange|]. split; [exact Htrend|]. rewrite Htrend. discriminate.
Qed.

(** * Further properties of the services *)

(** ** Subscription queues *)

Section Queues.
Import JS Notify.

Lemma queue_key_inj (t t' : string) : queue_key t = queue_key t' → t = t'.
Proof. unfold queue_key. cbn. intros H. injection H as H. exact H. Qed.

Lemma user_key_inj (u v : string) : user_key u = user_key v → u = v.
Proof. unfold user_key. cbn. intros H. injection H as H. exact H. Qed.

Lemma includes_elem_of (x : string) (l : list string) : includes x l = true ↔ x ∈ l.
Proof.
  unfold includes. rewrite existsb_exists. split.
  - intros (y & Hy & Heq). apply String.eqb_eq in Heq. subst y.
    apply list_elem_of_In. exact Hy.
  - intros Hx. exists x. split; [apply list_elem_of_In; exact Hx | apply String.eqb_refl].
Qed.

(** What one [enqueue] does to the queue of every type. *)
Lemma get_users_enqueue (user : string) (kv : store) (t t' : string) :
  get_users (queue_key t') (enqueue user kv t)
  = if decide (t = t') then
      if includes user (get_users (queue_key t) kv)
      then get_users (queue_key t) kv
      else get_users (queue_key t) kv ++ [user]
    else get_users (queue_key t') kv.
Proof.
  unfold enqueue.
  destruct (includes user (get_users (queue_key t) kv)) eqn:E.
  - destruct (decide (t = t')) as [-> |]; reflexivity.
  - unfold get_users at 1, kv_get, kv_set.
    destruct (decide (t = t')) as [-> | Hne].
    + rewrite lookup_insert_eq. reflexivity.
    + rewrite lookup_insert_ne by (intros H; apply Hne, queue_key_inj, H). reflexivity.
Qed.

Lemma enqueue_keeps_members (user : string) (kv : store) (t t' u : string) :
  u ∈ get_users (queue_key t') kv → u ∈ get_users (queue_key t') (enqueue user kv t).
Proof.
  intros Hu. rewrite get_users_enqueue.
  destruct (decide (t = t')) as [-> |]; [|exact Hu].
  destruct (includes user _); [exact Hu|]. apply elem_of_app. left. exact Hu.
Qed.

Lemma enqueue_adds_user (user : string) (kv : store) (t : string) :
  user ∈ get_users (queue_key t) (enqueue user kv t).
Proof.
  rewrite get_users_enqueue. rewrite decide_True by reflexivity.
  destruct (includes user _) eqn:E.
  - apply includes_elem_of. exact E.
  - apply elem_of_app. right. apply list_elem_of_singleton. reflexivity.
Qed.

Lemma enqueue_keeps_NoDup (user : string) (kv : store) (t t' : string) :
  NoDup (get_users (queue_key t') kv) → NoDup (get_users (queue_key t') (enqueue user kv t)).
Proof.
  intros Hnd. rewrite get_users_enqueue.
  destruct (decide (t = t')) as [-> |]; [|exact Hnd].
  destruct (includes user _) eqn:E; [exact Hnd|].
  apply NoDup_app. split; [exact Hnd|]. split; [|apply NoDup_singleton].
  intros x Hx Hx'. apply list_elem_of_singleton in Hx'. subst x.
  apply includes_elem_of in Hx. congruence.
Qed.

Lemma enqueue_all_spec (user : string) (types : list string) (kv : store) :
  let kv' := fold_left (enqueue user) types kv in
  (∀ t, t ∈ types → user ∈ get_users (queue_key t) kv')
  ∧ (∀ t u, u ∈ get_users (queue_key t) kv → u ∈ get_users (queue_key t) kv')
  ∧ (∀ t, NoDup (get_users (queue_key t) kv) → NoDup (get_users (queue_key t) kv'))
  ∧ (∀ t, t ∉ types → get_users (queue_key t) kv' = get_users (queue_key t) kv).
Proof.
  revert kv. induction types as [|t0 rest IH]; intros kv; cbn [fold_left].
  - repeat split; try (intros; assumption); try reflexivity.
    intros t Ht. apply elem_of_nil in Ht. contradiction.
  - destruct (IH (enqueue user kv t0)) as (Hin & Hmono & Hnd & Hother).
    repeat split.
    + intros t Ht. apply elem_of_cons in Ht as [-> | Ht]; [|apply Hin; exact Ht].
      apply Hmono, enqueue_adds_user.
    + intros t u Hu. apply Hmono, enqueue_keeps_members, Hu.
    + intros t Ht. apply Hnd, enqueue_keeps_NoDup, Ht.
    + intros t Ht. apply not_elem_of_cons in Ht as [Hne Ht].
      rewrite Hother by exact Ht. rewrite get_users_enqueue.
      rewrite decide_False by congruence. reflexivity.
Qed.

End Queues.

(** X1. [subscribe] puts the user into the queue of every notification type
    of the stored subscription, once: nobody is ever removed from a queue,
    a queue without duplicates stays without, and the queues of the other
    types are left as they were (a membership of an earlier subscription
    stays). *)
Theorem subscribe_queues
    (now : Notify.Clock) (request : Notify.SubscribeRequest) (kv : gmap string Notify.value) :
  let kv' := fst (Notify.subscribe now request kv) in
  let user := Notify.req_userId request in
  let types := Notify.notificationTypes (Notify.subscriptionData now request) in
  (∀ t, t ∈ types → user ∈ Notify.get_users (Notify.queue_key t) kv')
  ∧ (∀ t u, u ∈ Notify.get_users (Notify.queue_key t) kv →
            u ∈ Notify.get_users (Notify.queue_key t) kv')
  ∧ (∀ t, NoDup (Notify.get_users (Notify.queue_key t) kv) →
          NoDup (Notify.get_users (Notify.queue_key t) kv'))
  ∧ (∀ t, t ∉ types →
          Notify.get_users (Notify.queue_key t) kv'
          = Notify.get_users (Notify.queue_key t) kv).
Proof.
  intros kv' user types.
  set (kv1 := Notify.kv_set (Notify.subscription_key user)
                (Notify.VSubscription (Notify.subscriptionData now request)) kv).
  assert (Hsame : ∀ t, Notify.get_users (Notify.queue_key t) kv1
                       = Notify.get_users (Notify.queue_key t) kv).
  { intros t. unfold Notify.get_users, Notify.kv_get, kv1, Notify.kv_set.
    rewrite lookup_insert_ne by apply subscription_key_not_queue. reflexivity. }
  destruct (enqueue_all_spec user types kv1) as (Hin & Hmono & Hnd & Hother).
  repeat split.
  - exact Hin.
  - intros t u Hu. apply Hmono. rewrite Hsame. exact Hu.
  - intros t Ht. apply Hnd. rewrite Hsame. exact Ht.
  - intros t Ht. rewrite <- Hsame. apply Hother. exact Ht.
Qed.

(** ** Channel delivery *)

Section Deliver.
Import JS Notify Inbox.

Lemma obj_set_keys {A : Type} (key : string) (v : A) (obj : list (string * A)) :
  map fst (obj_set key v obj)
  = if decide (key ∈ map fst obj) then map fst obj else map fst obj ++ [key].
Proof.
  induction obj as [|[k w] rest IH]; cbn [obj_set map fst].
  - rewrite decide_False by apply not_elem_of_nil. reflexivity.
  - destruct (String.eqb_spec k key) as [-> | Hne]; cbn [map fst].
    + rewrite decide_True by apply list_elem_of_here. reflexivity.
    + rewrite IH. destruct (decide (key ∈ map fst rest)) as [Hin|Hnin].
      * rewrite decide_True by (apply list_elem_of_further; exact Hin). reflexivity.
      * rewrite decide_False; [reflexivity|].
        intros H. apply elem_of_cons in H as [H|H]; [congruence|contradiction].
Qed.

Lemma obj_set_entries {A : Type} (key : string) (v : A) (obj : list (string * A))
    (entry : string * A) :
  entry ∈ obj_set key v obj → entry = (key, v) ∨ entry ∈ obj.
Proof.
  induction obj as [|[k w] rest IH]; cbn [obj_set].
  - intros H. apply list_elem_of_singleton in H. left. exact H.
  - destruct (String.eqb_spec k key) as [-> | Hne].
    + intros H. apply elem_of_cons in H as [H|H]; [left; exact H|].
      right. apply list_elem_of_further. exact H.
    + intros H. apply elem_of_cons in H as [H|H].
      * right. rewrite H. apply list_elem_of_here.
      * destruct (IH H) as [?|?]; [left; assumption|].
        right. apply list_elem_of_further. assumption.
Qed.

Lemma known_channel_cases (c : string) :
  known_channel c = true ↔ c = "push" ∨ c = "email" ∨ c = "sms".
Proof.
  unfold known_channel. rewrite !orb_true_iff, !String.eqb_eq. tauto.
Qed.

Lemma delivery_invariant_known (now : Clock) (seen : list string)
    (results : list (string * ChannelResult)) (c : string) :
  known_channel c = true →
  delivery_invariant now seen results →
  delivery_invariant now (seen ++ [c]) (obj_set c (sent now c) results).
Proof.
  intros Hk (Hnd & Hkeys & Hsent). unfold delivery_invariant.
  rewrite obj_set_keys. split; [|split].
  - destruct (decide (c ∈ map fst results)); [exact Hnd|].
    apply NoDup_app. split; [exact Hnd|]. split; [|apply NoDup_singleton].
    intros x Hx Hx'. apply list_elem_of_singleton in Hx'. subst x. contradiction.
  - intros x. destruct (decide (c ∈ map fst results)) as [Hin|Hnin].
    + rewrite Hkeys, elem_of_app, list_elem_of_singleton. split.
      * intros [H1 H2]. split; [left; exact H1 | exact H2].
      * intros [[H1 | ->] H2]; [split; assumption|]. apply Hkeys. exact Hin.
    + rewrite !elem_of_app, Hkeys, !list_elem_of_singleton. split.
      * intros [[H1 H2] | ->]; [split; [left; exact H1 | exact H2]|].
        split; [right; reflexivity | exact Hk].
      * intros [[H1 | ->] H2]; [left; split; assumption | right; reflexivity].
  - intros x r Hr. apply obj_set_entries in Hr as [Hr|Hr].
    + injection Hr as -> ->. reflexivity.
    + apply Hsent. exact Hr.
Qed.

Lemma delivery_invariant_unknown (now : Clock) (seen : list string)
    (results : list (string * ChannelResult)) (c : string) :
  known_channel c = false →
  delivery_invariant now seen results →
  delivery_invariant now (seen ++ [c]) results.
Proof.
  intros Hk (Hnd & Hkeys & Hsent). split; [exact Hnd|]. split; [|exact Hsent].
  intros x. rewrite Hkeys, elem_of_app, list_elem_of_singleton. split.
  - intros [H1 H2]. split; [left; exact H1 | exact H2].
  - intros [[H1 | ->] H2]; [split; assumption | congruence].
Qed.

Lemma deliver_step_invariant (now : Clock) (seen : list string)
    (results : list (string * ChannelResult)) (c : string) :
  delivery_invariant now seen results →
  delivery_invariant now (seen ++ [c]) (deliver_step now results c).
Proof.
  intros Hinv. unfold deliver_step.
  destruct (String.eqb_spec c "push") as [-> | H1];
    [apply delivery_invariant_known; [reflexivity | exact Hinv]|].
  destruct (String.eqb_spec c "email") as [-> | H2];
    [apply delivery_invariant_known; [reflexivity | exact Hinv]|].
  destruct (String.eqb_spec c "sms") as [-> | H3];
    [apply delivery_invariant_known; [reflexivity | exact Hinv]|].
  apply delivery_invariant_unknown; [|exact Hinv].
  destruct (known_channel c) eqn:E; [|reflexivity].
  apply known_channel_cases in E. destruct E as [?|[?|?]]; contradiction.
Qed.

Lemma deliver_loop_invariant (now : Clock) (chans seen : list string)
    (results : list (string * ChannelResult)) :
  delivery_invariant now seen results →
  delivery_invariant now (seen ++ chans) (fold_left (deliver_step now) chans results).
Proof.
  revert seen results. induction chans as [|c rest IH]; intros seen results Hinv.
  - rewrite app_nil_r. exact Hinv.
  - cbn [fold_left]. replace (seen ++ c :: rest) with ((seen ++ [c]) ++ rest)
      by (rewrite <- app_assoc; reflexivity).
    apply IH, deliver_step_invariant, Hinv.
Qed.

End Deliver.

(** X2. The delivery report has exactly one entry for every distinct channel
    of the notification that is push, email or sms, each marked 'sent' for
    its own channel; any other channel name is dropped without a trace and a
    repeated channel is reported once. *)
Theorem deliver_one_entry_per_known_channel (now : Notify.Clock) (chans : list string) :
  let results := Notify.deliver now chans in
  NoDup (map fst results)
  ∧ (∀ c, c ∈ map fst results ↔ c ∈ chans ∧ Inbox.known_channel c = true)
  ∧ (∀ c r, (c, r) ∈ results →
            r = Notify.sent now c ∧ Notify.cr_status r = "sent" ∧ Notify.cr_channel r = c).
Proof.
  intros results.
  destruct (deliver_loop_invariant now chans [] []) as (Hnd & Hkeys & Hsent).
  { split; [apply NoDup_nil; exact I|]. split; [|intros c r H; apply elem_of_nil in H; contradiction].
    intros c. cbn. rewrite !elem_of_nil. tauto. }
  split; [exact Hnd|]. split; [exact Hkeys|].
  intros c r Hr. rewrite (Hsent c r Hr). repeat split.
Qed.

(** ** Storing, failing and counting *)

Section Counting.
Import JS Notify Inbox.

Lemma stats_after_deliver (now : Clock) (user : string) (n : Notification) (kv : store) :
  get_stats stats_key (fst (storeAndDeliverNotification now user n kv))
  = match channels n with
    | Some _ =>
        {| totalSent := S (totalSent (get_stats stats_key kv));
           byType := bump (type n) (byType (get_stats stats_key kv));
           byDay := bump (split_head "T" (iso now)) (byDay (get_stats stats_key kv)) |}
    | None => get_stats stats_key kv
    end.
Proof.
  unfold storeAndDeliverNotification, deliverToChannels.
  destruct (channels n) as [chans|]; cbn [fst].
  - unfold updateSystemStats. unfold get_stats at 1, kv_get, kv_set.
    rewrite lookup_insert_eq. f_equal.
    all: unfold get_stats, kv_get;
      rewrite lookup_insert_ne by apply user_key_not_stats; reflexivity.
  - unfold get_stats, kv_get, kv_set.
    rewrite lookup_insert_ne by apply user_key_not_stats. reflexivity.
Qed.

Lemma total_sent_after_all (items : list (Clock * Notification)) (user : string)
    (kv : store) :
  totalSent (get_stats stats_key (store_all items user kv))
  = (totalSent (get_stats stats_key kv) + length (deliverable items))%nat.
Proof.
  revert kv. induction items as [|[now n] rest IH]; intros kv.
  - cbn. lia.
  - change (store_all ((now, n) :: rest) user kv)
      with (store_all rest user (fst (storeAndDeliverNotification now user n kv))).
    rewrite IH, stats_after_deliver. unfold deliverable. cbn [List.filter snd].
    destruct (channels n); cbn [totalSent length]; lia.
Qed.

End Counting.

(** X3. A notification without a [channels] field is stored at the head of
    the user's list and then the call throws: the caller gets no report and
    the system statistics are not updated.  With channels the call returns
    the report of the delivery and counts the notification once. *)
Theorem store_then_deliver_or_throw
    (now : Notify.Clock) (user : string) (n : Notify.Notification)
    (kv : gmap string Notify.value) :
  let result := Notify.storeAndDeliverNotification now user n kv in
  Notify.get_notifications (Notify.user_key user) (fst result)
  = take 100 (n :: Notify.get_notifications (Notify.user_key user) kv)
  ∧ (Notify.channels n = None →
     snd result = JS.Thrown
     ∧ Notify.get_stats Notify.stats_key (fst result) = Notify.get_stats Notify.stats_key kv)
  ∧ (∀ chans, Notify.channels n = Some chans →
     snd result
     = JS.Returned {| Notify.stored := true; Notify.delivered := Notify.deliver now chans;
                      Notify.notificationId := Notify.id n |}
     ∧ Notify.totalSent (Notify.get_stats Notify.stats_key (fst result))
       = S (Notify.totalSent (Notify.get_stats Notify.stats_key kv))).
Proof.
  intros result. subst result.
  split; [rewrite stored_after_deliver; apply prepend_capped_take|].
  split.
  - intros Hnone. rewrite stats_after_deliver, Hnone.
    unfold Notify.storeAndDeliverNotification, Notify.deliverToChannels.
    rewrite Hnone. split; reflexivity.
  - intros chans Hsome. rewrite stats_after_deliver, Hsome.
    unfold Notify.storeAndDeliverNotification, Notify.deliverToChannels.
    rewrite Hsome. split; reflexivity.
Qed.

(** The store-or-throw theorem at a sensor alert with the push channel. *)
Lemma store_then_deliver_or_throw_witness :
  Notify.totalSent
    (Notify.get_stats Notify.stats_key
       (fst (Notify.storeAndDeliverNotification Notify.sample_clock "u1"
               (Notify.sample_notification 0) ∅)))
  = 1.
Proof.
  destruct (store_then_deliver_or_throw Notify.sample_clock "u1"
              (Notify.sample_notification 0) ∅) as (_ & _ & Hsome).
  destruct (Hsome ["push"] eq_refl) as [_ Hcount]. exact Hcount.
Defined.

(** X4. Over any sequence of stores for one user, the system-wide
    [totalSent] grows by the number of notifications that have channels: the
    ones whose delivery throws are stored but never counted. *)
Theorem total_sent_counts_deliveries
    (items : list (Notify.Clock * Notify.Notification)) (user : string)
    (kv : gmap string Notify.value) :
  Notify.totalSent (Notify.get_stats Notify.stats_key (Notify.store_all items user kv))
  = Notify.totalSent (Notify.get_stats Notify.stats_key kv)
    + length (List.filter
                (λ item, match Notify.channels (snd item) with
                         | Some _ => true
                         | None => false
                         end) items).
Proof. apply total_sent_after_all. Qed.

(** ** Fan-out loops *)

Section FanOut.
Import JS Notify Inbox.

Lemma fst_store_and_push (now : Clock) (user : string) (n : Notification) (kv : store) :
  fst (store_and_push now user n kv) = fst (storeAndDeliverNotification now user n kv).
Proof.
  unfold store_and_push.
  destruct (storeAndDeliverNotification now user n kv) as [kv1 [r|]]; reflexivity.
Qed.

Lemma snd_store_and_push (now : Clock) (user : string) (n : Notification) (kv : store)
    (chans : list string) :
  channels n = Some chans →
  snd (store_and_push now user n kv)
  = Returned (Some {| stored := true; delivered := deliver now chans;
                      notificationId := id n |}).
Proof.
  intros Hch. unfold store_and_push, storeAndDeliverNotification, deliverToChannels.
  rewrite Hch. reflexivity.
Qed.

Lemma deliver_other_user (now : Clock) (u v : string) (n : Notification) (kv : store) :
  u ≠ v →
  get_notifications (user_key u) (fst (storeAndDeliverNotification now v n kv))
  = get_notifications (user_key u) kv.
Proof.
  intros Hne.
  assert (Hk : user_key v ≠ user_key u) by (intros H; apply Hne; symmetry; apply user_key_inj, H).
  unfold storeAndDeliverNotification, get_notifications, kv_get.
  destruct (deliverToChannels now n); cbn [fst]; unfold updateSystemStats, kv_set.
  - rewrite lookup_insert_ne by (apply not_eq_sym, user_key_not_stats).
    rewrite lookup_insert_ne by exact Hk. reflexivity.
  - rewrite lookup_insert_ne by exact Hk. reflexivity.
Qed.

(** A property of the store that every turn of the loop keeps holds at the
    end, whether the loop returns or throws. *)
Lemma for_users_invariant (I : store → Prop)
    (body : string → store → store * outcome (option DeliveryReport))
    (users : list string) :
  (∀ v kv0, v ∈ users → I kv0 → I (fst (body v kv0))) →
  ∀ kv results, I kv → I (fst (for_users body users kv results)).
Proof.
  induction users as [|u rest IH]; intros Hbody kv results HI; [exact HI|].
  cbn [for_users].
  pose proof (Hbody u kv (list_elem_of_here u rest) HI) as H1.
  destruct (body u kv) as [kv1 [[r|]|]]; cbn [fst] in *.
  - apply IH; [|exact H1]. intros v kv0 Hv. apply Hbody, list_elem_of_further, Hv.
  - apply IH; [|exact H1]. intros v kv0 Hv. apply Hbody, list_elem_of_further, Hv.
  - exact H1.
Qed.

(** When every turn pushes a report, the loop returns one report per user,
    in the order of the users. *)
Lemma for_users_collect (I : store → Prop)
    (body : string → store → store * outcome (option DeliveryReport))
    (report : string → DeliveryReport) (users : list string) :
  (∀ v kv0, v ∈ users → I kv0 →
     I (fst (body v kv0)) ∧ snd (body v kv0) = Returned (Some (report v))) →
  ∀ kv results, I kv →
    snd (for_users body users kv results)
    = Returned (results ++ map (λ u, (u, report u)) users).
Proof.
  induction users as [|u rest IH]; intros Hbody kv results HI.
  - cbn. rewrite app_nil_r. reflexivity.
  - cbn [for_users map].
    destruct (Hbody u kv (list_elem_of_here u rest) HI) as [H1 H2].
    destruct (body u kv) as [kv1 o]; cbn [fst snd] in *. subst o.
    rewrite IH; [rewrite <- app_assoc; reflexivity | | exact H1].
    intros v kv0 Hv. apply Hbody, list_elem_of_further, Hv.
Qed.

(** When every turn skips its user, the loop returns the store as it was. *)
Lemma for_users_skip
    (body : string → store → store * outcome (option DeliveryReport))
    (users : list string) (kv : store) (results : list (string * DeliveryReport)) :
  (∀ v, v ∈ users → body v kv = (kv, Returned None)) →
  for_users body users kv results = (kv, Returned results).
Proof.
  induction users as [|u rest IH]; intros Hbody; [reflexivity|].
  cbn [for_users]. rewrite (Hbody u (list_elem_of_here u rest)).
  apply IH. intros v Hv. apply Hbody, list_elem_of_further, Hv.
Qed.

Lemma head_after_deliver (now : Clock) (user : string) (n : Notification) (kv : store) :
  head (get_notifications (user_key user) (fst (storeAndDeliverNotification now user n kv)))
  = Some n.
Proof. rewrite stored_after_deliver, prepend_capped_take. reflexivity. Qed.

(** After a loop that stores [build u] for every user, the newest
    notification of each of them is the one built for it. *)
Lemma fan_out_heads (now : Clock) (build : string → Notification) (users : list string)
    (u : string) :
  u ∈ users →
  ∀ kv results,
    head (get_notifications (user_key u)
            (fst (for_users (λ v, store_and_push now v (build v)) users kv results)))
    = Some (build u)
    ∨ ∃ v, v ∈ users ∧ channels (build v) = None.
Proof.
  induction users as [|w rest IH]; intros Hu kv results.
  - apply elem_of_nil in Hu. contradiction.
  - destruct (channels (build w)) as [chans|] eqn:Hch;
      [|right; exists w; split; [apply list_elem_of_here | exact Hch]].
    cbn [for_users].
    pose proof (fst_store_and_push now w (build w) kv) as Hf.
    pose proof (snd_store_and_push now w (build w) kv chans Hch) as Hs.
    destruct (store_and_push now w (build w) kv) as [kv1 o]; cbn [fst snd] in *.
    subst o kv1.
    destruct (decide (u ∈ rest)) as [Hin|Hnin].
    + destruct (IH Hin (fst (storeAndDeliverNotification now w (build w) kv))
                  (results ++ [(w, {| stored := true; delivered := deliver now chans;
                                      notificationId := id (build w) |})]))
        as [H|(v & Hv & Hnone)]; [left; exact H|].
      right. exists v. split; [apply list_elem_of_further; exact Hv | exact Hnone].
    + apply elem_of_cons in Hu as [-> | Hu]; [|contradiction].
      left.
      apply (for_users_invariant
               (λ kv0, head (get_notifications (user_key w) kv0) = Some (build w))).
      * intros v kv0 Hv HI. rewrite fst_store_and_push.
        rewrite deliver_other_user by (intros ->; contradiction). exact HI.
      * apply head_after_deliver.
Qed.

End FanOut.

(** X5. A weather alert is sent to exactly the users of the farm that have an
    active subscription with the weather_warnings type, in the order of the
    farm's user list: the call returns one report per such user, each for
    push and sms, their newest stored notification is the alert, and the
    stored notifications of every other user are untouched. *)
Theorem weather_alert_fan_out
    (now : Notify.Clock) (farm : string) (weatherAlert : Notify.WeatherAlert)
    (kv : gmap string Notify.value) :
  let users := Notify.getUsersForFarm farm "weather_warnings" kv in
  let result := Notify.sendWeatherAlert now farm weatherAlert kv in
  let report u :=
    {| Notify.stored := true;
       Notify.delivered := Notify.deliver now ["push"; "sms"];
       Notify.notificationId := "weather_" +:+ Notify.epoch_ms now +:+ "_" +:+ u |} in
  snd result = JS.Returned (map (λ u, (u, report u)) users)
  ∧ (∀ u, u ∈ users →
          Notify.isActive <$> Notify.get_subscription (Notify.subscription_key u) kv
          = Some true)
  ∧ (∀ u, u ∈ users →
          head (Notify.get_notifications (Notify.user_key u) (fst result))
          = Some (Notify.weather_notification now farm weatherAlert u))
  ∧ (∀ u, u ∉ users →
          Notify.get_notifications (Notify.user_key u) (fst result)
          = Notify.get_notifications (Notify.user_key u) kv).
Proof.
  intros users result report. subst result. unfold Notify.sendWeatherAlert. fold users.
  split; [|split; [|split]].
  - rewrite (for_users_collect (λ _, True) _ report); [reflexivity | | exact I].
    intros v kv0 _ _. split; [exact I|].
    rewrite (snd_store_and_push now v _ kv0 ["push"; "sms"]) by reflexivity.
    reflexivity.
  - intros u Hu. unfold users, Notify.getUsersForFarm, Notify.subscribed_users in Hu.
    apply list_elem_of_In, filter_In in Hu as [_ Hu].
    destruct (Notify.get_subscription (Notify.subscription_key u) kv) as [s|];
      [|discriminate Hu].
    apply andb_true_iff in Hu as [Ha _]. cbn. rewrite Ha. reflexivity.
  - intros u Hu.
    destruct (fan_out_heads now (Notify.weather_notification now farm weatherAlert)
                users u Hu kv []) as [H|(v & _ & Hnone)]; [exact H | discriminate Hnone].
  - intros u Hu.
    apply (for_users_invariant
             (λ kv0, Notify.get_notifications (Notify.user_key u) kv0
                     = Notify.get_notifications (Notify.user_key u) kv));
      [|reflexivity].
    intros v kv0 Hv HI. rewrite fst_store_and_push.
    rewrite deliver_other_user by (intros ->; contradiction). exact HI.
Qed.

(** X6. The threshold of price alerts: when no stored subscription carries a
    threshold of its own (as is the case for every subscription written by
    [subscribe]), a price change of less than 5 % in absolute value notifies
    nobody and leaves the store as it is, and a change of 5 % or more returns
    one report for every user interested in the crop. *)
Theorem price_alert_threshold
    (show : Q → string) (now : Notify.Clock) (crop : string)
    (priceData : Notify.PriceData) (kv : gmap string Notify.value) :
  (∀ u sub, Notify.get_subscription (Notify.subscription_key u) kv = Some sub →
            Notify.priceChangeThreshold (Notify.preferences sub) = None) →
  let result := Notify.sendPriceAlert show now crop priceData kv in
  let users := Notify.getUsersForCrop crop "price_alerts" kv in
  ((Qabs (Notify.changePercent priceData) < 5)%Q → result = (kv, JS.Returned []))
  ∧ ((5 <= Qabs (Notify.changePercent priceData))%Q →
     ∃ out, snd result = JS.Returned out ∧ map fst out = users).
Proof.
  intros Hnone result users. subst result. unfold Notify.sendPriceAlert. fold users.
  assert (Hthreshold : ∀ u kv0,
            (∀ v, Notify.get_subscription (Notify.subscription_key v) kv0
                  = Notify.get_subscription (Notify.subscription_key v) kv) →
            JS.or_number
              (Notify.get_subscription (Notify.subscription_key u) kv0
                 ≫= (λ s, Notify.priceChangeThreshold (Notify.preferences s))) 5 = 5%Q).
  { intros u kv0 Hsame. rewrite Hsame.
    destruct (Notify.get_subscription (Notify.subscription_key u) kv) as [sub|] eqn:Hs;
      [|reflexivity].
    cbn. rewrite (Hnone u sub Hs). reflexivity. }
  split.
  - intros Hsmall. apply for_users_skip. intros v _. unfold Notify.price_body.
    rewrite Hthreshold by reflexivity.
    apply Qle_bool_false in Hsmall. rewrite Hsmall. reflexivity.
  - intros Hbig.
    set (report u :=
           match Notify.get_subscription (Notify.subscription_key u) kv with
           | Some sub =>
               {| Notify.stored := true;
                  Notify.delivered := Notify.deliver now (Notify.sub_channels sub);
                  Notify.notificationId :=
                    Notify.id (Notify.price_notification show now crop priceData u sub) |}
           | None => {| Notify.stored := true; Notify.delivered := [];
                        Notify.notificationId := "" |}
           end).
    exists (map (λ u, (u, report u)) users). split.
    + rewrite (for_users_collect
                 (λ kv0, ∀ v, Notify.get_subscription (Notify.subscription_key v) kv0
                              = Notify.get_subscription (Notify.subscription_key v) kv)
                 _ report); [reflexivity | | reflexivity].
      intros v kv0 Hv Hsame. unfold Notify.price_body.
      rewrite (Hthreshold v kv0 Hsame).
      apply Qle_bool_iff in Hbig. rewrite Hbig. rewrite Hsame.
      unfold users, Notify.getUsersForCrop, Notify.subscribed_users in Hv.
      apply list_elem_of_In, filter_In in Hv as [_ Hv]. unfold report.
      destruct (Notify.get_subscription (Notify.subscription_key v) kv) as [sub|];
        [|discriminate Hv].
      split.
      * intros w. rewrite fst_store_and_push, deliver_keeps_subscriptions. apply Hsame.
      * rewrite (snd_store_and_push now v _ kv0 (Notify.sub_channels sub))
          by reflexivity.
        reflexivity.
    + rewrite map_map. cbn [fst]. apply map_id.
Qed.

(** The threshold theorem at the re-subscribed store and a change of 12 %. *)
Lemma price_alert_threshold_witness :
  ∃ out, snd (Notify.sendPriceAlert (λ _, "n") Notify.sample_clock "tomatoes"
                Notify.sample_price Notify.sample_resubscribed)
         = JS.Returned out
         ∧ map fst out = ["u1"].
Proof.
  destruct (price_alert_threshold (λ _, "n") Notify.sample_clock "tomatoes"
              Notify.sample_price Notify.sample_resubscribed) as [_ Hbig].
  - intros u sub Hsub.
    destruct (decide (u = "u1")) as [-> | Hne].
    + vm_compute in Hsub. injection Hsub as <-. reflexivity.
    + exfalso. revert Hsub.
      unfold Notify.get_subscription, Notify.kv_get, Notify.sample_resubscribed,
        Notify.subscribe. cbn [fst].
      rewrite enqueue_all_subscription. unfold Notify.kv_set.
      rewrite lookup_insert_ne
        by (intros H; apply Hne; symmetry; apply subscription_key_inj, H).
      rewrite enqueue_all_subscription.
      rewrite lookup_insert_ne
        by (intros H; apply Hne; symmetry; apply subscription_key_inj, H).
      unfold Notify.sample_store.
      rewrite lookup_insert_ne by (unfold Notify.farm_users_key, Notify.subscription_key; cbn; discriminate).
      rewrite lookup_singleton_ne by (unfold Notify.crop_users_key, Notify.subscription_key; cbn; discriminate).
      discriminate.
  - destruct Hbig as (out & Hout & Husers); [vm_compute; discriminate|].
    exists out. split; [exact Hout|]. rewrite Husers. vm_compute. reflexivity.
Defined.

(** X7. A scheduled notification type is never stored for a subscriber whose
    subscription is inactive or for whom the gate
    [shouldSendScheduledNotification] is closed (quiet hours, frequency
    'never', or 'weekly' on another day than Monday), whoever else is served
    in the same run. *)
Theorem scheduled_run_skips_gated_user
    (now : Notify.Clock) (type user : string) (sub : Notify.Subscription)
    (kv : gmap string Notify.value) :
  Notify.get_subscription (Notify.subscription_key user) kv = Some sub →
  Notify.isActive sub && Notify.shouldSendScheduledNotification now sub type = false →
  Notify.get_notifications (Notify.user_key user)
    (fst (Notify.processScheduledNotificationType now type kv))
  = Notify.get_notifications (Notify.user_key user) kv.
Proof.
  intros Hsub Hgate. unfold Notify.processScheduledNotificationType.
  apply (for_users_invariant
           (λ kv0, Notify.get_subscription (Notify.subscription_key user) kv0 = Some sub
                   ∧ Notify.get_notifications (Notify.user_key user) kv0
                     = Notify.get_notifications (Notify.user_key user) kv));
    [|split; [exact Hsub | reflexivity]].
  intros v kv0 _ [Hs Hn].
  destruct (decide (v = user)) as [-> | Hne].
  - rewrite Hs, Hgate. split; assumption.
  - destruct (Notify.get_subscription (Notify.subscription_key v) kv0) as [s|];
      [|split; assumption].
    destruct (Notify.isActive s && Notify.shouldSendScheduledNotification now s type);
      [|split; assumption].
    rewrite fst_store_and_push, deliver_keeps_subscriptions.
    rewrite deliver_other_user by (apply not_eq_sym, Hne). split; assumption.
Qed.

(** The skipping theorem on a run of the weather updates at 10 o'clock for
    two queued subscribers: u1, whose frequency is 'never', gets nothing,
    while u2 is served in the same run. *)
Lemma scheduled_run_skips_gated_user_witness :
  let run :=
    Notify.processScheduledNotificationType Notify.sample_clock "weather_updates"
      Notify.sample_scheduled_store in
  Notify.get_users (Notify.queue_key "weather_updates") Notify.sample_scheduled_store
  = ["u1"; "u2"]
  ∧ Notify.get_notifications (Notify.user_key "u1") (fst run) = []
  ∧ map Notify.id (Notify.get_notifications (Notify.user_key "u2") (fst run))
    = ["scheduled_weather_updates_1709633700000_u2"]
  ∧ map fst (match snd run with JS.Returned out => out | JS.Thrown => [] end) = ["u2"].
Proof.
  intros run. subst run.
  split; [vm_compute; reflexivity|].
  split; [|split; vm_compute; reflexivity].
  rewrite (scheduled_run_skips_gated_user Notify.sample_clock "weather_updates" "u1"
             (Notify.subscriptionData Notify.sample_clock Notify.sample_switched_off_request)
             Notify.sample_scheduled_store).
  - vm_compute. reflexivity.
  - vm_compute. reflexivity.
  - vm_compute. reflexivity.
Defined.

(** ** Reading the inbox *)

Section InboxFacts.
Import JS Notify Inbox.

Lemma read_mark_delivered (now : Clock) (n : Notification) :
  read (mark_delivered now n) = read n.
Proof. unfold mark_delivered. destruct (String.eqb _ _); reflexivity. Qed.

Lemma id_mark_delivered (now : Clock) (n : Notification) :
  id (mark_delivered now n) = id n.
Proof. unfold mark_delivered. destruct (String.eqb _ _); reflexivity. Qed.

Lemma status_mark_delivered (now : Clock) (n : Notification) :
  status (mark_delivered now n) ≠ "pending".
Proof.
  unfold mark_delivered. destruct (String.eqb_spec (status n) "pending") as [E|E].
  - cbn. discriminate.
  - exact E.
Qed.

Lemma unread_count_app (l1 l2 : list Notification) :
  unread_count (l1 ++ l2) = (unread_count l1 + unread_count l2)%nat.
Proof. unfold unread_count. rewrite List.filter_app, length_app. reflexivity. Qed.

Lemma unread_count_delivered (now : Clock) (l : list Notification) :
  unread_count (map (mark_delivered now) l) = unread_count l.
Proof.
  induction l as [|n rest IH]; [reflexivity|].
  change (n :: rest) with ([n] ++ rest). rewrite map_app, !unread_count_app, IH.
  f_equal. unfold unread_count. cbn. rewrite read_mark_delivered.
  destruct (read n); reflexivity.
Qed.

Lemma unread_count_perm (l1 l2 : list Notification) :
  l1 ≡ₚ l2 → unread_count l1 = unread_count l2.
Proof.
  intros Hp. induction Hp as [|x l l' _ IH|x y l|l l' l'' _ IH1 _ IH2].
  - reflexivity.
  - change (x :: l) with ([x] ++ l). change (x :: l') with ([x] ++ l').
    rewrite !unread_count_app, IH. reflexivity.
  - change (y :: x :: l) with ([y] ++ [x] ++ l).
    change (x :: y :: l) with ([x] ++ [y] ++ l).
    rewrite !unread_count_app. lia.
  - congruence.
Qed.

(** The counts per type that [groupNotificationsByType] accumulates. *)
Lemma group_fold_lookup (notifications : list Notification) (acc : gmap string nat)
    (t : string) :
  fold_left (λ acc n, bump (type n) acc) notifications acc !! t
  = let c := length (List.filter (λ n, String.eqb (type n) t) notifications) in
    if (c =? 0)%nat then acc !! t else Some (default 0%nat (acc !! t) + c)%nat.
Proof.
  revert acc. induction notifications as [|n rest IH]; intros acc; [reflexivity|].
  cbn [fold_left List.filter]. rewrite IH. cbv zeta. unfold bump.
  set (c := length (List.filter (λ n0, String.eqb (type n0) t) rest)).
  destruct (String.eqb_spec (type n) t) as [-> | Hne].
  - rewrite lookup_insert_eq. cbn [length Nat.eqb default]. fold c.
    destruct c as [|c']; cbn [Nat.eqb]; f_equal; destruct (acc !! t); cbn; lia.
  - rewrite lookup_insert_ne by exact Hne. fold c. reflexivity.
Qed.

End InboxFacts.

(** X8. Fetching a user's notifications, whatever order the sort gives them:
    the returned list is the stored list afterwards, none of its
    notifications is 'pending' any more, nothing is added or lost, ids and
    read flags are kept, so the unread count returned is the one before the
    call: fetching delivers but does not read. *)
Theorem get_user_notifications_delivers
    (sort : list Notify.Notification → list Notify.Notification)
    (now : Notify.Clock) (user : string) (kv : gmap string Notify.value) :
  (∀ l, sort l ≡ₚ l) →
  let before := Notify.get_notifications (Notify.user_key user) kv in
  let result := Inbox.getUserNotifications sort now user kv in
  let after := Inbox.un_notifications (snd result) in
  Notify.get_notifications (Notify.user_key user) (fst result) = after
  ∧ Forall (λ n, Notify.status n ≠ "pending") after
  ∧ map Notify.id after ≡ₚ map Notify.id before
  ∧ length after = length before
  ∧ Inbox.un_unreadCount (snd result) = Inbox.unread_count before
  ∧ (∀ key, key ≠ Notify.user_key user → fst result !! key = kv !! key).
Proof.
  intros Hsort before result after. subst result after.
  unfold Inbox.getUserNotifications. cbn [fst snd Inbox.un_notifications
    Inbox.un_unreadCount]. fold before.
  split.
  { unfold Notify.get_notifications at 1, Notify.kv_get, Notify.kv_set.
    rewrite lookup_insert_eq. reflexivity. }
  split.
  { apply Forall_forall. intros n Hn. apply list_elem_of_fmap in Hn as (m & -> & _).
    apply status_mark_delivered. }
  split.
  { rewrite <- (Hsort before) at 2. rewrite map_map.
    erewrite map_ext; [reflexivity|]. intros n. apply id_mark_delivered. }
  split.
  { rewrite length_map. apply Permutation_length, Hsort. }
  split.
  { rewrite unread_count_delivered. apply unread_count_perm, Hsort. }
  intros key Hkey. unfold Notify.kv_set. apply lookup_insert_ne. congruence.
Qed.

(** The fetching theorem with the identity as the sort, on a list of two
    pending sensor alerts. *)
Lemma get_user_notifications_delivers_witness :
  let kv : gmap string Notify.value :=
    {[ Notify.user_key "u1" :=
         Notify.VNotifications [Notify.sample_notification 0; Notify.sample_notification 1] ]} in
  Inbox.un_unreadCount (snd (Inbox.getUserNotifications (λ l, l) Notify.sample_clock "u1" kv))
  = 2.
Proof.
  intros kv.
  destruct (get_user_notifications_delivers (λ l, l) Notify.sample_clock "u1" kv)
    as (_ & _ & _ & _ & Hunread & _).
  - intros l. reflexivity.
  - rewrite Hunread. reflexivity.
Defined.

(** X9. Marking as read and the unread count: when the first stored
    notification with the given id was unread the user's unread count goes
    down by exactly one, when it was already read the count stays, and the
    total number of notifications never changes. *)
Theorem mark_as_read_unread_count
    (now : Notify.Clock) (user notificationId : string) (kv : gmap string Notify.value)
    (before : list Notify.Notification) (n : Notify.Notification)
    (after : list Notify.Notification) :
  Notify.get_notifications (Notify.user_key user) kv = before ++ n :: after →
  Notify.id n = notificationId →
  (∀ m, m ∈ before → Notify.id m ≠ notificationId) →
  let stored :=
    Notify.get_notifications (Notify.user_key user)
      (fst (Notify.markAsRead now user notificationId kv)) in
  (Inbox.unread_count stored + (if Notify.read n then 0 else 1)
   = Inbox.unread_count (before ++ n :: after))%nat
  ∧ length stored = length (before ++ n :: after).
Proof.
  intros Hlist Hid Hbefore stored. subst stored. unfold Notify.markAsRead.
  rewrite Hlist.
  assert (Hfind : list_find (λ m, Notify.id m = notificationId) (before ++ n :: after)
                  = Some (length before, n)).
  { apply list_find_Some. split; [|split].
    - rewrite lookup_app_r by lia. rewrite Nat.sub_diag. reflexivity.
    - exact Hid.
    - intros j y Hj Hlt. rewrite lookup_app_l in Hj by exact Hlt.
      apply Hbefore, list_elem_of_lookup. exists j. exact Hj. }
  rewrite Hfind. cbn [fst].
  unfold Notify.get_notifications, Notify.kv_get, Notify.kv_set.
  rewrite lookup_insert_eq.
  rewrite insert_app_r_alt by lia. rewrite Nat.sub_diag. cbn [insert list_insert].
  split.
  - change (Notify.set_read now n :: after) with ([Notify.set_read now n] ++ after).
    change (n :: after) with ([n] ++ after).
    rewrite !unread_count_app. unfold Inbox.unread_count at 2 5. cbn.
    destruct (Notify.read n); cbn; lia.
  - rewrite !length_app. reflexivity.
Qed.

(** The unread-count theorem at two unread sensor alerts, the second of
    which is marked. *)
Lemma mark_as_read_unread_count_witness :
  let kv : gmap string Notify.value :=
    {[ Notify.user_key "u1" :=
         Notify.VNotifications [Notify.sample_notification 0; Notify.sample_notification 1] ]} in
  Inbox.unread_count
    (Notify.get_notifications (Notify.user_key "u1")
       (fst (Notify.markAsRead Notify.sample_clock "u1" "sensor_1_u1" kv)))
  = 1.
Proof.
  intros kv.
  destruct (mark_as_read_unread_count Notify.sample_clock "u1" "sensor_1_u1" kv
              [Notify.sample_notification 0] (Notify.sample_notification 1) [])
    as [Hcount _].
  - reflexivity.
  - reflexivity.
  - intros m Hm. apply list_elem_of_singleton in Hm. subst m. vm_compute. discriminate.
  - cbn in Hcount. lia.
Defined.

(** X10. The statistics of a user: the total is the length of the stored
    list, the unread count is at most the total, the recent activity is the
    first five, and [byType] holds for every type exactly the number of
    stored notifications of that type (no entry when there is none). *)
Theorem user_stats_counts (user : string) (kv : gmap string Notify.value) :
  user ≠ "" →
  ∃ stats,
    Inbox.getNotificationStats (Some user) kv = inl stats
    ∧ let notifications := Notify.get_notifications (Notify.user_key user) kv in
      Inbox.totalNotifications stats = length notifications
      ∧ Inbox.us_unreadCount stats ≤ Inbox.totalNotifications stats
      ∧ Inbox.recentActivity stats = take 5 notifications
      ∧ ∀ t, Inbox.us_byType stats !! t
             = let c := length (List.filter (λ n, String.eqb (Notify.type n) t)
                                  notifications) in
               if (c =? 0)%nat then None else Some c.
Proof.
  intros Hne. unfold Inbox.getNotificationStats.
  destruct (String.eqb_spec user "") as [E|_]; [contradiction|].
  eexists. split; [reflexivity|]. cbn.
  split; [reflexivity|]. split; [|split; [reflexivity|]].
  - unfold Inbox.unread_count. apply List.filter_length_le.
  - intros t. unfold Inbox.groupNotificationsByType.
    rewrite group_fold_lookup. rewrite lookup_empty. cbn.
    destruct (length _); reflexivity.
Qed.

(** The statistics theorem at user u1 after 105 stored sensor alerts. *)
Lemma user_stats_counts_witness :
  ∃ stats,
    Inbox.getNotificationStats (Some "u1") (Notify.store_all Notify.sample_items "u1" ∅)
    = inl stats
    ∧ Inbox.us_byType stats !! "sensor_alerts" = Some 100.
Proof.
  destruct (user_stats_counts "u1" (Notify.store_all Notify.sample_items "u1" ∅))
    as (stats & Hstats & _ & _ & _ & Hby); [discriminate|].
  exists stats. split; [exact Hstats|]. rewrite Hby. vm_compute. reflexivity.
Defined.

(** ** Derived metrics and recommendations *)

Section Metrics.
Import JS IoT Telemetry.
Local Open Scope Q_scope.

Variable show : Q → string.
Variable now : string.




(** The first alert of a reading at or under the critical_low threshold, or
    at or over the critical_high one, is the critical alert. *)
Lemma head_alert_critical (farm sensorType : string) (data : SensorData) (th : Threshold) :
  assoc sensorType thresholds = Some th →
  value data <= critical_low th ∨
    (critical_low th < value data ∧ warning_low th < value data
     ∧ critical_high th <= value data) →
  alert_type <$> head (analyzeForAlerts show now farm sensorType data) = Some "critical".
Proof.
  intros Hth Hv. unfold analyzeForAlerts. rewrite Hth. unfold threshold_alerts.
  destruct Hv as [Hlow|(H1 & H2 & H3)].
  - apply Qle_bool_iff in Hlow. rewrite Hlow. reflexivity.
  - apply Qle_bool_false in H1, H2. apply Qle_bool_iff in H3.
    rewrite H1, H2, H3. reflexivity.
Qed.

End Metrics.

(** X11. Every critical alert of a reading, set against the derived metric
    of the same reading.  On nine of the twelve critical sides the metric is
    in its worst class: a critically dry soil (at most 15) is under 'severe'
    water stress with 'immediate' irrigation need, a critically cold or hot
    soil (at most 10, at least 40) is in 'cold_stress' or 'heat_stress', a
    critical pH (at most 5, at least 8.5) has 'poor' nutrient availability,
    critically hot air (at least 45) is 'severe' heat stress, critically
    humid air (at least 90) is 'high' disease risk, and critical light (at
    most 5000, at least 90000) is 'low' or 'excessive'.  On the other three
    the metric is in its best class although the alert is critical: a
    critically wet soil (at least 85) has water stress 'none' and irrigation
    'not_needed', critically cold air (at most 5) has heat stress 'none',
    critically dry air (at most 25) has disease risk 'low'. *)
Theorem critical_alerts_agree_with_metrics
    (show : Q → string) (now farm : string) (data : IoT.SensorData) :
  let v := IoT.value data in
  let critical sensorType :=
    IoT.alert_type <$> head (IoT.analyzeForAlerts show now farm sensorType data)
    = Some "critical" in
  let metrics := Telemetry.calculateDerivedMetrics data in
  ((v <= 15)%Q →
     critical "soil_moisture"
     ∧ metrics "soil_moisture" = [("waterStress", "severe"); ("irrigationNeed", "immediate")])
  ∧ ((v <= 10)%Q →
     critical "soil_temperature"
     ∧ metrics "soil_temperature" = [("rootZoneCondition", "cold_stress")])
  ∧ ((40 <= v)%Q →
     critical "soil_temperature"
     ∧ metrics "soil_temperature" = [("rootZoneCondition", "heat_stress")])
  ∧ ((v <= 5)%Q ∨ (8.5 <= v)%Q →
     critical "soil_ph" ∧ metrics "soil_ph" = [("nutrientAvailability", "poor")])
  ∧ ((45 <= v)%Q →
     critical "air_temperature" ∧ metrics "air_temperature" = [("heatStress", "severe")])
  ∧ ((90 <= v)%Q →
     critical "humidity" ∧ metrics "humidity" = [("diseaseRisk", "high")])
  ∧ ((v <= 5000)%Q →
     critical "light_intensity"
     ∧ metrics "light_intensity" = [("photosynthesisEfficiency", "low")])
  ∧ ((90000 <= v)%Q →
     critical "light_intensity"
     ∧ metrics "light_intensity" = [("photosynthesisEfficiency", "excessive")])
  ∧ ((85 <= v)%Q →
     critical "soil_moisture"
     ∧ metrics "soil_moisture" = [("waterStress", "none"); ("irrigationNeed", "not_needed")])
  ∧ ((v <= 5)%Q →
     critical "air_temperature" ∧ metrics "air_temperature" = [("heatStress", "none")])
  ∧ ((v <= 25)%Q →
     critical "humidity" ∧ metrics "humidity" = [("diseaseRisk", "low")]).
Proof.
  intros v critical metrics. subst critical metrics.
  assert (Hlt : ∀ a b : Q, (a < b)%Q → JS.Qltb a b = true) by (intros; apply Qltb_true; assumption).
  assert (Hge : ∀ a b : Q, (b <= a)%Q → JS.Qltb a b = false) by (intros; apply Qltb_false; assumption).
  repeat match goal with |- _ ∧ _ => split end; intros H; split.
  - eapply head_alert_critical; [reflexivity|]. left. exact H.
  - unfold Telemetry.calculateDerivedMetrics, Telemetry.calculateWaterStress,
      Telemetry.calculateIrrigationNeed. cbn [String.eqb Ascii.eqb Bool.eqb]. fold v.
    rewrite (Hlt v 20%Q), (Hlt v 25%Q) by lra. reflexivity.
  - eapply head_alert_critical; [reflexivity|]. left. exact H.
  - unfold Telemetry.calculateDerivedMetrics, Telemetry.assessRootZoneCondition.
    cbn [String.eqb Ascii.eqb Bool.eqb]. fold v. rewrite (Hlt v 15%Q) by lra. reflexivity.
  - eapply head_alert_critical; [reflexivity|]. right. cbn. fold v. lra.
  - unfold Telemetry.calculateDerivedMetrics, Telemetry.assessRootZoneCondition.
    cbn [String.eqb Ascii.eqb Bool.eqb]. fold v.
    rewrite (Hge v 15%Q), (Hlt 30%Q v) by lra. reflexivity.
  - eapply head_alert_critical; [reflexivity|]. cbn. fold v.
    destruct H as [H|H]; [left; lra | right; lra].
  - unfold Telemetry.calculateDerivedMetrics, Telemetry.assessNutrientAvailability.
    cbn [String.eqb Ascii.eqb Bool.eqb]. fold v.
    destruct H as [H|H].
    + rewrite (Hlt v 5.5%Q) by lra. reflexivity.
    + rewrite (Hlt 8.0%Q v) by lra. rewrite orb_true_r. reflexivity.
  - eapply head_alert_critical; [reflexivity|]. right. cbn. fold v. lra.
  - unfold Telemetry.calculateDerivedMetrics, Telemetry.calculateHeatStress.
    cbn [String.eqb Ascii.eqb Bool.eqb]. fold v. rewrite (Hlt 40%Q v) by lra. reflexivity.
  - eapply head_alert_critical; [reflexivity|]. right. cbn. fold v. lra.
  - unfold Telemetry.calculateDerivedMetrics, Telemetry.assessDiseaseRisk.
    cbn [String.eqb Ascii.eqb Bool.eqb]. fold v. rewrite (Hlt 85%Q v) by lra. reflexivity.
  - eapply head_alert_critical; [reflexivity|]. left. exact H.
  - unfold Telemetry.calculateDerivedMetrics, Telemetry.calculatePhotosynthesisEfficiency.
    cbn [String.eqb Ascii.eqb Bool.eqb]. fold v. rewrite (Hlt v 20000%Q) by lra. reflexivity.
  - eapply head_alert_critical; [reflexivity|]. right. cbn. fold v. lra.
  - unfold Telemetry.calculateDerivedMetrics, Telemetry.calculatePhotosynthesisEfficiency.
    cbn [String.eqb Ascii.eqb Bool.eqb]. fold v.
    rewrite (Hge v 20000%Q), (Hlt 70000%Q v) by lra. reflexivity.
  - eapply head_alert_critical; [reflexivity|]. right. cbn. fold v. lra.
  - unfold Telemetry.calculateDerivedMetrics, Telemetry.calculateWaterStress,
      Telemetry.calculateIrrigationNeed. cbn [String.eqb Ascii.eqb Bool.eqb]. fold v.
    rewrite (Hge v 20%Q), (Hge v 30%Q), (Hge v 40%Q), (Hge v 25%Q), (Hge v 35%Q),
      (Hge v 45%Q) by lra.
    reflexivity.
  - eapply head_alert_critical; [reflexivity|]. left. exact H.
  - unfold Telemetry.calculateDerivedMetrics, Telemetry.calculateHeatStress.
    cbn [String.eqb Ascii.eqb Bool.eqb]. fold v.
    rewrite (Hge 40%Q v), (Hge 35%Q v), (Hge 30%Q v) by lra. reflexivity.
  - eapply head_alert_critical; [reflexivity|]. left. exact H.
  - unfold Telemetry.calculateDerivedMetrics, Telemetry.assessDiseaseRisk.
    cbn [String.eqb Ascii.eqb Bool.eqb]. fold v.
    rewrite (Hge 85%Q v), (Hge 75%Q v) by lra. reflexivity.
Qed.


(** ** Daily aggregates *)

Section Aggregates.
Import JS IoT Telemetry.
Local Open Scope Q_scope.

(** One more reading keeps the aggregate consistent, also the first one of
    the day. *)
Lemma accumulate_ok (now : string) (data : SensorData) (a : Aggregate) :
  count a = length (values a) →
  sum a == running_sum (values a) →
  Forall (λ sample, min a <= snd sample ∧ snd sample <= max a) (values a) →
  (values a = [] → min a == value data ∧ max a == value data) →
  (values a ≠ [] →
   Exists (λ sample, snd sample == min a) (values a)
   ∧ Exists (λ sample, snd sample == max a) (values a)) →
  aggregate_ok (accumulate now data a).
Proof.
  intros Hcount Hsum Hall Hfresh Hold. unfold aggregate_ok, accumulate.
  cbn [count values sum min max average].
  split; [lia|]. split; [rewrite length_app, Hcount; cbn; lia|].
  split.
  { unfold running_sum. rewrite fold_left_app. cbn [fold_left snd].
    fold (running_sum (values a)). unfold Double.add.
    rewrite (double_comp (sum a + value data) (running_sum (values a) + value data))
      by (rewrite Hsum; reflexivity).
    reflexivity. }
  split.
  { apply Forall_app. split.
    - eapply Forall_impl; [exact Hall|]. cbv beta. intros s [H1 H2]. split.
      + eapply Qle_trans; [apply Q.le_min_l | exact H1].
      + eapply Qle_trans; [exact H2 | apply Q.le_max_l].
    - apply Forall_cons. split; [|apply Forall_nil; exact I]. cbn [snd].
      split; [apply Q.le_min_r | apply Q.le_max_r]. }
  assert (Hext : ∀ (m : Q) (pick : Q → Q → Q),
            (pick m (value data) == m ∨ pick m (value data) == value data) →
            (values a = [] → m == value data) →
            (values a ≠ [] → Exists (λ sample, snd sample == m) (values a)) →
            Exists (λ sample, snd sample == pick m (value data))
                   (values a ++ [(timestamp data, value data)])).
  { intros m pick Hpick Hm0 Hm1. apply Exists_app.
    destruct Hpick as [E|E].
    - destruct (values a) as [|s0 rest] eqn:Hv.
      + right. apply Exists_cons. left. cbn [snd]. rewrite E. symmetry. apply Hm0.
        reflexivity.
      + left. eapply Exists_impl; [apply Hm1; discriminate|].
        cbv beta. intros s Hs. rewrite E. exact Hs.
    - right. apply Exists_cons. left. cbn [snd]. rewrite E. reflexivity. }
  split.
  { apply (Hext (min a) Qmin).
    - destruct (Q.min_spec (min a) (value data)) as [[_ E]|[_ E]]; [left|right]; exact E.
    - intros Hv. apply Hfresh, Hv.
    - intros Hv. apply Hold, Hv. }
  split.
  { apply (Hext (max a) Qmax).
    - destruct (Q.max_spec (max a) (value data)) as [[_ E]|[_ E]]; [right|left]; exact E.
    - intros Hv. apply Hfresh, Hv.
    - intros Hv. apply Hold, Hv. }
  eexists. split; reflexivity.
Qed.

End Aggregates.

(** X13. The daily aggregate stays consistent.  When the day's key is absent
    or holds a consistent aggregate, [updateDailyAggregates] returns and
    stores an aggregate that has the new sample appended and one more in
    [count]; [count] is the number of samples, [sum] is the samples added one
    by one as the doubles add them, [min] and [max] are samples and bound
    every sample, and [average] is the rounded quotient of [sum] and
    [count]. *)
Theorem daily_aggregate_consistent
    (now farm sensorType : string) (data : IoT.SensorData)
    (kv : gmap string Telemetry.stored) :
  let key := Telemetry.daily_key farm sensorType (JS.split_head "T" now) in
  (kv !! key = None
   ∨ ∃ a, kv !! key = Some (Telemetry.Daily a) ∧ Telemetry.aggregate_ok a) →
  let before :=
    match kv !! key with Some (Telemetry.Daily a) => Telemetry.values a | _ => [] end in
  ∃ a',
    Telemetry.updateDailyAggregates now farm sensorType data kv
    = (<[key := Telemetry.Daily a']> kv, JS.Returned tt)
    ∧ Telemetry.aggregate_ok a'
    ∧ Telemetry.values a' = before ++ [(IoT.timestamp data, IoT.value data)]
    ∧ Telemetry.count a' = S (length before).
Proof.
  intros key Hkey before. subst before. unfold Telemetry.updateDailyAggregates. fold key.
  destruct Hkey as [Hnone|(a & Ha & Hok)].
  - rewrite Hnone. eexists. split; [reflexivity|]. split; [|split; reflexivity].
    apply accumulate_ok; cbn.
    + reflexivity.
    + reflexivity.
    + apply Forall_nil. exact I.
    + intros _. split; reflexivity.
    + intros H. contradiction.
  - rewrite Ha. destruct Hok as (H1 & Hcount & Hsum & Hall & Hmin & Hmax & _).
    eexists. split; [reflexivity|]. split; [|split].
    + apply accumulate_ok; try assumption.
      * intros Hv. rewrite Hv in Hcount. cbn in Hcount. lia.
      * intros _. split; assumption.
    + reflexivity.
    + cbn. rewrite Hcount. reflexivity.
Qed.

(** The aggregate theorem at the second reading of a day: after soil pH
    readings of 6.5 and 7 the aggregate counts two samples. *)
Lemma daily_aggregate_consistent_witness :
  let now := "2024-03-05T10:00:01.000Z" in
  let first :=
    fst (Telemetry.updateDailyAggregates now "farm1" "soil_ph" (Telemetry.sample_ph 6.5%Q) ∅)
  in
  ∃ a', Telemetry.updateDailyAggregates now "farm1" "soil_ph" (Telemetry.sample_ph 7%Q) first
        = (<[Telemetry.daily_key "farm1" "soil_ph" "2024-03-05" := Telemetry.Daily a']> first,
           JS.Returned tt)
        ∧ Telemetry.count a' = 2
        ∧ Telemetry.aggregate_ok a'.
Proof.
  intros now first.
  destruct (daily_aggregate_consistent now "farm1" "soil_ph" (Telemetry.sample_ph 7%Q) first)
    as (a' & Hrun & Hok & Hvalues & Hcount).
  - right.
    exists (Telemetry.accumulate now (Telemetry.sample_ph 6.5%Q)
              (Telemetry.fresh_aggregate "2024-03-05" "farm1" "soil_ph"
                 (Telemetry.sample_ph 6.5%Q))).
    split; [vm_compute; reflexivity|].
    apply accumulate_ok; cbn.
    + reflexivity.
    + reflexivity.
    + apply Forall_nil. exact I.
    + intros _. split; reflexivity.
    + intros H. contradiction.
  - exists a'. split; [exact Hrun|]. split; [|exact Hok].
    rewrite Hcount. vm_compute. reflexivity.
Defined.

(** The average is the rounded quotient, not a mean between the bounds: after
    three soil pH readings of 6.6 the stored sum is just under 19.8 and the
    stored average lies under the stored minimum. *)
Lemma daily_average_below_minimum :
  let now := "2024-03-05T10:00:01.000Z" in
  let reading := Telemetry.sample_ph (Double.double 6.6%Q) in
  let update := Telemetry.updateDailyAggregates now "farm1" "soil_ph" reading in
  let kv := fst (update (fst (update (fst (update ∅))))) in
  ∃ a avg,
    kv !! Telemetry.daily_key "farm1" "soil_ph" "2024-03-05" = Some (Telemetry.Daily a)
    ∧ Telemetry.count a = 3
    ∧ Telemetry.average a = Some avg
    ∧ (avg < Telemetry.min a)%Q
    ∧ (Telemetry.min a == Double.double 6.6)%Q.
Proof.
  intros now reading update kv.
  set (a := Telemetry.accumulate now reading
              (Telemetry.accumulate now reading
                 (Telemetry.accumulate now reading
                    (Telemetry.fresh_aggregate "2024-03-05" "farm1" "soil_ph" reading)))).
  exists a. eexists.
  split; [subst kv update; vm_compute; reflexivity|].
  split; [reflexivity|]. split; [reflexivity|].
  split; vm_compute; reflexivity.
Qed.

(** ** Ingest and latest readings *)

Section LatestReadings.
Import JS IoT Telemetry.

Lemma latest_key_not_daily (farm type farm' type' today : string) :
  latest_key farm type ≠ daily_key farm' type' today.
Proof. unfold latest_key, daily_key. cbn. discriminate. Qed.

Lemma append_cancel_l (s a b : string) : s +:+ a = s +:+ b → a = b.
Proof.
  induction s as [|c s IH]; cbn; intros H; [exact H|].
  injection H as H. apply IH, H.
Qed.

Lemma latest_key_inj (farm type type' : string) :
  latest_key farm type = latest_key farm type' → type = type'.
Proof.
  unfold latest_key. intros H.
  apply append_cancel_l, append_cancel_l, append_cancel_l in H. exact H.
Qed.

(** Looking a key up in the object built over a list of keys. *)
Lemma assoc_omap_keys {A : Type} (f : string → option A) (keys : list string)
    (key : string) :
  assoc key (omap (λ k, pair k <$> f k) keys) = if decide (key ∈ keys) then f key else None.
Proof.
  induction keys as [|k rest IH].
  - cbn. rewrite decide_False by apply not_elem_of_nil. reflexivity.
  - cbn [omap list_omap].
    destruct (decide (k = key)) as [-> | Hne].
    + rewrite decide_True by apply list_elem_of_here.
      destruct (f key) as [x|] eqn:E.
      * cbn [fmap option_fmap option_map assoc]. rewrite String.eqb_refl. reflexivity.
      * cbn [fmap option_fmap option_map]. rewrite IH.
        destruct (decide (key ∈ rest)); reflexivity.
    + assert (Hdec : (if decide (key ∈ k :: rest) then f key else None)
                     = (if decide (key ∈ rest) then f key else None)).
      { destruct (decide (key ∈ rest)) as [Hin|Hnin].
        - rewrite decide_True by (apply list_elem_of_further; exact Hin). reflexivity.
        - rewrite decide_False; [reflexivity|].
          intros H. apply elem_of_cons in H as [H|H]; [congruence | contradiction]. }
      rewrite Hdec, <- IH.
      destruct (f k) as [x|]; cbn [fmap option_fmap option_map assoc]; [|reflexivity].
      destruct (String.eqb_spec k key); [contradiction | reflexivity].
Qed.

(** The stores of [processSensorData] before the aggregate update. *)
Lemma written_before_aggregate (farm sensor time sensorType : string) (nd : SensorData)
    (kv : iot_store) :
  let kv2 :=
    <[latest_key farm sensorType := Reading nd]>
      (<[data_key farm sensor time := Reading nd]> kv) in
  kv2 !! data_key farm sensor time = Some (Reading nd)
  ∧ kv2 !! latest_key farm sensorType = Some (Reading nd).
Proof.
  intros kv2. subst kv2. split; [|apply lookup_insert_eq].
  destruct (decide (latest_key farm sensorType = data_key farm sensor time)) as [E|E].
  - rewrite E. apply lookup_insert_eq.
  - rewrite lookup_insert_ne by exact E. apply lookup_insert_eq.
Qed.

(** The status check throws exactly when one of the sensor types has an
    entry without a valid date. *)
Lemma status_loop_thrown (read_date : string → option DateRead)
    (latestData : list (string * stored)) (types : list string)
    (status : list (string * SensorStatus)) :
  status_loop read_date latestData types status = Thrown
  ↔ ∃ type s, type ∈ types ∧ assoc type latestData = Some s
              ∧ last_update read_date s = None.
Proof.
  revert status. induction types as [|t rest IH]; intros status; cbn [status_loop].
  - split; [discriminate|]. intros (type & s & Hin & _). apply elem_of_nil in Hin.
    contradiction.
  - unfold sensor_status.
    destruct (assoc t latestData) as [s|] eqn:Ha;
      [destruct (last_update read_date s) as [date|] eqn:Hd|].
    + rewrite IH. split; intros (type & s' & Hin & Hs & Hnone).
      * exists type, s'. split; [apply list_elem_of_further, Hin | split; assumption].
      * exists type, s'. split; [|split; assumption].
        apply elem_of_cons in Hin as [-> | Hin]; [|exact Hin].
        rewrite Ha in Hs. injection Hs as <-. congruence.
    + split; [|reflexivity]. intros _. exists t, s.
      split; [apply list_elem_of_here | split; assumption].
    + rewrite IH. split; intros (type & s' & Hin & Hs & Hnone).
      * exists type, s'. split; [apply list_elem_of_further, Hin | split; assumption].
      * exists type, s'. split; [|split; assumption].
        apply elem_of_cons in Hin as [-> | Hin]; [|exact Hin]. congruence.
Qed.

End LatestReadings.

(** X14. Ingest keeps the reading.  Whether [processSensorData] returns or
    throws (it throws exactly when the key of the day's aggregate holds a
    reading), the store afterwards holds the normalised reading under its
    data key and as the latest reading of its farm and sensor type.  For one
    of the six sensor types [getLatestSensorData] then reports that reading
    whenever it returns; it throws exactly when one of the farm's six latest
    entries carries no valid date, in particular when the timestamp of the
    reading just ingested is not a date. *)
Theorem processed_reading_is_latest
    (show : Q → string) (read_date : string → option Telemetry.DateRead)
    (now later : string) (raw : IoT.RawSensorData) (kv : gmap string Telemetry.stored) :
  let farm := IoT.raw_farmId raw in
  let sensorType := IoT.raw_sensorType raw in
  let reading := Telemetry.Reading (IoT.normalizeSensorData now raw) in
  let dataKey := Telemetry.data_key farm (IoT.raw_sensorId raw) (IoT.raw_timestamp raw) in
  let dailyKey := Telemetry.daily_key farm sensorType (JS.split_head "T" now) in
  let result := Telemetry.processSensorData show now raw kv in
  let latest := Telemetry.getLatestSensorData read_date later farm (fst result) in
  fst result !! dataKey = Some reading
  ∧ fst result !! Telemetry.latest_key farm sensorType = Some reading
  ∧ (snd result = JS.Thrown
     ↔ (dailyKey = dataKey ∨ ∃ d, kv !! dailyKey = Some (Telemetry.Reading d)))
  ∧ (sensorType ∈ Telemetry.sensorTypes →
     (∀ r, latest = JS.Returned r →
           JS.assoc sensorType (Telemetry.sensors r) = Some reading)
     ∧ (latest = JS.Thrown
        ↔ ∃ type s, type ∈ Telemetry.sensorTypes
                    ∧ fst result !! Telemetry.latest_key farm type = Some s
                    ∧ Telemetry.last_update read_date s = None)
     ∧ (read_date (IoT.raw_timestamp raw) = None → latest = JS.Thrown)).
Proof.
  intros farm sensorType reading dataKey dailyKey result latest.
  set (kv2 := <[Telemetry.latest_key farm sensorType := reading]> (<[dataKey := reading]> kv)).
  destruct (written_before_aggregate farm (IoT.raw_sensorId raw) (IoT.raw_timestamp raw)
              sensorType (IoT.normalizeSensorData now raw) kv) as [Hdata Hlatest].
  fold reading dataKey kv2 in Hdata, Hlatest.
  assert (Hdaily : kv2 !! dailyKey
                   = if decide (dailyKey = dataKey) then Some reading else kv !! dailyKey).
  { unfold kv2. rewrite lookup_insert_ne by apply latest_key_not_daily.
    destruct (decide (dailyKey = dataKey)) as [-> | Hne].
    - apply lookup_insert_eq.
    - rewrite lookup_insert_ne by congruence. reflexivity. }
  assert (Hresult :
            (fst result = kv2 ∧ snd result = JS.Thrown
             ∧ ∃ d, kv2 !! dailyKey = Some (Telemetry.Reading d))
            ∨ (∃ a, fst result = <[dailyKey := Telemetry.Daily a]> kv2
                    ∧ snd result ≠ JS.Thrown
                    ∧ ∀ d, kv2 !! dailyKey ≠ Some (Telemetry.Reading d))).
  { subst result. unfold Telemetry.processSensorData, Telemetry.updateDailyAggregates.
    fold farm sensorType dataKey dailyKey. fold reading. fold kv2.
    destruct (kv2 !! dailyKey) as [[d|a]|] eqn:E; cbn [fst snd].
    - left. split; [reflexivity|]. split; [reflexivity|]. exists d. reflexivity.
    - right. eexists. split; [reflexivity|]. split; [discriminate|]. intros d. discriminate.
    - right. eexists. split; [reflexivity|]. split; [discriminate|]. intros d. discriminate. }
  assert (Hkeep : fst result !! dataKey = Some reading
                  ∧ fst result !! Telemetry.latest_key farm sensorType = Some reading).
  { destruct Hresult as [(-> & _ & _)|(a & -> & _ & Hnot)]; [split; assumption|].
    split.
    - rewrite lookup_insert_ne; [exact Hdata|].
      intros E. apply (Hnot (IoT.normalizeSensorData now raw)).
      rewrite E. exact Hdata.
    - rewrite lookup_insert_ne by (apply not_eq_sym, latest_key_not_daily). exact Hlatest. }
  destruct Hkeep as [Hk1 Hk2].
  split; [exact Hk1|]. split; [exact Hk2|]. split; [|clear Hresult].
  - rewrite Hdaily in Hresult. split.
    + intros Hthrown. destruct Hresult as [(_ & _ & d & Hd)|(a & _ & Hne & _)];
        [|contradiction].
      destruct (decide (dailyKey = dataKey)) as [E|E]; [left; exact E|].
      right. exists d. exact Hd.
    + intros Hcause. destruct Hresult as [(_ & Hth & _)|(a & _ & _ & Hnot)]; [exact Hth|].
      exfalso. destruct (decide (dailyKey = dataKey)) as [E|E].
      * apply (Hnot (IoT.normalizeSensorData now raw)). reflexivity.
      * destruct Hcause as [Hc|(d & Hd)]; [contradiction|]. apply (Hnot d). exact Hd.
  - intros Hin.
    set (latestData :=
           omap (λ t, pair t <$> fst result !! Telemetry.latest_key farm t)
                Telemetry.sensorTypes).
    assert (Hlook : ∀ t, t ∈ Telemetry.sensorTypes →
                         JS.assoc t latestData = fst result !! Telemetry.latest_key farm t).
    { intros t Ht. unfold latestData.
      rewrite (assoc_omap_keys (λ t, fst result !! Telemetry.latest_key farm t)).
      rewrite decide_True by exact Ht. reflexivity. }
    assert (Hthrown : latest = JS.Thrown
                      ↔ ∃ type s, type ∈ Telemetry.sensorTypes
                                  ∧ fst result !! Telemetry.latest_key farm type = Some s
                                  ∧ Telemetry.last_update read_date s = None).
    { subst latest. unfold Telemetry.getLatestSensorData. fold latestData.
      pose proof (status_loop_thrown read_date latestData Telemetry.sensorTypes [])
        as Hloop.
      fold (Telemetry.checkSensorStatus read_date latestData) in Hloop.
      destruct (Telemetry.checkSensorStatus read_date latestData) as [status|].
      - split; [discriminate|]. intros (type & s & Ht & Hs & Hnone). exfalso.
        assert (Hbad : @JS.Returned (list (string * Telemetry.SensorStatus)) status
                       = JS.Thrown); [|discriminate Hbad].
        apply Hloop. exists type, s. rewrite (Hlook type Ht). tauto.
      - split; [|reflexivity]. intros _.
        destruct (proj1 Hloop eq_refl) as (type & s & Ht & Hs & Hnone).
        exists type, s. rewrite <- (Hlook type Ht). tauto. }
    split; [|split; [exact Hthrown|]].
    + intros r Hr. subst latest. unfold Telemetry.getLatestSensorData in Hr.
      fold latestData in Hr.
      destruct (Telemetry.checkSensorStatus read_date latestData); [|discriminate Hr].
      injection Hr as <-. cbn [Telemetry.sensors].
      rewrite (Hlook sensorType Hin). exact Hk2.
    + intros Hdate. apply Hthrown. exists sensorType, reading.
      split; [exact Hin|]. split; [exact Hk2 | exact Hdate].
Qed.

(** ** Indices over a forecast *)

Section Forecast.
Import JS Agronomy.
Local Open Scope Q_scope.

Lemma gdd_fold (base : Q) (forecasts : list ForecastDay) (acc : Q) :
  fold_left (λ gdd day, gdd + Qmax 0 (day_mean day - base)) forecasts acc
  == acc + fold_left (λ gdd day, gdd + Qmax 0 (day_mean day - base)) forecasts 0.
Proof.
  revert acc. induction forecasts as [|d rest IH]; intros acc; cbn [fold_left].
  - lra.
  - rewrite IH. rewrite (IH (0 + _)). lra.
Qed.

Lemma gdd_nonneg (forecasts : list ForecastDay) (baseTemp : option Q) :
  0 <= calculateGDD forecasts baseTemp.
Proof.
  unfold calculateGDD. induction forecasts as [|d rest IH]; cbn [fold_left]; [lra|].
  rewrite gdd_fold. pose proof (Q.le_max_l 0 (day_mean d - default 10 baseTemp)). lra.
Qed.

Lemma gdd_app (l1 l2 : list ForecastDay) (baseTemp : option Q) :
  calculateGDD (l1 ++ l2) baseTemp == calculateGDD l1 baseTemp + calculateGDD l2 baseTemp.
Proof.
  unfold calculateGDD. rewrite fold_left_app. apply gdd_fold.
Qed.

Lemma chill_fold (forecasts : list ForecastDay) (acc : Z) :
  fold_left (λ hours day,
               if Qle_bool 0 (tempMin day) && Qle_bool (tempMin day) 7
               then (hours + 8)%Z else hours) forecasts acc
  = (acc + 8 * Z.of_nat (length (List.filter
                                   (λ day, Qle_bool 0 (tempMin day)
                                           && Qle_bool (tempMin day) 7) forecasts)))%Z.
Proof.
  revert acc. induction forecasts as [|d rest IH]; intros acc; cbn [fold_left List.filter].
  - cbn. lia.
  - rewrite IH. destruct (Qle_bool 0 (tempMin d) && Qle_bool (tempMin d) 7); cbn [length]; lia.
Qed.

(** Days cannot be counted twice by two tests that exclude each other. *)
Lemma disjoint_counts (p q : ForecastDay → bool) (forecasts : list ForecastDay) :
  (∀ day, p day && q day = false) →
  (length (List.filter p forecasts) + length (List.filter q forecasts)
   ≤ length forecasts)%nat.
Proof.
  intros Hpq. induction forecasts as [|d rest IH]; cbn [List.filter length]; [lia|].
  specialize (Hpq d). destruct (p d), (q d); cbn [length] in *; try discriminate; lia.
Qed.

End Forecast.

(** X15. Growing degree days never go negative, add up over consecutive
    stretches of the forecast, so that a longer forecast never has fewer of
    them, and are zero when no day's mean temperature exceeds the base. *)
Theorem growing_degree_days_accumulate
    (forecasts more : list Agronomy.ForecastDay) (baseTemp : option Q) :
  (0 <= Agronomy.calculateGDD forecasts baseTemp)%Q
  ∧ (Agronomy.calculateGDD (forecasts ++ more) baseTemp
     == Agronomy.calculateGDD forecasts baseTemp + Agronomy.calculateGDD more baseTemp)%Q
  ∧ (Agronomy.calculateGDD forecasts baseTemp
     <= Agronomy.calculateGDD (forecasts ++ more) baseTemp)%Q
  ∧ (Forall (λ day, (Agronomy.day_mean day <= default 10 baseTemp)%Q) forecasts →
     (Agronomy.calculateGDD forecasts baseTemp == 0)%Q).
Proof.
  split; [apply gdd_nonneg|]. split; [apply gdd_app|]. split.
  - rewrite gdd_app. pose proof (gdd_nonneg more baseTemp). lra.
  - intros Hcold. induction Hcold as [|d rest Hd _ IH]; [reflexivity|].
    change (d :: rest) with ([d] ++ rest). rewrite gdd_app, IH.
    unfold Agronomy.calculateGDD. cbn [fold_left].
    rewrite Q.max_l by lra. lra.
Qed.

(** X16. Chill hours are eight times the number of forecast days whose
    minimum temperature lies in [0, 7], hence a multiple of 8 between 0 and
    8 per day. *)
Theorem chill_hours_count (forecasts : list Agronomy.ForecastDay) :
  let chilly :=
    List.filter (λ day, Qle_bool 0 (Agronomy.tempMin day)
                        && Qle_bool (Agronomy.tempMin day) 7) forecasts in
  Agronomy.calculateChillHours forecasts = (8 * Z.of_nat (length chilly))%Z
  ∧ (0 <= Agronomy.calculateChillHours forecasts <= 8 * Z.of_nat (length forecasts))%Z
  ∧ (∀ day, day ∈ chilly ↔
            day ∈ forecasts ∧ (0 <= Agronomy.tempMin day)%Q ∧ (Agronomy.tempMin day <= 7)%Q).
Proof.
  intros chilly. unfold Agronomy.calculateChillHours. rewrite chill_fold. fold chilly.
  split; [lia|]. split.
  - pose proof (List.filter_length_le
                  (λ day, Qle_bool 0 (Agronomy.tempMin day)
                          && Qle_bool (Agronomy.tempMin day) 7) forecasts) as Hle.
    fold chilly in Hle. lia.
  - intros day. unfold chilly.
    rewrite !list_elem_of_In, filter_In, andb_true_iff, !Qle_bool_iff. reflexivity.
Qed.

(** X17. On an empty forecast every index is at its floor: no growing degree
    days, no chill hours, no water requirement, pest and disease risk 'Low',
    planting window and harvest readiness 'Poor' (the averages are NaN and
    every comparison with them fails), and the only advice is the one for low
    rainfall. *)
Theorem indices_of_empty_forecast (evapotranspiration : option Q) :
  let indices := Agronomy.agriculturalIndices evapotranspiration [] in
  Agronomy.growingDegreeDays indices = 0%Q
  ∧ Agronomy.chillHours indices = 0%Z
  ∧ (Agronomy.waterRequirement indices == 0)%Q
  ∧ Agronomy.pestRisk indices = "Low"
  ∧ Agronomy.diseaseRisk indices = "Low"
  ∧ Agronomy.optimalPlantingWindow indices = "Poor"
  ∧ Agronomy.harvestReadiness indices = "Poor"
  ∧ Agronomy.generateAgriculturalAdvice []
    = ["Consider irrigation planning as low rainfall is expected"].
Proof.
  intros indices. subst indices. cbn [Agronomy.agriculturalIndices
    Agronomy.growingDegreeDays Agronomy.chillHours Agronomy.waterRequirement
    Agronomy.pestRisk Agronomy.diseaseRisk Agronomy.optimalPlantingWindow
    Agronomy.harvestReadiness].
  repeat match goal with |- _ ∧ _ => split end; try reflexivity.
  unfold Agronomy.calculateWaterRequirement, Agronomy.size, Agronomy.sum_over.
  cbn [length fold_left]. change (inject_Z (Z.of_nat 0)) with 0%Q.
  apply Q.max_l. lra.
Qed.

(** X18. The indices returned together do not contradict each other on rain:
    a day is never counted both as dry (under 1 mm) and as wet (over 1 mm),
    so whenever the harvest readiness is 'Excellent' the disease risk is not
    'High'. *)
Theorem excellent_harvest_excludes_high_disease_risk
    (forecasts : list Agronomy.ForecastDay) :
  Agronomy.assessHarvestConditions forecasts = "Excellent" →
  Agronomy.assessDiseaseRisk forecasts ≠ "High".
Proof.
  unfold Agronomy.assessHarvestConditions, Agronomy.assessDiseaseRisk.
  set (dry := λ day, JS.Qltb (Agronomy.precipitation day) 1).
  set (wet := λ day, JS.Qltb 1 (Agronomy.precipitation day)).
  destruct (JS.Qltb (Agronomy.size forecasts * 0.8) (Agronomy.days_where dry forecasts)
            && Agronomy.below (Agronomy.mean_over Agronomy.avgHumidity forecasts) 70) eqn:E.
  - intros _. apply andb_true_iff in E as [Hdry Hhum].
    apply Qltb_true in Hdry.
    destruct (Agronomy.mean_over Agronomy.avgHumidity forecasts) as [h|];
      [|discriminate Hhum].
    cbn [Agronomy.below Agronomy.above] in *. apply Qltb_true in Hhum.
    assert (H80 : JS.Qltb 80 h = false) by (apply Qltb_false; lra).
    rewrite H80. cbn [orb].
    assert (Hcount : (length (List.filter dry forecasts) + length (List.filter wet forecasts)
                      ≤ length forecasts)%nat).
    { apply disjoint_counts. intros day. unfold dry, wet.
      destruct (JS.Qltb (Agronomy.precipitation day) 1) eqn:E1; [|reflexivity].
      apply Qltb_true in E1. cbn. apply Qltb_false. lra. }
    assert (Hwet : JS.Qltb (Agronomy.size forecasts / 2) (Agronomy.days_where wet forecasts)
                   = false).
    { apply Qltb_false. unfold Agronomy.days_where, Agronomy.size in *.
      apply Nat2Z.inj_le in Hcount. rewrite Nat2Z.inj_add in Hcount.
      rewrite Zle_Qle, inject_Z_plus in Hcount.
      assert (0 <= inject_Z (Z.of_nat (length (List.filter dry forecasts))))%Q.
      { change 0%Q with (inject_Z 0). rewrite <- Zle_Qle. lia. }
      apply Qle_shift_div_l; [lra|]. lra. }
    rewrite Hwet.
    repeat match goal with |- context [if ?b then _ else _] => destruct b end; discriminate.
  - repeat match goal with |- context [if ?b then _ else _] => destruct b end; discriminate.
Qed.

(** The harvest theorem at a week of seven mild, dry days. *)
Lemma excellent_harvest_excludes_high_disease_risk_witness :
  Agronomy.assessDiseaseRisk (replicate 7 Agronomy.sample_day) ≠ "High".
Proof.
  apply excellent_harvest_excludes_high_disease_risk. vm_compute. reflexivity.
Defined.

(** ** Dew point at saturation *)

(** X19. At 100 % humidity, where [Math.log] returns 0, the dew point of a
    temperature between -100 and 100 degrees is a finite number within a
    billionth of a degree of the temperature, on either side. *)
Theorem dew_point_at_saturation (ln : Q → Q) (temp : Q) :
  (ln 1 == 0)%Q → (-100 <= temp)%Q → (temp <= 100)%Q →
  ∃ d, Weather.calculateDewPoint ln temp 100 = F64.Fin d
       ∧ (temp - (1 # 1000000000) <= d)%Q
       ∧ (d <= temp + (1 # 1000000000))%Q.
Proof.
  intros Hln Ht Ht'.
  destruct magnus_constants as (Hc1 & Hc1' & Hc2 & Hc2').
  assert (HL : (ln 1 <= 0)%Q) by (rewrite Hln; apply Qle_refl).
  destruct (magnus_upper (Double.double 17.27) (Double.double 237.7) temp
              (ln 1%Q) Hc1 Hc1' Hc2 Hc2' Ht Ht' HL) as (Hs & Hm & Hd).
  pose proof (magnus_saturated (Double.double 17.27) (Double.double 237.7) temp
                Hc1 Hc1' Hc2 Hc2' Ht Ht') as Hlow.
  cbv zeta in Hm, Hd, Hlow.
  rewrite <- (double_comp _ _ (Qplus_comp _ _ (Qeq_refl _) _ _ Hln)) in Hlow.
  eexists. split; [|split; [exact Hlow | exact Hd]].
  apply (dew_point_finite ln temp 100); [exact Hs | reflexivity | exact Hm].
Qed.

(** The saturation theorem at 21 degrees, where the doubles give
    21.000000000000004. *)
Lemma dew_point_at_saturation_witness :
  ∃ d, Weather.calculateDewPoint Weather.sample_log 21 100 = F64.Fin d
       ∧ (21 - (1 # 1000000000) <= d)%Q
       ∧ (d <= 21 + (1 # 1000000000))%Q.
Proof.
  apply (dew_point_at_saturation Weather.sample_log 21);
    [reflexivity | discriminate | discriminate].
Defined.

(** ** Supply and demand *)

Section SupplyFacts.
Import JS Num Supply.
Local Open Scope R_scope.

Lemma Rgtb_true (x y : R) : Rgtb x y = true ↔ y < x.
Proof. unfold Rgtb. destruct (Rlt_dec y x); split; intros; (assumption || reflexivity || discriminate || contradiction). Qed.

Lemma Rgtb_false (x y : R) : Rgtb x y = false ↔ x <= y.
Proof. unfold Rgtb. destruct (Rlt_dec y x); split; intros; try reflexivity; try discriminate; lra. Qed.

Lemma ratio_above (p d c : R) : 0 < d → (c < p / d ↔ c * d < p).
Proof.
  intros Hd. split; intros H.
  - apply (Rmult_lt_reg_r (/ d)); [apply Rinv_0_lt_compat; exact Hd|].
    rewrite Rmult_assoc, Rinv_r by lra. unfold Rdiv in H. lra.
  - unfold Rdiv. apply (Rmult_lt_reg_r d); [exact Hd|].
    rewrite Rmult_assoc, Rinv_l by lra. lra.
Qed.

Lemma ratio_below (p d c : R) : 0 < d → (p / d < c ↔ p < c * d).
Proof.
  intros Hd. split; intros H.
  - apply (Rmult_lt_reg_r (/ d)); [apply Rinv_0_lt_compat; exact Hd|].
    rewrite (Rmult_assoc c), Rinv_r by lra. unfold Rdiv in H. lra.
  - unfold Rdiv. apply (Rmult_lt_reg_r d); [exact Hd|].
    rewrite Rmult_assoc, Rinv_l by lra. lra.
Qed.

(** The status as a function of production and a positive demand. *)
Lemma status_cases (production demand : R) :
  0 < demand →
  status (calculateSupplyDemandBalance production demand)
  = if Rlt_dec (1.1 * demand) production then "surplus"
    else if Rlt_dec production (0.9 * demand) then "deficit"
    else "balanced".
Proof.
  intros Hd. unfold calculateSupplyDemandBalance. cbn [status].
  rewrite jdiv_fin by lra. unfold jgtb, jltb.
  destruct (Rlt_dec 1.1 (production / demand)) as [H|H];
    destruct (Rlt_dec (1.1 * demand) production) as [H'|H']; try reflexivity.
  - exfalso. apply H'. apply ratio_above; assumption.
  - exfalso. apply H. apply ratio_above; assumption.
  - destruct (Rlt_dec (production / demand) 0.9) as [G|G];
      destruct (Rlt_dec production (0.9 * demand)) as [G'|G']; try reflexivity.
    + exfalso. apply G'. apply ratio_below; assumption.
    + exfalso. apply G. apply ratio_below; assumption.
Qed.

End SupplyFacts.

(** X20. The supply-demand balance, for a non-negative production and a
    positive total demand: the status is 'surplus' exactly when the supply
    level is 'high' (production above 1.1 times demand) and 'deficit' exactly
    when it is 'low' (production below 0.9 times demand); surplus and deficit
    amounts are never both positive; a deficit always comes with a 'high'
    demand level, and a 'low' demand level always with a surplus. *)
Theorem supply_demand_balance_consistent (production demand : R) :
  (0 <= production)%R → (0 < demand)%R →
  let b := Supply.calculateSupplyDemandBalance production demand in
  (Supply.status b = "surplus" ↔ (1.1 * demand < production)%R)
  ∧ (Supply.status b = "deficit" ↔ (production < 0.9 * demand)%R)
  ∧ (Supply.status b = "surplus" ↔ Supply.supplyLevel b = "high")
  ∧ (Supply.status b = "deficit" ↔ Supply.supplyLevel b = "low")
  ∧ (Supply.surplus b = 0 ∨ Supply.deficit b = 0)%R
  ∧ (Supply.status b = "deficit" → Supply.demandLevel b = "high")
  ∧ (Supply.demandLevel b = "low" → Supply.status b = "surplus").
Proof.
  intros Hp Hd b. subst b. rewrite (status_cases production demand Hd).
  unfold Supply.calculateSupplyDemandBalance.
  cbn [Supply.supplyLevel Supply.demandLevel Supply.surplus Supply.deficit].
  unfold Supply.Rgtb.
  repeat match goal with |- _ ∧ _ => split end.
  - destruct (Rlt_dec (1.1 * demand) production); [tauto|].
    destruct (Rlt_dec production (0.9 * demand)); split; intros; try discriminate; lra.
  - destruct (Rlt_dec (1.1 * demand) production);
      [split; intros; try discriminate; lra|].
    destruct (Rlt_dec production (0.9 * demand)); split; intros; try discriminate;
      try reflexivity; lra.
  - destruct (Rlt_dec (1.1 * demand) production) as [H|H];
      destruct (Rlt_dec (demand * 1.1) production) as [H'|H']; try lra; [tauto|].
    destruct (Rlt_dec production (0.9 * demand));
      destruct (Rlt_dec production (demand * 0.9)); split; discriminate.
  - destruct (Rlt_dec (1.1 * demand) production) as [H|H];
      destruct (Rlt_dec (demand * 1.1) production) as [H'|H']; try lra.
    + split; discriminate.
    + destruct (Rlt_dec production (0.9 * demand));
        destruct (Rlt_dec production (demand * 0.9)); try lra;
        split; intros; try discriminate; reflexivity.
  - destruct (Rle_dec production demand).
    + left. apply Rmax_left. lra.
    + right. apply Rmax_left. lra.
  - destruct (Rlt_dec (1.1 * demand) production); [discriminate|].
    destruct (Rlt_dec production (0.9 * demand)); [|discriminate].
    intros _. destruct (Rlt_dec (production * 1.1) demand); [reflexivity | lra].
  - destruct (Rlt_dec (production * 1.1) demand); [discriminate|].
    destruct (Rlt_dec demand (production * 0.9)); [|discriminate].
    intros _. destruct (Rlt_dec (1.1 * demand) production); [reflexivity | lra].
Qed.

(** The balance theorem at the production and demand of tomatoes. *)
Lemma supply_demand_balance_consistent_witness :
  Supply.status (Supply.calculateSupplyDemandBalance 1200000 1300000) ≠ "surplus".
Proof.
  destruct (supply_demand_balance_consistent 1200000 1300000) as (Hs & _); [lra | lra |].
  intros H. apply Hs in H. lra.
Defined.

(** X21. For every crop name that is not an inherited property name, the
    demand-supply analysis never reports a surplus: the production figures of
    the service stay below 1.1 times its demand figures for every crop it
    knows and for its defaults, so the price impact is never
    'downward_pressure'. *)
Theorem no_crop_in_surplus (crop : string) :
  crop ∉ Supply.inherited →
  Supply.status (Supply.crop_balance crop) ≠ "surplus"
  ∧ Supply.assessPriceImpact (Supply.crop_balance crop) ≠ "downward_pressure".
Proof.
  intros _.
  assert (Hfig : (0 < Supply.total_demand crop)%R
                 ∧ (Supply.getCurrentProduction crop <= 1.1 * Supply.total_demand crop)%R).
  { unfold Supply.total_demand, Supply.getCurrentProduction, Supply.getDomesticDemand,
      Supply.getIndustrialDemand. cbn [JS.assoc].
    destruct (String.eqb "tomatoes" crop); [cbn; split; lra|].
    destruct (String.eqb "cotton" crop); [cbn; split; lra|].
    destruct (String.eqb "sugarcane" crop); cbn; split; lra. }
  destruct Hfig as [Hd Hp].
  assert (Hs : Supply.status (Supply.crop_balance crop) ≠ "surplus").
  { unfold Supply.crop_balance. rewrite status_cases by exact Hd.
    destruct (Rlt_dec _ _) as [H|_]; [lra|].
    destruct (Rlt_dec _ _); discriminate. }
  split; [exact Hs|].
  unfold Supply.assessPriceImpact.
  destruct (String.eqb_spec (Supply.status (Supply.crop_balance crop)) "surplus");
    [contradiction|].
  destruct (String.eqb _ "deficit"); discriminate.
Qed.

(** The surplus theorem for wheat, a crop the tables do not list. *)
Lemma no_crop_in_surplus_witness :
  Supply.assessPriceImpact (Supply.crop_balance "wheat") ≠ "downward_pressure".
Proof.
  apply (no_crop_in_surplus "wheat").
  intros H. vm_compute in H. repeat (apply elem_of_cons in H as [H | H]; [discriminate H|]).
  apply elem_of_nil in H. exact H.
Defined.

(** ** Support and resistance *)

Section Bracket.
Import Num Market.
Local Open Scope R_scope.

Lemma fold_min_spec (c : R) (l : list R) :
  fold_right Rmin c l <= c
  ∧ (∀ x, In x l → fold_right Rmin c l <= x)
  ∧ (fold_right Rmin c l = c ∨ In (fold_right Rmin c l) l).
Proof.
  induction l as [|a l (Hc & Hall & Hin)]; cbn [fold_right].
  - split; [lra|]. split; [intros x []|]. left. reflexivity.
  - split; [etransitivity; [apply Rmin_r | exact Hc]|].
    split.
    + intros x [<- | Hx]; [apply Rmin_l|].
      etransitivity; [apply Rmin_r | apply Hall, Hx].
    + set (m := fold_right Rmin c l) in *.
      assert (Rmin a m = a ∨ Rmin a m = m) as [-> | ->]
        by (unfold Rmin; destruct (Rle_dec a m); auto).
      * right; left; reflexivity.
      * destruct Hin as [Hin | Hin]; [left; exact Hin | right; right; exact Hin].
Qed.

Lemma fold_max_spec (c : R) (l : list R) :
  c <= fold_right Rmax c l
  ∧ (∀ x, In x l → x <= fold_right Rmax c l)
  ∧ (fold_right Rmax c l = c ∨ In (fold_right Rmax c l) l).
Proof.
  induction l as [|a l (Hc & Hall & Hin)]; cbn [fold_right].
  - split; [lra|]. split; [intros x []|]. left. reflexivity.
  - split; [etransitivity; [exact Hc | apply Rmax_r]|].
    split.
    + intros x [<- | Hx]; [apply Rmax_l|].
      etransitivity; [apply Hall, Hx | apply Rmax_r].
    + set (m := fold_right Rmax c l) in *.
      assert (Rmax a m = a ∨ Rmax a m = m) as [-> | ->]
        by (unfold Rmax; destruct (Rle_dec a m); auto).
      * right; left; reflexivity.
      * destruct Hin as [Hin | Hin]; [left; exact Hin | right; right; exact Hin].
Qed.

Lemma last_in (l : list R) (d : R) : l ≠ [] → In (List.last l d) l.
Proof.
  induction l as [|a [|b l] IH]; intros Hne; [contradiction | left; reflexivity |].
  right. apply IH. discriminate.
Qed.

End Bracket.

(** X22. For a history of at least two prices the full trend analysis
    reports a support and a resistance that are prices of the history and
    bracket every price of it, the current one included. *)
Theorem support_resistance_bracket (historicalData : list Market.PricePoint) :
  (2 ≤ length historicalData)%nat →
  ∃ s r,
    Market.support (Market.analyzePriceTrends historicalData) = Some s
    ∧ Market.resistance (Market.analyzePriceTrends historicalData) = Some r
    ∧ In s (map Market.price historicalData)
    ∧ In r (map Market.price historicalData)
    ∧ ∀ p, In p historicalData → (s <= Market.price p <= r)%R.
Proof.
  intros Hlen. unfold Market.analyzePriceTrends.
  rewrite (long_enough historicalData Hlen).
  cbn [Market.support Market.resistance].
  set (prices := map Market.price historicalData).
  assert (Hlast : In (List.last prices 0%R) prices).
  { apply last_in. intros E. apply (f_equal (@length R)) in E.
    unfold prices in E. rewrite length_map in E. cbn in E. lia. }
  destruct (fold_min_spec (List.last prices 0%R) prices) as (_ & Hmin & Hs).
  destruct (fold_max_spec (List.last prices 0%R) prices) as (_ & Hmax & Hr).
  eexists _, _. split; [reflexivity|]. split; [reflexivity|].
  split; [destruct Hs as [-> | Hs]; assumption|].
  split; [destruct Hr as [-> | Hr]; assumption|].
  intros p Hp. apply (in_map Market.price) in Hp. fold prices in Hp.
  split; [apply Hmin, Hp | apply Hmax, Hp].
Qed.

(** The bracket theorem on the week of prices that ends where it started. *)
Lemma support_resistance_bracket_witness :
  ∃ s r,
    Market.support (Market.analyzePriceTrends Market.sample_week) = Some s
    ∧ Market.resistance (Market.analyzePriceTrends Market.sample_week) = Some r
    ∧ In s (map Market.price Market.sample_week)
    ∧ In r (map Market.price Market.sample_week)
    ∧ ∀ p, In p Market.sample_week → (s <= Market.price p <= r)%R.
Proof.
  apply (support_resistance_bracket Market.sample_week). cbn. lia.
Defined.
